(** * KernelSim T2 and the SFSS file server: a shallow embedding

  The development follows the two C translation units of the project:
  [sfss_server.c] (permission check and the five SFP request handlers) and
  [KernelSim_T2.c] (ready queue, round-robin scheduler, IRQ and syscall
  handling, command line).  C [int]/[long] values are modelled by [Z],
  [char] buffers holding text by [string], binary buffers by [list byte].
  The host operating system (stdio, directory and process calls) is not part
  of the project; it is modelled in [Module Libc]. *)

From Stdlib Require Import ZArith Lia Ascii.
From Stdlib.Init Require Import Byte.
From stdpp Require Import gmap strings list fin_maps.

Local Open Scope Z_scope.

(** ** C string helpers *)

Module CStr.

(** [strlen] of a NUL-terminated buffer. *)
Definition strlen (s : string) : nat := String.length s.

(** [strncmp(s1, s2, n) == 0]: the first [n] characters agree, the
    comparison stopping early when both strings end. *)
Fixpoint strncmp_eq (s1 s2 : string) (n : nat) {struct n} : bool :=
  match n with
  | O => true
  | S n' =>
      match s1, s2 with
      | EmptyString, EmptyString => true
      | String c1 r1, String c2 r2 =>
          if Ascii.eqb c1 c2 then strncmp_eq r1 r2 n' else false
      | _, _ => false
      end
  end.

(** [strcmp(s1, s2) == 0]. *)
Definition strcmp_eq (s1 s2 : string) : bool := String.eqb s1 s2.

(** [s[i]]; reading the terminator yields NUL. *)
Definition char_at (s : string) (i : nat) : ascii :=
  match String.get i s with
  | Some c => c
  | None => Ascii.zero
  end.

(** What [snprintf(buf, cap, ...)] leaves in [buf] when the formatted text
    is [s]: at most [cap - 1] characters. *)
Definition snprintf (cap : nat) (s : string) : string :=
  String.substring 0 (cap - 1) s.

Definition digit_char (d : Z) : ascii := ascii_of_nat (48 + Z.to_nat d).

Fixpoint dec_digits (fuel : nat) (n : Z) (acc : string) : string :=
  match fuel with
  | O => acc
  | S f =>
      let acc' := String (digit_char (n mod 10)) acc in
      if n <? 10 then acc' else dec_digits f (n / 10) acc'
  end.

(** The text produced by the conversion [%d]. *)
Definition fmt_d (n : Z) : string :=
  if n <? 0
  then String "-" (dec_digits (S (Z.to_nat (Z.log2 (- n)))) (- n) "")
  else dec_digits (S (Z.to_nat (Z.log2 n))) n "".

Definition is_space (c : ascii) : bool :=
  let n := nat_of_ascii c in
  (Nat.eqb n 32 || (Nat.leb 9 n && Nat.leb n 13))%bool.

Definition digit_val (c : ascii) : option Z :=
  let n := nat_of_ascii c in
  if (Nat.leb 48 n && Nat.leb n 57)%bool then Some (Z.of_nat n - 48) else None.

Fixpoint skip_spaces (s : string) : string :=
  match s with
  | String c r => if is_space c then skip_spaces r else s
  | EmptyString => s
  end.

Fixpoint read_digits (s : string) (acc : Z) : Z :=
  match s with
  | String c r =>
      match digit_val c with
      | Some d => read_digits r (10 * acc + d)
      | None => acc
      end
  | EmptyString => acc
  end.

Definition LONG_MIN : Z := - 2 ^ 63.
Definition LONG_MAX : Z := 2 ^ 63 - 1.

(** [strtol(s, NULL, 10)]: optional blanks, optional sign, then the longest
    run of decimal digits, 0 when there is none; a value that does not fit
    a [long] is replaced by the nearest bound. *)
Definition strtol (s : string) : Z :=
  let v := match skip_spaces s with
           | String "-" r => - read_digits r 0
           | String "+" r => read_digits r 0
           | r => read_digits r 0
           end in
  Z.max LONG_MIN (Z.min LONG_MAX v).

(** The conversion of a [long] to [int]: the low 32 bits, read as a
    two's-complement number. *)
Definition int_of_long (v : Z) : Z := (v + 2 ^ 31) mod 2 ^ 32 - 2 ^ 31.

(** [atoi]: the C library computes it as [(int) strtol(s, NULL, 10)]. *)
Definition atoi (s : string) : Z := int_of_long (strtol s).

End CStr.

(** ** The SFP protocol ([sfp_protocol.h]) *)

Module Sfp.

Definition SFP_PAYLOAD_SIZE : nat := 16.
Definition SFP_MAX_NAMES_IN_DIR : nat := 40.
Definition SFP_MAX_PATH_LEN : nat := 512.
Definition SFP_MAX_ALLFILENAMES_LEN : nat := 2048.

Definition SFP_SUCCESS : Z := 0.
Definition SFP_ERR_PERMISSION : Z := -1.
Definition SFP_ERR_NOT_FOUND : Z := -2.
Definition SFP_ERR_OFFSET_OOB : Z := -3.
Definition SFP_ERR_IO : Z := -4.
Definition SFP_ERR_UNKNOWN_MSG : Z := -100.

(** [SfpMsgType]: the enumerators in declaration order. *)
Definition SFP_MSG_RD_REQ : Z := 0.
Definition SFP_MSG_RD_REP : Z := 1.
Definition SFP_MSG_WR_REQ : Z := 2.
Definition SFP_MSG_WR_REP : Z := 3.
Definition SFP_MSG_DC_REQ : Z := 4.
Definition SFP_MSG_DC_REP : Z := 5.
Definition SFP_MSG_DR_REQ : Z := 6.
Definition SFP_MSG_DR_REP : Z := 7.
Definition SFP_MSG_DL_REQ : Z := 8.
Definition SFP_MSG_DL_REP : Z := 9.

Record SfpFstLst := mkFstLst {
  start_index : Z;
  end_index : Z;
  is_dir : Z
}.

Record SfpMessage := mkMsg {
  msg_type : Z;
  owner : Z;
  path_len : Z;
  path : string;
  name_len : Z;
  name : string;
  offset : Z;
  payload : list byte;
  nrnames : Z;
  fstlstpositions : list SfpFstLst;
  allfilenames : list byte
}.

(** [memset(&msg, 0, sizeof msg)]. *)
Definition zero_msg : SfpMessage :=
  {| msg_type := 0; owner := 0; path_len := 0; path := ""; name_len := 0;
     name := ""; offset := 0;
     payload := replicate SFP_PAYLOAD_SIZE "000"%byte;
     nrnames := 0;
     fstlstpositions := replicate SFP_MAX_NAMES_IN_DIR (mkFstLst 0 0 0);
     allfilenames := replicate SFP_MAX_ALLFILENAMES_LEN "000"%byte |}.

Definition set_msg_type (v : Z) (m : SfpMessage) : SfpMessage :=
  {| msg_type := v; owner := owner m; path_len := path_len m; path := path m;
     name_len := name_len m; name := name m; offset := offset m;
     payload := payload m; nrnames := nrnames m;
     fstlstpositions := fstlstpositions m; allfilenames := allfilenames m |}.
Definition set_owner (v : Z) (m : SfpMessage) : SfpMessage :=
  {| msg_type := msg_type m; owner := v; path_len := path_len m; path := path m;
     name_len := name_len m; name := name m; offset := offset m;
     payload := payload m; nrnames := nrnames m;
     fstlstpositions := fstlstpositions m; allfilenames := allfilenames m |}.
Definition set_path_len (v : Z) (m : SfpMessage) : SfpMessage :=
  {| msg_type := msg_type m; owner := owner m; path_len := v; path := path m;
     name_len := name_len m; name := name m; offset := offset m;
     payload := payload m; nrnames := nrnames m;
     fstlstpositions := fstlstpositions m; allfilenames := allfilenames m |}.
Definition set_path (v : string) (m : SfpMessage) : SfpMessage :=
  {| msg_type := msg_type m; owner := owner m; path_len := path_len m; path := v;
     name_len := name_len m; name := name m; offset := offset m;
     payload := payload m; nrnames := nrnames m;
     fstlstpositions := fstlstpositions m; allfilenames := allfilenames m |}.
Definition set_offset (v : Z) (m : SfpMessage) : SfpMessage :=
  {| msg_type := msg_type m; owner := owner m; path_len := path_len m; path := path m;
     name_len := name_len m; name := name m; offset := v;
     payload := payload m; nrnames := nrnames m;
     fstlstpositions := fstlstpositions m; allfilenames := allfilenames m |}.
Definition set_payload (v : list byte) (m : SfpMessage) : SfpMessage :=
  {| msg_type := msg_type m; owner := owner m; path_len := path_len m; path := path m;
     name_len := name_len m; name := name m; offset := offset m;
     payload := v; nrnames := nrnames m;
     fstlstpositions := fstlstpositions m; allfilenames := allfilenames m |}.
Definition set_nrnames (v : Z) (m : SfpMessage) : SfpMessage :=
  {| msg_type := msg_type m; owner := owner m; path_len := path_len m; path := path m;
     name_len := name_len m; name := name m; offset := offset m;
     payload := payload m; nrnames := v;
     fstlstpositions := fstlstpositions m; allfilenames := allfilenames m |}.
Definition set_fstlstpositions (v : list SfpFstLst) (m : SfpMessage) : SfpMessage :=
  {| msg_type := msg_type m; owner := owner m; path_len := path_len m; path := path m;
     name_len := name_len m; name := name m; offset := offset m;
     payload := payload m; nrnames := nrnames m;
     fstlstpositions := v; allfilenames := allfilenames m |}.
Definition set_allfilenames (v : list byte) (m : SfpMessage) : SfpMessage :=
  {| msg_type := msg_type m; owner := owner m; path_len := path_len m; path := path m;
     name_len := name_len m; name := name m; offset := offset m;
     payload := payload m; nrnames := nrnames m;
     fstlstpositions := fstlstpositions m; allfilenames := v |}.

End Sfp.

Import CStr Sfp.

(** ** The host system: files, directories and stdio streams

    The file tree is a finite map from path names to nodes; a path names
    the node stored under exactly that text (no [..], symbolic link or
    repeated-slash resolution).  A node is held once, under the path that
    walks down to it through plain names, so the calls below describe the
    host for such paths only: what a host does with a path that has an
    empty, [.] or [..] component depends on how it resolves it, and the
    properties that speak of an absent or a created node are stated for
    paths in the plain form ([canonical] in the vocabulary).  Calls
    that perform I/O may fail for reasons outside the program (full disk,
    permissions, ...): the world carries a fault plan that each such call
    consults first. *)

Module Libc.

Inductive node :=
| NFile (data : list byte)
| NDir.

(** A fault-plan entry [None] lets the call proceed; [Some k] makes it fail,
    a transfer call moving at most [k] items before failing.  An exhausted
    plan means no further faults. *)
Record World := mkWorld {
  fs : gmap string node;
  faults : list (option nat)
}.

Definition IO (A : Type) : Type := World -> A * World.

#[global] Instance IO_ret : MRet IO := fun A (a : A) (w : World) => (a, w).
#[global] Instance IO_bind : MBind IO :=
  fun A B (k : A -> IO B) (m : IO A) (w : World) => let '(a, w') := m w in k a w'.

Definition next_fault : IO (option nat) := fun w =>
  match faults w with
  | [] => (None, w)
  | f :: fl => (f, mkWorld (fs w) fl)
  end.

Definition get_fs : IO (gmap string node) := fun w => (fs w, w).
Definition put_fs (m : gmap string node) : IO unit := fun w => (tt, mkWorld m (faults w)).

(** Splitting a path at its last slash. *)
Fixpoint split_last (s : string) : option (string * string) :=
  match s with
  | EmptyString => None
  | String c r =>
      match split_last r with
      | Some (d, b) => Some (String c d, b)
      | None => if Ascii.eqb c "/" then Some (EmptyString, r) else None
      end
  end.

Definition parent_of (p : string) : string :=
  match split_last p with
  | Some (EmptyString, _) => "/"
  | Some (d, _) => d
  | None => "."
  end.

Definition base_of (p : string) : string :=
  match split_last p with
  | Some (_, b) => b
  | None => p
  end.

Definition is_dir_at (m : gmap string node) (p : string) : bool :=
  match m !! p with
  | Some NDir => true
  | _ => false
  end.

(** The names stored directly under directory [d]. *)
Definition children (m : gmap string node) (d : string) : list string :=
  omap (fun kv : string * node =>
          if bool_decide (parent_of kv.1 = d /\ kv.1 <> d)
          then Some (base_of kv.1) else None)
       (map_to_list m).

(** *** stdio streams *)

Inductive fmode := RB | RPB | WPB.       (* "rb", "r+b", "w+b" *)
Inductive whence := SEEK_SET | SEEK_END.

Record FILE := mkFILE {
  f_path : string;
  f_pos : nat;
  f_dirty : bool       (* output written since the last positioning *)
}.

(** [fopen] refuses a directory in every mode.  A host that lets a
    directory be opened for reading fails the reads that follow; the
    statements about reading a directory allow for both. *)
Definition fopen (p : string) (mode : fmode) : IO (option FILE) :=
  flt ← next_fault;
  m ← get_fs;
  match flt with
  | Some _ => mret None
  | None =>
      match m !! p, mode with
      | Some (NFile _), (RB | RPB) => mret (Some (mkFILE p 0 false))
      | Some (NFile _), WPB =>
          _ ← put_fs (<[p := NFile []]> m); mret (Some (mkFILE p 0 false))
      | None, WPB =>
          if is_dir_at m (parent_of p)
          then _ ← put_fs (<[p := NFile []]> m); mret (Some (mkFILE p 0 false))
          else mret None
      | _, _ => mret None
      end
  end.

Definition size_at (m : gmap string node) (p : string) : nat :=
  match m !! p with
  | Some (NFile d) => length d
  | _ => O
  end.

(** [fseek] flushes pending output first (the only step that performs
    I/O) and then repositions; a negative target is refused. *)
Definition fseek (f : FILE) (off : Z) (wh : whence) : IO (Z * FILE) :=
  flt ← (if f_dirty f then next_fault else mret None);
  m ← get_fs;
  match flt with
  | Some _ => mret (-1, f)
  | None =>
      let base := match wh with
                  | SEEK_SET => 0
                  | SEEK_END => Z.of_nat (size_at m (f_path f))
                  end in
      if base + off <? 0 then mret (-1, f)
      else mret (0, mkFILE (f_path f) (Z.to_nat (base + off)) false)
  end.

Definition ftell (f : FILE) : Z := Z.of_nat (f_pos f).

(** Writing [buf] at position [pos]: a gap between the end of the file
    and [pos] reads as zero bytes. *)
Definition write_at (data : list byte) (pos : nat) (buf : list byte) : list byte :=
  take pos (data ++ replicate (pos - length data) "000"%byte)
  ++ buf ++ drop (pos + length buf) data.

(** [fwrite(buf, 1, n, f)]: returns the number of items written. *)
Definition fwrite (f : FILE) (buf : list byte) : IO (nat * FILE) :=
  flt ← next_fault;
  m ← get_fs;
  let n := match flt with
           | None => length buf
           | Some k => Nat.min k (length buf - 1)
           end in
  match m !! f_path f with
  | Some (NFile d) =>
      if Nat.eqb n 0 then mret (O, f)
      else
        _ ← put_fs (<[f_path f := NFile (write_at d (f_pos f) (take n buf))]> m);
        mret (n, mkFILE (f_path f) (f_pos f + n) true)
  | _ => mret (O, f)
  end.

(** [fread(buf, 1, n, f)]: returns the items read. *)
Definition fread (f : FILE) (n : nat) : IO (list byte * FILE) :=
  flt ← next_fault;
  m ← get_fs;
  match m !! f_path f with
  | Some (NFile d) =>
      let avail := take n (drop (f_pos f) d) in
      let got := match flt with
                 | None => avail
                 | Some k => take k avail
                 end in
      mret (got, mkFILE (f_path f) (f_pos f + length got) (f_dirty f))
  | _ => mret ([], f)
  end.

Definition fclose (f : FILE) : IO unit := mret tt.

(** *** files and directories *)

(** The calls below return [true] for the C result 0. *)
Definition unlink (p : string) : IO bool :=
  flt ← next_fault;
  m ← get_fs;
  match flt, m !! p with
  | None, Some (NFile _) => _ ← put_fs (delete p m); mret true
  | _, _ => mret false
  end.

Definition mkdir (p : string) : IO bool :=
  flt ← next_fault;
  m ← get_fs;
  match flt, m !! p with
  | None, None =>
      if is_dir_at m (parent_of p)
      then _ ← put_fs (<[p := NDir]> m); mret true
      else mret false
  | _, _ => mret false
  end.

Definition rmdir (p : string) : IO bool :=
  flt ← next_fault;
  m ← get_fs;
  match flt, m !! p with
  | None, Some NDir =>
      match children m p with
      | [] => _ ← put_fs (delete p m); mret true
      | _ => mret false
      end
  | _, _ => mret false
  end.

(** [opendir] followed by repeated [readdir]: the stream of entry names. *)
Definition opendir (p : string) : IO (option (list string)) :=
  flt ← next_fault;
  m ← get_fs;
  match flt, m !! p with
  | None, Some NDir => mret (Some ("." :: ".." :: children m p))
  | _, _ => mret None
  end.

(** [stat]: [Some true] for a directory, [Some false] for a regular file,
    [None] when the call fails. *)
Definition stat (p : string) : IO (option bool) :=
  flt ← next_fault;
  m ← get_fs;
  match flt, m !! p with
  | None, Some NDir => mret (Some true)
  | None, Some (NFile _) => mret (Some false)
  | _, _ => mret None
  end.

End Libc.

Import Libc.


(** ** The SFSS server ([sfss_server.c]) *)

Module Sfss.

(** [check_permission]: may [owner] access [path]?  The C function returns
    1 or 0. *)
Definition check_permission (owner : Z) (path : string) (path_len : nat) : bool :=
  let owner_prefix := snprintf 10 ("/A" +:+ fmt_d owner) in
  let shared_prefix := "/A0"%string in
  let owner_prefix_len := strlen owner_prefix in
  let shared_prefix_len := strlen shared_prefix in
  let is_owner_path := strncmp_eq path owner_prefix owner_prefix_len in
  let is_shared_path := strncmp_eq path shared_prefix shared_prefix_len in
  let is_valid := false in
  let is_valid :=
    if is_owner_path then
      if Nat.eqb path_len owner_prefix_len then true
      else if Ascii.eqb (char_at path owner_prefix_len) "/" then true
      else is_valid
    else is_valid in
  let is_valid :=
    if is_shared_path then
      if Nat.eqb path_len shared_prefix_len then true
      else if Ascii.eqb (char_at path shared_prefix_len) "/" then true
      else is_valid
    else is_valid in
  is_valid.

Section Server.

(** The root directory given on the command line. *)
Variable SFSS_ROOT_DIR : string.

Definition handle_rd_req (req res : SfpMessage) : IO SfpMessage :=
  let res := set_msg_type SFP_MSG_RD_REP res in
  let res := set_owner (owner req) res in
  let res := set_path (path req) res in
  let res := set_path_len (path_len req) res in
  let res := set_offset (offset req) res in
  let res := set_payload (replicate SFP_PAYLOAD_SIZE "000"%byte) res in
  if negb (check_permission (owner req) (path req) (strlen (path req))) then
    mret (set_offset SFP_ERR_PERMISSION res)
  else
    let full_path := snprintf (SFP_MAX_PATH_LEN + 256) (SFSS_ROOT_DIR +:+ path req) in
    file ← fopen full_path RB;
    match file with
    | None => mret (set_offset SFP_ERR_NOT_FOUND res)
    | Some file =>
        '(_, file) ← fseek file 0 SEEK_END;
        let file_size := ftell file in
        if (file_size <=? offset req)
           && negb ((file_size =? 0) && (offset req =? 0)) then
          _ ← fclose file;
          mret (set_offset SFP_ERR_OFFSET_OOB res)
        else
          '(_, file) ← fseek file (offset req) SEEK_SET;
          '(got, file) ← fread file SFP_PAYLOAD_SIZE;
          _ ← fclose file;
          mret (set_payload (got ++ drop (length got) (payload res)) res)
    end.

(** The hole-filling loop: one [fwrite] of a single space per position. *)
Fixpoint fill_hole (n : nat) (file : FILE) : IO (bool * FILE) :=
  match n with
  | O => mret (true, file)
  | S n' =>
      '(k, file) ← fwrite file [" "%byte];
      if Nat.eqb k 1 then fill_hole n' file else mret (false, file)
  end.

Definition handle_wr_req (req res : SfpMessage) : IO SfpMessage :=
  let res := set_msg_type SFP_MSG_WR_REP res in
  let res := set_owner (owner req) res in
  let res := set_path (path req) res in
  let res := set_path_len (path_len req) res in
  let res := set_payload (replicate SFP_PAYLOAD_SIZE "000"%byte) res in
  let res := set_offset (offset req) res in
  if negb (check_permission (owner req) (path req) (strlen (path req))) then
    mret (set_offset SFP_ERR_PERMISSION res)
  else
    let full_path := snprintf (SFP_MAX_PATH_LEN + 256) (SFSS_ROOT_DIR +:+ path req) in
    if (offset req =? 0) && Byte.eqb (nth 0 (payload req) "000"%byte) "000"%byte then
      ok ← unlink full_path;
      if (ok : bool) then mret (set_offset 0 res) else mret (set_offset SFP_ERR_IO res)
    else
      file ← fopen full_path RPB;
      file ← match file with
             | Some f => mret (Some f)
             | None => fopen full_path WPB
             end;
      match file with
      | None => mret (set_offset SFP_ERR_NOT_FOUND res)
      | Some file =>
          '(_, file) ← fseek file 0 SEEK_END;
          let file_size := ftell file in
          '(filled, file) ←
            (if file_size <? offset req then
               '(_, file) ← fseek file file_size SEEK_SET;
               fill_hole (Z.to_nat (offset req - file_size)) file
             else mret (true, file));
          if negb filled then
            _ ← fclose file;
            mret (set_offset SFP_ERR_IO res)
          else
            '(rc, file) ← fseek file (offset req) SEEK_SET;
            if negb (rc =? 0) then
              _ ← fclose file;
              mret (set_offset SFP_ERR_IO res)
            else
              '(bytes_written, file) ← fwrite file (payload req);
              _ ← fclose file;
              if negb (Nat.eqb bytes_written SFP_PAYLOAD_SIZE)
              then mret (set_offset SFP_ERR_IO res)
              else mret res
      end.

Definition handle_dc_req (req res : SfpMessage) : IO SfpMessage :=
  let res := set_msg_type SFP_MSG_DC_REP res in
  let res := set_owner (owner req) res in
  if negb (check_permission (owner req) (path req) (strlen (path req))) then
    let res := set_path (path req) res in
    mret (set_path_len SFP_ERR_PERMISSION res)
  else
    let full_new_path :=
      snprintf (SFP_MAX_PATH_LEN + 256)
               (SFSS_ROOT_DIR +:+ path req +:+ "/" +:+ name req) in
    ok ← mkdir full_new_path;
    if (ok : bool) then
      let res := set_path (snprintf SFP_MAX_PATH_LEN (path req +:+ "/" +:+ name req)) res in
      mret (set_path_len (Z.of_nat (strlen (path res))) res)
    else
      let res := set_path (path req) res in
      mret (set_path_len SFP_ERR_IO res).

Definition handle_dr_req (req res : SfpMessage) : IO SfpMessage :=
  let res := set_msg_type SFP_MSG_DR_REP res in
  let res := set_owner (owner req) res in
  let res := set_path (path req) res in
  if negb (check_permission (owner req) (path req) (strlen (path req))) then
    mret (set_path_len SFP_ERR_PERMISSION res)
  else
    let full_target_path :=
      snprintf (SFP_MAX_PATH_LEN + 256)
               (SFSS_ROOT_DIR +:+ path req +:+ "/" +:+ name req) in
    status ← unlink full_target_path;
    status ← (if (status : bool) then mret true else rmdir full_target_path);
    if (status : bool) then mret (set_path_len (Z.of_nat (strlen (path res))) res)
    else mret (set_path_len SFP_ERR_IO res).

(** [memcpy(&buf[i], src, len)]. *)
Definition memcpy_at (buf : list byte) (i : nat) (src : list byte) : list byte :=
  take i buf ++ src ++ drop (i + length src) buf.

(** [arr[i] = e]: the element at [i] is replaced; a store past the end of
    the array is not absorbed, it shows as an array that has grown. *)
Definition store_at {A : Type} (arr : list A) (i : nat) (e : A) : list A :=
  take i arr ++ e :: drop (S i) arr.

(** The [readdir] loop of [handle_dl_req] over the remaining directory
    stream; [current_name_index] and [current_char_index] are the loop's
    two counters.  Returns the reply and the final [current_name_index]. *)
Fixpoint dl_loop (full_path : string) (stream : list string) (res : SfpMessage)
    (current_name_index current_char_index : nat) : IO (SfpMessage * nat) :=
  match stream with
  | [] => mret (res, current_name_index)
  | d_name :: stream' =>
      if strcmp_eq d_name "." || strcmp_eq d_name ".." then
        dl_loop full_path stream' res current_name_index current_char_index
      else if Nat.leb SFP_MAX_NAMES_IN_DIR current_name_index then
        mret (res, current_name_index)
      else
        let name_len := strlen d_name in
        if Nat.leb SFP_MAX_ALLFILENAMES_LEN (current_char_index + name_len) then
          mret (res, current_name_index)
        else
          let entry_full_path :=
            snprintf (SFP_MAX_PATH_LEN + 512) (full_path +:+ "/" +:+ d_name) in
          st ← stat entry_full_path;
          let is_dir := match st with
                        | Some true => 1
                        | _ => 0
                        end in
          let entry := mkFstLst (Z.of_nat current_char_index)
                                (Z.of_nat current_char_index + Z.of_nat name_len - 1)
                                is_dir in
          let res := set_fstlstpositions
                       (store_at (fstlstpositions res) current_name_index entry) res in
          let res := set_allfilenames
                       (memcpy_at (allfilenames res) current_char_index
                                  (String.list_byte_of_string d_name)) res in
          dl_loop full_path stream' res
                  (S current_name_index) (current_char_index + name_len)
  end.

Definition handle_dl_req (req res : SfpMessage) : IO SfpMessage :=
  let res := set_msg_type SFP_MSG_DL_REP res in
  let res := set_owner (owner req) res in
  let res := set_nrnames 0 res in
  let res := set_allfilenames (replicate SFP_MAX_ALLFILENAMES_LEN "000"%byte) res in
  let res := set_fstlstpositions
               (replicate SFP_MAX_NAMES_IN_DIR (mkFstLst 0 0 0)) res in
  if negb (check_permission (owner req) (path req) (strlen (path req))) then
    mret (set_nrnames SFP_ERR_PERMISSION res)
  else
    let full_path := snprintf (SFP_MAX_PATH_LEN + 256) (SFSS_ROOT_DIR +:+ path req) in
    d ← opendir full_path;
    match d with
    | None => mret (set_nrnames SFP_ERR_NOT_FOUND res)
    | Some stream =>
        '(res, current_name_index) ← dl_loop full_path stream res 0 0;
        mret (set_nrnames (Z.of_nat current_name_index) res)
    end.

(** One iteration of the server loop: the reply sent for a received
    datagram. *)
Definition serve (recv_msg : SfpMessage) : IO SfpMessage :=
  let send_msg := set_owner (owner recv_msg) zero_msg in
  if msg_type recv_msg =? SFP_MSG_RD_REQ then handle_rd_req recv_msg send_msg
  else if msg_type recv_msg =? SFP_MSG_WR_REQ then handle_wr_req recv_msg send_msg
  else if msg_type recv_msg =? SFP_MSG_DC_REQ then handle_dc_req recv_msg send_msg
  else if msg_type recv_msg =? SFP_MSG_DR_REQ then handle_dr_req recv_msg send_msg
  else if msg_type recv_msg =? SFP_MSG_DL_REQ then handle_dl_req recv_msg send_msg
  else
    let send_msg := set_msg_type (msg_type recv_msg + 1) send_msg in
    let send_msg := set_owner (owner recv_msg) send_msg in
    mret (set_path_len SFP_ERR_UNKNOWN_MSG send_msg).

End Server.

(** Building requests the way the kernel fills them in. *)
Definition rd_req (k : Z) (p : string) (o : Z) : SfpMessage :=
  set_offset o (set_path_len (Z.of_nat (strlen p)) (set_path p
    (set_owner k (set_msg_type SFP_MSG_RD_REQ zero_msg)))).

Definition wr_req (k : Z) (p : string) (o : Z) (q : list byte) : SfpMessage :=
  set_payload q (set_offset o (set_path_len (Z.of_nat (strlen p)) (set_path p
    (set_owner k (set_msg_type SFP_MSG_WR_REQ zero_msg))))).

End Sfss.

Import Sfss.

(** ** The kernel ([KernelSim_T2.c])

    The kernel state gathers the file-scope variables of the translation
    unit.  Each of the three circular queues ([rq], [file_req_q],
    [dir_req_q]) is kept with its head, tail and size counters.  Signals sent
    to children and log lines are not part of the state.  An array access
    outside its bounds has no defined behaviour in C: the model returns
    [None] there. *)

Module Kernel.

Definition N_APPS : nat := 5.
Definition MAX_BLOCKED : nat := N_APPS.
Definition MAX_READY : nat := N_APPS.

Inductive ProcState := READY | RUNNING | BLOCKED | TERMINATED.

#[global] Instance ProcState_eq_dec : EqDecision ProcState.
Proof. solve_decision. Defined.

Record PCB := mkPCB {
  pid : Z;
  id : Z;
  state : ProcState;
  pc : Z;
  pending_syscall : SfpMessage
}.

(** An array used as a circular queue, with its [_h], [_t] and [_sz]
    variables. *)
Record ring (A : Type) := mkRing {
  arr : list A;
  q_h : nat;
  q_t : nat;
  q_sz : nat
}.
Arguments mkRing {A} _ _ _ _.
Arguments arr {A} _.
Arguments q_h {A} _.
Arguments q_t {A} _.
Arguments q_sz {A} _.

Record Kernel := mkKernel {
  pcbs : list PCB;
  running_idx : Z;
  file_req_q : ring SfpMessage;
  dir_req_q : ring SfpMessage;
  rq : ring Z;
  shm : list SfpMessage
}.

Definition set_pcbs (v : list PCB) (k : Kernel) : Kernel :=
  mkKernel v (running_idx k) (file_req_q k) (dir_req_q k) (rq k) (shm k).
Definition set_running_idx (v : Z) (k : Kernel) : Kernel :=
  mkKernel (pcbs k) v (file_req_q k) (dir_req_q k) (rq k) (shm k).
Definition set_file_req_q (v : ring SfpMessage) (k : Kernel) : Kernel :=
  mkKernel (pcbs k) (running_idx k) v (dir_req_q k) (rq k) (shm k).
Definition set_dir_req_q (v : ring SfpMessage) (k : Kernel) : Kernel :=
  mkKernel (pcbs k) (running_idx k) (file_req_q k) v (rq k) (shm k).
Definition set_rq (v : ring Z) (k : Kernel) : Kernel :=
  mkKernel (pcbs k) (running_idx k) (file_req_q k) (dir_req_q k) v (shm k).
Definition set_shm (v : list SfpMessage) (k : Kernel) : Kernel :=
  mkKernel (pcbs k) (running_idx k) (file_req_q k) (dir_req_q k) (rq k) v.

(** [a[i]] for a C [int] index. *)
Definition at_idx {A} (l : list A) (i : Z) : option A :=
  if i <? 0 then None else l !! Z.to_nat i.

(** [a[i] = x]. *)
Definition store_idx {A} (l : list A) (i : Z) (x : A) : option (list A) :=
  match at_idx l i with
  | Some _ => Some (<[Z.to_nat i := x]> l)
  | None => None
  end.

(** [q[t] = x; t = (t + 1) % cap; sz++]. *)
Definition ring_put {A} (cap : nat) (x : A) (q : ring A) : option (ring A) :=
  a ← store_idx (arr q) (Z.of_nat (q_t q)) x;
  Some (mkRing a (q_h q) ((q_t q + 1) mod cap) (q_sz q + 1)).

(** [v = q[h]; h = (h + 1) % cap; sz--]. *)
Definition ring_take {A} (cap : nat) (q : ring A) : option (A * ring A) :=
  v ← arr q !! q_h q;
  Some (v, mkRing (arr q) ((q_h q + 1) mod cap) (q_t q) (q_sz q - 1)).

(** The entries between head and tail, head first. *)
Definition ring_contents {A} (q : ring A) : list A :=
  omap (fun j => arr q !! ((q_h q + j) mod length (arr q))%nat) (seq 0 (q_sz q)).

Definition rq_contents (k : Kernel) : list Z := ring_contents (rq k).

Definition pcb_state (k : Kernel) (i : Z) : option ProcState :=
  state <$> at_idx (pcbs k) i.

Definition with_state (s : ProcState) (p : PCB) : PCB :=
  mkPCB (pid p) (id p) s (pc p) (pending_syscall p).
Definition with_pc (v : Z) (p : PCB) : PCB :=
  mkPCB (pid p) (id p) (state p) v (pending_syscall p).
Definition with_pending (m : SfpMessage) (p : PCB) : PCB :=
  mkPCB (pid p) (id p) (state p) (pc p) m.

(** [pcbs[i].field = ...]. *)
Definition update_pcb (i : Z) (f : PCB -> PCB) (k : Kernel) : option Kernel :=
  p ← at_idx (pcbs k) i;
  l ← store_idx (pcbs k) i (f p);
  Some (set_pcbs l k).

(** [pid_to_index]: the first PCB with that pid, or -1. *)
Fixpoint pid_to_index_from (l : list PCB) (i : Z) (p : Z) : Z :=
  match l with
  | [] => -1
  | x :: l' => if pid x =? p then i else pid_to_index_from l' (i + 1) p
  end.

Definition pid_to_index (k : Kernel) (p : Z) : Z :=
  pid_to_index_from (take N_APPS (pcbs k)) 0 p.

Definition rq_push_tail (idx : Z) (k : Kernel) : option Kernel :=
  if Nat.leb MAX_READY (q_sz (rq k)) then Some k
  else
    st ← pcb_state k idx;
    if decide (st = TERMINATED) then Some k
    else
      q ← ring_put MAX_READY idx (rq k);
      Some (set_rq q k).

Definition rq_pop_head (k : Kernel) : option (Z * Kernel) :=
  if Nat.eqb (q_sz (rq k)) 0 then Some (-1, k)
  else
    '(v, q) ← ring_take MAX_READY (rq k);
    Some (v, set_rq q k).

(** The block that appears twice in [schedule_next]: if a process is
    RUNNING, stop it, mark it READY and push it to the tail. *)
Definition stop_running (k : Kernel) : option Kernel :=
  if 0 <=? running_idx k then
    st ← pcb_state k (running_idx k);
    if decide (st = RUNNING) then
      k ← update_pcb (running_idx k) (with_state READY) k;
      rq_push_tail (running_idx k) k
    else Some k
  else Some k.

(** The [while (tries-- > 0)] loop of [schedule_next]; the flag tells
    whether the function returned from inside the loop. *)
Fixpoint schedule_scan (tries : nat) (k : Kernel) : option (bool * Kernel) :=
  match tries with
  | O => Some (false, k)
  | S tries' =>
      '(next, k) ← rq_pop_head k;
      if next <? 0 then Some (false, k)
      else
        st ← pcb_state k next;
        match st with
        | READY =>
            k ← stop_running k;
            k ← update_pcb next (with_state RUNNING) k;
            Some (true, set_running_idx next k)
        | TERMINATED => schedule_scan tries' k
        | _ =>
            k ← rq_push_tail next k;
            schedule_scan tries' k
        end
  end.

(** The reconciliation loop: push every READY PCB, [i] ranging over the
    given indices. *)
Fixpoint requeue_ready (idxs : list nat) (found_ready : bool) (k : Kernel)
  : option (bool * Kernel) :=
  match idxs with
  | [] => Some (found_ready, k)
  | i :: idxs' =>
      st ← pcb_state k (Z.of_nat i);
      if decide (st = READY) then
        k ← rq_push_tail (Z.of_nat i) k;
        requeue_ready idxs' true k
      else requeue_ready idxs' found_ready k
  end.

(** [schedule_next]; [fuel] bounds the depth of its self-call. *)
Fixpoint schedule_next_fuel (fuel : nat) (k : Kernel) : option Kernel :=
  match fuel with
  | O => None
  | S fuel' =>
      '(returned, k) ← schedule_scan (q_sz (rq k)) k;
      if (returned : bool) then Some k
      else
        k ← stop_running k;
        if Nat.eqb (q_sz (rq k)) 0 then
          '(found_ready, k) ← requeue_ready (seq 0 N_APPS) false k;
          if (found_ready : bool) then schedule_next_fuel fuel' k
          else Some (set_running_idx (-1) k)
        else Some (set_running_idx (-1) k)
  end.

Definition schedule_next (k : Kernel) : option Kernel := schedule_next_fuel 2 k.

(** [handle_sfs_reply] for a datagram that was received. *)
Definition handle_sfs_reply (res_msg : SfpMessage) (k : Kernel) : option Kernel :=
  if (msg_type res_msg =? SFP_MSG_RD_REP) || (msg_type res_msg =? SFP_MSG_WR_REP) then
    if Nat.ltb (q_sz (file_req_q k)) MAX_BLOCKED then
      q ← ring_put MAX_BLOCKED res_msg (file_req_q k);
      Some (set_file_req_q q k)
    else Some k
  else if (msg_type res_msg =? SFP_MSG_DC_REP) || (msg_type res_msg =? SFP_MSG_DR_REP)
          || (msg_type res_msg =? SFP_MSG_DL_REP) then
    if Nat.ltb (q_sz (dir_req_q k)) MAX_BLOCKED then
      q ← ring_put MAX_BLOCKED res_msg (dir_req_q k);
      Some (set_dir_req_q q k)
    else Some k
  else Some k.

(** The part common to the IRQ1 and IRQ2 branches of [drain_inter], after
    the reply was popped from its queue. *)
Definition unblock_owner (res_msg : SfpMessage) (k : Kernel) : option Kernel :=
  let owner := owner res_msg in
  let idx := owner - 1 in
  if (0 <=? idx) && (idx <? Z.of_nat N_APPS)
     && bool_decide (pcb_state k idx = Some BLOCKED) then
    sh ← store_idx (shm k) idx res_msg;
    let k := set_shm sh k in
    k ← update_pcb idx (with_state READY) k;
    k ← rq_push_tail idx k;
    if running_idx k =? -1 then schedule_next k else Some k
  else Some k.

(** [drain_inter] for one complete line. *)
Definition drain_inter_line (line : string) (k : Kernel) : option Kernel :=
  if strcmp_eq line "IRQ0" then
    k ← (if 0 <=? running_idx k then
           st ← pcb_state k (running_idx k);
           if decide (st = RUNNING) then
             let cur := running_idx k in
             k ← update_pcb cur (with_state READY) k;
             k ← rq_push_tail cur k;
             Some (set_running_idx (-1) k)
           else Some k
         else Some k);
    schedule_next k
  else if strcmp_eq line "IRQ1" then
    if Nat.ltb 0 (q_sz (file_req_q k)) then
      '(res_msg, q) ← ring_take MAX_BLOCKED (file_req_q k);
      unblock_owner res_msg (set_file_req_q q k)
    else Some k
  else if strcmp_eq line "IRQ2" then
    if Nat.ltb 0 (q_sz (dir_req_q k)) then
      '(res_msg, q) ← ring_take MAX_BLOCKED (dir_req_q k);
      unblock_owner res_msg (set_dir_req_q q k)
    else Some k
  else Some k.

(** [drain_apps] for a line [TICK A<aid> <pid> <pc>]. *)
Definition app_tick (pid pc : Z) (k : Kernel) : option Kernel :=
  let idx := pid_to_index k pid in
  if 0 <=? idx then
    st ← pcb_state k idx;
    if decide (st = TERMINATED) then Some k
    else update_pcb idx (with_pc pc) k
  else Some k.

(** [drain_apps] for a line [DONE A<aid> <pid> <pc>]. *)
Definition app_done (pid pc : Z) (k : Kernel) : option Kernel :=
  let idx := pid_to_index k pid in
  if 0 <=? idx then
    st ← pcb_state k idx;
    if decide (st = TERMINATED) then Some k
    else
      k ← update_pcb idx (with_pc pc) k;
      k ← update_pcb idx (with_state TERMINATED) k;
      if idx =? running_idx k then schedule_next (set_running_idx (-1) k)
      else Some k
  else Some k.

(** [drain_apps] for a syscall line (READ, WRITE, ADD, REM or LISTDIR)
    parsed into the request [req_msg]. *)
Definition app_syscall (pid : Z) (req_msg : SfpMessage) (k : Kernel) : option Kernel :=
  let idx := pid_to_index k pid in
  if negb (idx =? -1) then
    if 0 <=? idx then
      st ← pcb_state k idx;
      if decide (st = TERMINATED) then Some k
      else
        k ← update_pcb idx (with_state BLOCKED) k;
        k ← update_pcb idx (with_pending req_msg) k;
        if idx =? running_idx k then schedule_next (set_running_idx (-1) k)
        else if running_idx k =? -1 then schedule_next k
        else Some k
    else Some k
  else Some k.

(** The body of the [waitpid] loop of [run_kernel] for a reaped pid. *)
Definition reap (reap_pid : Z) (k : Kernel) : option Kernel :=
  let idx := pid_to_index k reap_pid in
  if 0 <=? idx then
    st ← pcb_state k idx;
    if decide (st = TERMINATED) then Some k
    else
      k ← update_pcb idx (with_state TERMINATED) k;
      if idx =? running_idx k then schedule_next (set_running_idx (-1) k)
      else Some k
  else Some k.

(** What the kernel's main loop reacts to. *)
Inductive event :=
| InterLine (line : string)                  (* a line from the interrupt controller *)
| AppTick (pid pc : Z)
| AppDone (pid pc : Z)
| AppSyscall (pid : Z) (req_msg : SfpMessage)
| Datagram (res_msg : SfpMessage)            (* a reply received from SFSS *)
| Reaped (reap_pid : Z).

Definition step (e : event) (k : Kernel) : option Kernel :=
  match e with
  | InterLine line => drain_inter_line line k
  | AppTick p c => app_tick p c k
  | AppDone p c => app_done p c k
  | AppSyscall p m => app_syscall p m k
  | Datagram m => handle_sfs_reply m k
  | Reaped p => reap p k
  end.

Fixpoint run (es : list event) (k : Kernel) : option Kernel :=
  match es with
  | [] => Some k
  | e :: es' => k ← step e k; run es' k
  end.

(** The state [run_kernel] builds before its main loop: [fork_pid i] is the
    pid of the child forked for application [i + 1]. *)
Definition boot (fork_pid : nat -> Z) : option Kernel :=
  let mk := fun i => mkPCB (fork_pid i) (Z.of_nat i + 1) READY 0 zero_msg in
  let k := mkKernel (map mk (seq 0 N_APPS)) (-1)
                    (mkRing (replicate MAX_BLOCKED zero_msg) 0 0 0)
                    (mkRing (replicate MAX_BLOCKED zero_msg) 0 0 0)
                    (mkRing (replicate MAX_READY 0) 0 0 0)
                    (replicate N_APPS zero_msg) in
  k ← foldl (fun ok i => k ← ok; rq_push_tail (Z.of_nat i) k) (Some k) (seq 0 N_APPS);
  schedule_next (set_running_idx (-1) k).

Inductive reachable (fork_pid : nat -> Z) : Kernel -> Prop :=
| reach_boot k : boot fork_pid = Some k -> reachable fork_pid k
| reach_step k e k' :
    reachable fork_pid k -> step e k = Some k' -> reachable fork_pid k'.

(** A syscall line is _in turn_ when the PCB it comes from is not waiting
    in the ready queue. *)
Definition in_turn (k : Kernel) (e : event) : Prop :=
  match e with
  | AppSyscall p _ => pid_to_index k p ∉ rq_contents k
  | _ => True
  end.

Inductive reachable_in_turn (fork_pid : nat -> Z) : Kernel -> Prop :=
| reach_it_boot k : boot fork_pid = Some k -> reachable_in_turn fork_pid k
| reach_it_step k e k' :
    reachable_in_turn fork_pid k -> in_turn k e -> step e k = Some k' ->
    reachable_in_turn fork_pid k'.

End Kernel.

Import Kernel.

(** ** Process start-up and the command line ([main], [run_kernel])

    What a process running the binary does is summarised by an [outcome].
    The results of the system calls made during start-up are read from an
    environment. *)

Module Cli.

(** [EXIT_FAILURE] of [<stdlib.h>] on the POSIX hosts the program is built
    for. *)
Definition EXIT_FAILURE : Z := 1.

Inductive outcome :=
| Returns                       (* the function returned to its caller *)
| Exits (code : Z)              (* [exit] or [_exit] was called *)
| Execs (argv : list string)    (* the image was replaced by [execlp] *)
| Forever.                      (* runs until a signal ends it *)

Inductive fork_result := ForkFailed | InChild | InParent.

Record AppEnv := mkAppEnv {
  k_shmget_ok : bool;           (* kernel side: create the reply slot *)
  k_shmat_ok : bool;
  k_fork : fork_result;
  k_exec_ok : bool;
  a_shmget_ok : bool;           (* application side: attach the reply slot *)
  a_shmat_ok : bool
}.

Record Env := mkEnv {
  socket_ok : bool;
  inet_pton_ok : bool;
  bind_ok : bool;
  pipe_inter_ok : bool;
  pipe_app_ok : bool;
  fork_inter : fork_result;
  exec_inter_ok : bool;
  app_env : Z -> AppEnv;        (* indexed by the logical id 1..N_APPS *)
  all_apps_terminate : bool;    (* the kernel's main loop reaches its [break] *)
  app_resumed : bool            (* the application is continued until its loop ends *)
}.

(** [die]: [perror(msg); exit(EXIT_FAILURE)]. *)
Definition die (msg : string) : outcome := Exits EXIT_FAILURE.

(** The loop of [run_kernel] that creates the reply slots and forks the
    applications, [i] ranging over the given indices. *)
Fixpoint fork_apps (e : Env) (idxs : list nat) : outcome :=
  match idxs with
  | [] => Returns
  | i :: idxs' =>
      let a := app_env e (Z.of_nat i + 1) in
      if negb (k_shmget_ok a) then die "shmget"
      else if negb (k_shmat_ok a) then die "shmat"
      else
        match k_fork a with
        | ForkFailed => die "fork app"
        | InChild =>
            if k_exec_ok a
            then Execs ["KernelSim_T2"; "app"; fmt_d (Z.of_nat i + 1)]
            else die "exec app"
        | InParent => fork_apps e idxs'
        end
  end.

Definition run_kernel (e : Env) : outcome :=
  if negb (socket_ok e) then die "socket udp"
  else if negb (inet_pton_ok e) then die "inet_pton SFSS_HOST"
  else
    (* a failed [bind] is only reported *)
    if negb (pipe_inter_ok e) || negb (pipe_app_ok e) then die "pipe"
    else
      match fork_inter e with
      | ForkFailed => die "fork inter"
      | InChild =>
          if exec_inter_ok e then Execs ["KernelSim_T2"; "inter"]
          else die "exec inter"
      | InParent =>
          match fork_apps e (seq 0 N_APPS) with
          | Returns => if all_apps_terminate e then Returns else Forever
          | o => o
          end
      end.

Definition run_interrupt_controller : outcome := Forever.

Definition run_app (e : Env) (id : Z) : outcome :=
  let a := app_env e id in
  if negb (app_resumed e) then Forever
  else if negb (a_shmget_ok a) then Exits 1
  else if negb (a_shmat_ok a) then Exits 1
  else Exits 0.

(** [f(); return 0;] in [main]. *)
Definition then_return_0 (o : outcome) : outcome :=
  match o with
  | Returns => Exits 0
  | _ => o
  end.

Definition argv_at (argv : list string) (i : nat) : string :=
  nth i argv EmptyString.

(** [main]: the outcome of the process started with the argument vector
    [argv] ([argc] is its length). *)
Definition main (e : Env) (argv : list string) : outcome :=
  let argc := length argv in
  if Nat.eqb argc 1 then then_return_0 (run_kernel e)
  else if Nat.leb 2 argc && strcmp_eq (argv_at argv 1) "inter" then
    then_return_0 run_interrupt_controller
  else if Nat.leb 3 argc && strcmp_eq (argv_at argv 1) "app" then
    let id := atoi (argv_at argv 2) in
    let id := if (id <? 1) || (Z.of_nat N_APPS <? id) then 1 else id in
    then_return_0 (run_app e id)
  else if Nat.leb 2 argc && strcmp_eq (argv_at argv 1) "app" && Nat.eqb argc 3 then
    let id := atoi (argv_at argv 2) in
    then_return_0 (run_app e id)
  else Exits 1.

(** A start-up is fatal when one of the calls guarded by [die] fails in
    the kernel process. *)
Definition app_start_failed (a : AppEnv) : bool :=
  negb (k_shmget_ok a) || negb (k_shmat_ok a)
  || match k_fork a with
     | ForkFailed => true
     | InChild => negb (k_exec_ok a)
     | InParent => false
     end.

Fixpoint first_app_event (e : Env) (idxs : list nat) : option bool :=
  match idxs with
  | [] => None
  | i :: idxs' =>
      let a := app_env e (Z.of_nat i + 1) in
      if app_start_failed a then Some true
      else match k_fork a with
           | InChild => Some false
           | _ => first_app_event e idxs'
           end
  end.

Definition fatal_startup (e : Env) : bool :=
  negb (socket_ok e) || negb (inet_pton_ok e)
  || negb (pipe_inter_ok e) || negb (pipe_app_ok e)
  || match fork_inter e with
     | ForkFailed => true
     | InChild => negb (exec_inter_ok e)
     | InParent =>
         match first_app_event e (seq 0 N_APPS) with
         | Some true => true
         | _ => false
         end
     end.

End Cli.

Import Cli.

(** ** Reading lines from the pipes ([acc_append] .. [drain_inter])

    The accumulators are [char] arrays with a length counter.  An array is
    a list of its declared size; an index outside it gives [None], as for the
    kernel's arrays. *)

Module Acc.

Definition NL : ascii := "010"%char.

(** The [while] loop of [acc_append]; it runs at most [n] times. *)
Fixpoint acc_append_loop (fuel : nat) (acc : list ascii) (acc_cap acc_len : Z)
    (src : list ascii) (n copied : Z) : option (list ascii * Z * Z) :=
  if (copied <? n) && (acc_len <? acc_cap) then
    match fuel with
    | O => None
    | S fuel' =>
        c ← at_idx src copied;
        acc ← store_idx acc acc_len c;
        acc_append_loop fuel' acc acc_cap (acc_len + 1) src n (copied + 1)
    end
  else Some (acc, acc_len, copied).

(** [acc_append]: the array, [*acc_len] and the value returned. *)
Definition acc_append (acc : list ascii) (acc_cap acc_len : Z) (src : list ascii) (n : Z)
  : option (list ascii * Z * Z) :=
  acc_append_loop (Z.to_nat n) acc acc_cap acc_len src n 0.

Fixpoint acc_find_nl_loop (fuel : nat) (acc : list ascii) (len i : Z) : option Z :=
  if i <? len then
    match fuel with
    | O => None
    | S fuel' =>
        c ← at_idx acc i;
        if Ascii.eqb c NL then Some i else acc_find_nl_loop fuel' acc len (i + 1)
    end
  else Some (-1).

Definition acc_find_nl (acc : list ascii) (len : Z) : option Z :=
  acc_find_nl_loop (Z.to_nat len) acc len 0.

(** [for (i = 0; i < k; ++i) dest[i] = acc[i]]. *)
Fixpoint copy_line_loop (fuel : nat) (acc dest : list ascii) (k i : Z)
  : option (list ascii) :=
  if i <? k then
    match fuel with
    | O => None
    | S fuel' =>
        c ← at_idx acc i;
        dest ← store_idx dest i c;
        copy_line_loop fuel' acc dest k (i + 1)
    end
  else Some dest.

Definition acc_copy_line (acc : list ascii) (linelen : Z) (dest : list ascii) (dest_cap : Z)
  : option (list ascii) :=
  let k := linelen in
  let k := if dest_cap <=? k then dest_cap - 1 else k in
  dest ← copy_line_loop (Z.to_nat k) acc dest k 0;
  store_idx dest k Ascii.zero.

(** [for (i = 0; i < new_len; ++i) acc[i] = acc[linelen + 1 + i]]. *)
Fixpoint consume_loop (fuel : nat) (acc : list ascii) (linelen new_len i : Z)
  : option (list ascii) :=
  if i <? new_len then
    match fuel with
    | O => None
    | S fuel' =>
        c ← at_idx acc (linelen + 1 + i);
        acc ← store_idx acc i c;
        consume_loop fuel' acc linelen new_len (i + 1)
    end
  else Some acc.

(** [acc_consume_line]: the array and the new [*acc_len]. *)
Definition acc_consume_line (acc : list ascii) (acc_len linelen : Z)
  : option (list ascii * Z) :=
  let new_len := acc_len - (linelen + 1) in
  let new_len := if new_len <? 0 then 0 else new_len in
  acc ← consume_loop (Z.to_nat new_len) acc linelen new_len 0;
  Some (acc, new_len).

(** The C string held in an array: the characters before the first NUL. *)
Fixpoint cstr (l : list ascii) : string :=
  match l with
  | [] => EmptyString
  | c :: l' => if Ascii.eqb c Ascii.zero then EmptyString else String c (cstr l')
  end.

Definition INTER_ACC_CAP : Z := 1024.
Definition INTER_LINE_CAP : Z := 128.

(** The [for (;;)] loop of [drain_inter]: every pass removes a line from
    the accumulator. *)
Fixpoint drain_inter_lines (fuel : nat) (acc : list ascii) (acc_len : Z) (k : Kernel)
  : option (list ascii * Z * Kernel) :=
  pos ← acc_find_nl acc acc_len;
  if pos <? 0 then Some (acc, acc_len, k)
  else
    match fuel with
    | O => None
    | S fuel' =>
        (* [char line[128]]: its initial contents are never read *)
        line ← acc_copy_line acc pos (replicate (Z.to_nat INTER_LINE_CAP) Ascii.zero)
                             INTER_LINE_CAP;
        '(acc, acc_len) ← acc_consume_line acc acc_len pos;
        k ← drain_inter_line (cstr line) k;
        drain_inter_lines fuel' acc acc_len k
    end.

(** [drain_inter] when [read] returned the [n] bytes of [buf]; [acc] and
    [acc_len] are the function's two [static] variables. *)
Definition drain_inter (buf : list ascii) (n : Z) (acc : list ascii) (acc_len : Z)
    (k : Kernel) : option (list ascii * Z * Kernel) :=
  if n <=? 0 then Some (acc, acc_len, k)
  else
    '(acc, acc_len, _) ← acc_append acc INTER_ACC_CAP acc_len buf n;
    let acc_len := if INTER_ACC_CAP <=? acc_len then 0 else acc_len in
    drain_inter_lines (Z.to_nat acc_len) acc acc_len k.

End Acc.

Import Acc.

(** * Vocabulary of the statements

    Definitions used to state the properties below; the ones that follow
    the specification's wording say so. *)



(** The fault entry the next I/O call will see, and the world once it has
    been consumed. *)
Definition pending (w : World) : option nat := default None (head (faults w)).
Definition advance (w : World) : World := mkWorld (fs w) (tail (faults w)).

(** No fault among the next [n] entries of the plan. *)
Definition calm_prefix (n : nat) (fl : list (option nat)) : bool :=
  forallb (fun x => bool_decide (x = None)) (take n fl).

Definition space_byte : byte := " "%byte.

(** The two [fopen] calls of [handle_wr_req]: open for update, create when
    that fails. *)
Definition open_rw (p : string) : IO (option FILE) :=
  file ← fopen p RPB;
  match file with
  | Some f => mret (Some f)
  | None => fopen p WPB
  end.

(** The host path a request path is mapped to. *)
Definition full_path_of (root p : string) : string :=
  snprintf (SFP_MAX_PATH_LEN + 256) (root +:+ p).

(** The components of a path: the texts between its slashes. *)
Fixpoint split_slash (s : string) : list string :=
  match s with
  | EmptyString => [EmptyString]
  | String c r =>
      if Ascii.eqb c "/" then EmptyString :: split_slash r
      else match split_slash r with
           | h :: t => String c h :: t
           | [] => [String c EmptyString]
           end
  end.

(** A component that names an entry: not empty, not ["."], not [".."]. *)
Definition plain_name (c : string) : bool :=
  negb (String.eqb c "" || String.eqb c "." || String.eqb c "..").

(** The host path [fp] is in plain form: a sequence of plain names
    separated by single slashes, with or without a leading slash.  This is
    the text under which the tree holds a node, and the one form of a path
    on which every host agrees with the model. *)
Definition canonical (fp : string) : bool :=
  forallb plain_name
          (match split_slash fp with
           | EmptyString :: ((_ :: _) as rest) => rest
           | l => l
           end).

(** The request is the file-remove form of WR_REQ. *)
Definition is_remove (req : SfpMessage) : bool :=
  (offset req =? 0) && Byte.eqb (nth 0 (payload req) "000"%byte) "000"%byte.

Definition file_data (m : gmap string node) (p : string) : list byte :=
  match m !! p with
  | Some (NFile d) => d
  | _ => []
  end.

(** The number of I/O calls a write makes once the file is open: one
    [fwrite] per hole byte, the flushing [fseek], the payload [fwrite]. *)
Definition wr_calls (hole : nat) : nat :=
  match hole with
  | O => 1
  | S _ => hole + 2
  end.

(** The replies as initialised at the top of the two file handlers. *)
Definition wr_reply (req res : SfpMessage) : SfpMessage :=
  set_offset (offset req)
    (set_payload (replicate SFP_PAYLOAD_SIZE "000"%byte)
       (set_path_len (path_len req)
          (set_path (path req)
             (set_owner (owner req) (set_msg_type SFP_MSG_WR_REP res))))).

Definition rd_reply (req res : SfpMessage) : SfpMessage :=
  set_payload (replicate SFP_PAYLOAD_SIZE "000"%byte)
    (set_offset (offset req)
       (set_path_len (path_len req)
          (set_path (path req)
             (set_owner (owner req) (set_msg_type SFP_MSG_RD_REP res))))).

(** The bytes a read at offset [o] can return from a file holding [d]. *)
Definition rd_window (d : list byte) (o : Z) : list byte :=
  if o <? 0 then [] else take SFP_PAYLOAD_SIZE (drop (Z.to_nat o) d).

Definition zero_padded (got : list byte) : list byte :=
  got ++ replicate (SFP_PAYLOAD_SIZE - length got) "000"%byte.

(** A DL_REQ as the kernel fills it in. *)
Definition dl_req (k : Z) (p : string) : SfpMessage :=
  set_path_len (Z.of_nat (strlen p)) (set_path p
    (set_owner k (set_msg_type SFP_MSG_DL_REQ zero_msg))).


Definition name_bytes (n : string) : list byte := String.list_byte_of_string n.

(** Total number of characters of a list of names. *)
Definition chars (names : list string) : nat :=
  length (concat (map name_bytes names)).






(** A circular queue is well formed for the capacity [cap]. *)
Definition ring_wf {A : Type} (cap : nat) (q : ring A) : Prop :=
  length (arr q) = cap /\ (q_h q < cap)%nat /\ (q_sz q <= cap)%nat /\
  q_t q = ((q_h q + q_sz q) mod cap)%nat.

Definition state_of (k : Kernel) (i : nat) : option ProcState :=
  state <$> pcbs k !! i.

Record kernel_ok (k : Kernel) : Prop := mk_ok {
  ok_pcbs : length (pcbs k) = N_APPS;
  ok_shm : length (shm k) = N_APPS;
  ok_rq : ring_wf MAX_READY (rq k);
  ok_fq : ring_wf MAX_BLOCKED (file_req_q k);
  ok_dq : ring_wf MAX_BLOCKED (dir_req_q k);
  ok_range : Forall (fun x => 0 <= x < Z.of_nat N_APPS) (rq_contents k);
  ok_running : -1 <= running_idx k < Z.of_nat N_APPS
}.

Definition running_unique (k : Kernel) : Prop :=
  forall i, state_of k i = Some RUNNING -> running_idx k = Z.of_nat i.

Definition queue_strict (k : Kernel) : Prop :=
  NoDup (rq_contents k) /\
  forall i, state_of k i = Some RUNNING \/ state_of k i = Some BLOCKED ->
            Z.of_nat i ∉ rq_contents k.

Definition Inv (strict : bool) (k : Kernel) : Prop :=
  kernel_ok k /\ running_unique k /\ (strict = true -> queue_strict k).

(** The argument vectors the usage text does not list: anything but no
    argument, [inter], or [app] followed by an id. *)
Definition bad_args (argv : list string) : bool :=
  match argv with
  | [] => true
  | [_] => false
  | _ :: mode :: rest =>
      negb (String.eqb mode "inter")
      && negb (String.eqb mode "app" && negb (bool_decide (rest = [])))
  end.

(** The id an application runs with for the command-line value [id]. *)
Definition clamp_id (id : Z) : Z :=
  if (id <? 1) || (Z.of_nat N_APPS <? id) then 1 else id.

(** Sample environments: every call succeeds in the kernel process; the
    same with a failing [socket]. *)
Definition app_env_ok : AppEnv := mkAppEnv true true InParent true true true.

Definition env_ok : Env :=
  mkEnv true true true true true InParent true (fun _ => app_env_ok) true true.

Definition env_no_socket : Env :=
  mkEnv false true true true true InParent true (fun _ => app_env_ok) true true.

(** Sample data for the examples: the tree the project's Makefile sets up
    and a payload as the kernel pads it. *)
Definition root0 : string := "sfss_root".

Definition fs0 : gmap string node :=
  list_to_map [("sfss_root", NDir); ("sfss_root/A0", NDir); ("sfss_root/A1", NDir);
               ("sfss_root/A2", NDir); ("sfss_root/A3", NDir); ("sfss_root/A4", NDir);
               ("sfss_root/A5", NDir)]%string.

Definition w0 : World := mkWorld fs0 [].

Definition hello : list byte :=
  String.list_byte_of_string "Hello" ++ replicate 11 "000"%byte.

(** Sample pids for the examples, and a run in which A1's syscall line is
    read after the IRQ0 that preempted it: the reply is the one SFSS sends
    for that request. *)
Definition pids0 (i : nat) : Z := 100 + Z.of_nat i.

Definition late_syscall_trace : list event :=
  [InterLine "IRQ0";
   AppSyscall 100 (rd_req 1 "/A1/file.txt" 0);
   Datagram (serve root0 (rd_req 1 "/A1/file.txt" 0) w0).1;
   InterLine "IRQ1"].

(** The host path of the entry [n] of the directory [p], as the two
    directory handlers build it. *)
Definition entry_path (root p n : string) : string :=
  snprintf (SFP_MAX_PATH_LEN + 256) (root +:+ p +:+ "/" +:+ n).

(** Two trees agree everywhere but at [p]. *)
Definition same_except (p : string) (m m' : gmap string node) : Prop :=
  forall p', p' <> p -> m' !! p' = m !! p'.

(** Running [m] relates the tree before and after by [R] and returns a
    value satisfying [P], whatever the fault plan. *)
Definition io_spec {A : Type} (R : relation (gmap string node)) (P : A -> Prop)
    (m : IO A) : Prop :=
  forall w, R (fs w) (fs (m w).2) /\ P (m w).1.


(** The three arrays of a message have their declared sizes. *)
Definition reply_shape (rep : SfpMessage) : Prop :=
  length (payload rep) = SFP_PAYLOAD_SIZE /\
  length (fstlstpositions rep) = SFP_MAX_NAMES_IN_DIR /\
  length (allfilenames rep) = SFP_MAX_ALLFILENAMES_LEN.

(** Header and shape of the reply to [req] whose type is [ty]. *)
Definition reply_to (req : SfpMessage) (ty : Z) (rep : SfpMessage) : Prop :=
  msg_type rep = ty /\ owner rep = owner req /\ reply_shape rep.

(** Calling [rq_pop_head] [n] times: the values returned, in order. *)
Fixpoint pop_n (n : nat) (k : Kernel) : option (list Z * Kernel) :=
  match n with
  | O => Some ([], k)
  | S n' =>
      '(v, k) ← rq_pop_head k;
      '(l, k) ← pop_n n' k;
      Some (v :: l, k)
  end.

(** [running_idx] is -1 or designates a PCB in state RUNNING. *)
Definition running_valid (k : Kernel) : Prop :=
  running_idx k = -1 \/
  (0 <= running_idx k /\ pcb_state k (running_idx k) = Some RUNNING).

(** Every PCB of [k] is still there in [k'], related by [R]. *)
Definition pcbs_rel (R : relation PCB) (k k' : Kernel) : Prop :=
  length (pcbs k') = length (pcbs k) /\
  forall i p, pcbs k !! i = Some p -> exists p', pcbs k' !! i = Some p' /\ R p p'.

(** What the scheduler may do to a PCB: nothing but move it between READY
    and RUNNING. *)
Definition sched_move (p p' : PCB) : Prop :=
  pid p' = pid p /\ id p' = id p /\ pc p' = pc p /\
  pending_syscall p' = pending_syscall p /\
  (state p' = state p \/
   ((state p = READY \/ state p = RUNNING) /\ (state p' = READY \/ state p' = RUNNING))).

(** What an event may do to a PCB: its identity is kept and TERMINATED is
    final. *)
Definition pcb_step (p p' : PCB) : Prop :=
  pid p' = pid p /\ id p' = id p /\
  (state p = TERMINATED -> state p' = TERMINATED /\ pc p' = pc p).


(** The CPU is idle only when no PCB is READY. *)
Definition work_conserving (k : Kernel) : Prop :=
  running_idx k = -1 -> forall i, state_of k i <> Some READY.

(** A line as it travels through a pipe: its characters, none of them a
    newline or a NUL. *)
Definition line_chars (s : string) : list ascii := String.list_ascii_of_string s.

Definition plain (s : string) : Prop :=
  (Acc.NL ∉ line_chars s) /\ (Ascii.zero ∉ line_chars s).

(** The bytes of a sequence of lines, each followed by a newline. *)
Definition wire (ls : list string) : list ascii :=
  concat (map (fun s => line_chars s ++ [Acc.NL]) ls).

(** A DC_REQ or DR_REQ (the type [ty]) as the kernel fills it in. *)
Definition dir_req (ty k : Z) (p n : string) : SfpMessage :=
  {| msg_type := ty; owner := k; path_len := Z.of_nat (strlen p); path := p;
     name_len := Z.of_nat (strlen n); name := n; offset := 0;
     payload := payload zero_msg; nrnames := 0;
     fstlstpositions := fstlstpositions zero_msg;
     allfilenames := allfilenames zero_msg |}.

(** More sample data: the tree once A1 has written [hello] to its
    [file.txt], a reply to A1, an environment in which the first [fork]
    returns in the child, and the bytes of two interrupt lines of which the
    second is still incomplete. *)
Definition w_file : World :=
  mkWorld (<["sfss_root/A1/file.txt"%string := NFile hello]> fs0) [].

Definition rd_rep0 : SfpMessage := set_owner 1 (set_msg_type SFP_MSG_RD_REP zero_msg).

Definition env_inter_child : Env :=
  mkEnv true true true true true InChild true (fun _ => app_env_ok) true true.

Definition irq_bytes : list ascii := line_chars "IRQ0" ++ [Acc.NL] ++ line_chars "IR".

Definition all_reaped : list event := map Reaped [100; 101; 102; 103; 104].

(** * Properties *)

Ltac io := unfold mbind, mret, IO_bind, IO_ret, get_fs, put_fs; simpl.

(** ** C strings *)

Section CStrFacts.





Lemma substring_all (n : nat) (s : string) :
  (String.length s <= n)%nat -> String.substring 0 n s = s.
Proof.
  revert n. induction s as [|c s IH]; intros [|n] H; simpl in *; try done; try lia.
  f_equal. apply IH. lia.
Qed.



End CStrFacts.

(** ** The permission check *)

Section Permission.





End Permission.

(** ** Running the host calls *)

Section LibcFacts.

Lemma next_fault_eq (w : World) : next_fault w = (pending w, advance w).
Proof. destruct w as [m [|f fl]]; reflexivity. Qed.

Lemma pending_calm (w : World) : faults w = [] -> pending w = None.
Proof. unfold pending. by intros ->. Qed.

Lemma advance_calm (w : World) : faults w = [] -> advance w = w.
Proof. destruct w as [m fl]. unfold advance. simpl. by intros ->. Qed.

Lemma fs_advance (w : World) : fs (advance w) = fs w.
Proof. reflexivity. Qed.

Lemma write_at_end (d buf : list byte) :
  write_at d (length d) buf = d ++ buf.
Proof.
  unfold write_at. rewrite Nat.sub_diag. simpl. rewrite app_nil_r.
  rewrite firstn_all. rewrite drop_ge by lia. by rewrite app_nil_r.
Qed.

Lemma write_at_inside (d buf : list byte) (pos : nat) :
  (pos <= length d)%nat ->
  write_at d pos buf = take pos d ++ buf ++ drop (pos + length buf) d.
Proof.
  intros H. unfold write_at.
  replace (pos - length d)%nat with O by lia. simpl. by rewrite app_nil_r.
Qed.

Lemma write_at_length (d buf : list byte) (pos : nat) :
  (pos <= length d)%nat ->
  length (write_at d pos buf) = Nat.max (length d) (pos + length buf).
Proof.
  intros H. rewrite write_at_inside by done.
  rewrite !length_app, length_take, length_drop. lia.
Qed.

Lemma write_at_read_back (d buf : list byte) (pos : nat) :
  (pos <= length d)%nat ->
  take (length buf) (drop pos (write_at d pos buf)) = buf.
Proof.
  intros H. rewrite write_at_inside by done.
  rewrite drop_app_length' by (rewrite length_take; lia).
  by rewrite take_app_length.
Qed.

Lemma fwrite_run (f : FILE) (buf : list byte) (w : World) (d : list byte) :
  fs w !! f_path f = Some (NFile d) ->
  pending w = None ->
  buf <> [] ->
  fwrite f buf w =
    ((length buf, mkFILE (f_path f) (f_pos f + length buf) true),
     mkWorld (<[f_path f := NFile (write_at d (f_pos f) buf)]> (fs w)) (tail (faults w))).
Proof.
  intros Hf Hp Hb. unfold fwrite. io. rewrite next_fault_eq, Hp. simpl.
  rewrite Hf. destruct buf as [|b buf]; [done|]. simpl.
  rewrite firstn_all. reflexivity.
Qed.

Lemma fwrite_short (f : FILE) (buf : list byte) (w : World) (k : nat) :
  pending w = Some k ->
  ((fwrite f buf w).1.1 < length buf \/ buf = [])%nat.
Proof.
  intros Hp. unfold fwrite. io. rewrite next_fault_eq, Hp. simpl.
  destruct buf as [|b buf]; [by right|left].
  destruct (fs w !! f_path f) as [[d|]|]; simpl; try lia.
  destruct (Nat.eqb_spec (k `min` (length buf - 0)) 0); simpl; lia.
Qed.

Lemma calm_prefix_S (n : nat) (w : World) :
  calm_prefix (S n) (faults w) = bool_decide (pending w = None) && calm_prefix n (faults (advance w)).
Proof. destruct w as [m [|x fl]]; unfold calm_prefix, pending; simpl; [by rewrite take_nil|done]. Qed.

Lemma fill_hole_ok (n : nat) :
  forall (f : FILE) (w : World) (d : list byte),
    fs w !! f_path f = Some (NFile d) ->
    f_pos f = length d ->
    calm_prefix n (faults w) = true ->
    fill_hole n f w =
      ((true, mkFILE (f_path f) (length d + n) (if n is O then f_dirty f else true)),
       mkWorld (<[f_path f := NFile (d ++ replicate n space_byte)]> (fs w))
               (drop n (faults w))).
Proof.
  induction n as [|n IH]; intros f w d Hf Hpos Hcalm.
  - simpl. rewrite app_nil_r, insert_id by done. unfold mret, IO_ret.
    destruct f, w; simpl in *; subst. by rewrite Nat.add_0_r.
  - rewrite calm_prefix_S in Hcalm. apply andb_true_iff in Hcalm as [Hp Hrest].
    apply bool_decide_eq_true in Hp.
    cbn [fill_hole]. unfold mbind, IO_bind.
    rewrite (fwrite_run f _ w d Hf Hp) by done. cbn [length Nat.eqb].
    rewrite Hpos, write_at_end.
    rewrite (IH _ _ (d ++ [space_byte])); simpl.
    + rewrite insert_insert_eq, length_app. simpl.
      rewrite <- app_assoc. simpl.
      f_equal; [f_equal; f_equal; [lia | by destruct n] | f_equal].
      destruct (faults w); simpl; [by rewrite drop_nil | done].
    + apply lookup_insert_eq.
    + rewrite length_app. simpl. lia.
    + exact Hrest.
Qed.

Lemma fill_hole_fail (n : nat) :
  forall (f : FILE) (w : World),
    calm_prefix n (faults w) = false -> (fill_hole n f w).1.1 = false.
Proof.
  induction n as [|n IH]; intros f w Hcalm; [done|].
  rewrite calm_prefix_S in Hcalm.
  cbn [fill_hole]. unfold mbind, IO_bind, fwrite. io. rewrite next_fault_eq.
  destruct (pending w) as [k|] eqn:Hp; simpl in *.
  - destruct (fs w !! f_path f) as [[d|]|]; simpl; try done.
    by rewrite Nat.min_0_r.
  - destruct (fs w !! f_path f) as [[d|]|] eqn:Hf; simpl; try done.
    apply IH. simpl. exact Hcalm.
Qed.

Lemma calm_prefix_add (a b : nat) (fl : list (option nat)) :
  calm_prefix (a + b) fl = calm_prefix a fl && calm_prefix b (drop a fl).
Proof.
  unfold calm_prefix. revert fl. induction a as [|a IH]; intros fl; simpl.
  - by rewrite drop_0.
  - destruct fl as [|x fl]; simpl.
    + by rewrite take_nil.
    + rewrite IH. by rewrite andb_assoc.
Qed.

Lemma calm_prefix_1 (w : World) :
  calm_prefix 1 (faults w) = bool_decide (pending w = None).
Proof. rewrite calm_prefix_S. unfold calm_prefix. simpl. by rewrite andb_true_r. Qed.

Lemma fseek_clean (f : FILE) (off : Z) (wh : whence) (w : World) :
  f_dirty f = false ->
  fseek f off wh w =
    (let base := match wh with
                 | SEEK_SET => 0
                 | SEEK_END => Z.of_nat (size_at (fs w) (f_path f))
                 end in
     if base + off <? 0 then (-1, f)
     else (0, mkFILE (f_path f) (Z.to_nat (base + off)) false), w).
Proof.
  intros Hd. unfold fseek. rewrite Hd. io.
  destruct wh; simpl; by case_match.
Qed.

Lemma fseek_dirty (f : FILE) (off : Z) (w : World) :
  f_dirty f = true ->
  fseek f off SEEK_SET w =
    (match pending w with
     | Some _ => (-1, f)
     | None => if off <? 0 then (-1, f)
               else (0, mkFILE (f_path f) (Z.to_nat off) false)
     end, advance w).
Proof.
  intros Hd. unfold fseek. rewrite Hd. io. rewrite next_fault_eq.
  destruct (pending w); simpl; [done|]. rewrite Z.add_0_l. by case_match.
Qed.

Lemma open_rw_some (p : string) (w w1 : World) (f : FILE) :
  open_rw p w = (Some f, w1) ->
  f = mkFILE p 0 false /\ exists d, fs w1 !! p = Some (NFile d).
Proof.
  unfold open_rw, fopen. io. rewrite !next_fault_eq. simpl.
  destruct (pending w) as [k|]; simpl.
  - rewrite next_fault_eq. simpl.
    destruct (pending (advance w)); simpl; [done|].
    destruct (fs w !! p) as [[d|]|] eqn:E; simpl; try done.
    + intros [= <- <-]. split; [done|]. simpl. eexists. apply lookup_insert_eq.
    + destruct (is_dir_at (fs w) (parent_of p)); simpl; [|done].
      intros [= <- <-]. split; [done|]. simpl. eexists. apply lookup_insert_eq.
  - destruct (fs w !! p) as [[d|]|] eqn:E; simpl.
    + intros [= <- <-]. split; [done|]. simpl. by exists d.
    + rewrite next_fault_eq. simpl. rewrite E.
      destruct (pending (advance w)); simpl; done.
    + rewrite next_fault_eq. simpl. rewrite E.
      destruct (pending (advance w)); simpl; [done|].
      destruct (is_dir_at (fs w) (parent_of p)); simpl; [|done].
      intros [= <- <-]. split; [done|]. simpl. eexists. apply lookup_insert_eq.
Qed.

Lemma fwrite_fault_16 (f : FILE) (buf : list byte) (w : World) (k : nat) :
  pending w = Some k -> length buf = 16%nat ->
  Nat.eqb (fwrite f buf w).1.1 16 = false.
Proof.
  intros Hp Hl. destruct (fwrite_short f buf w k Hp) as [H| ->]; [|done].
  apply Nat.eqb_neq. lia.
Qed.

Lemma tail_drop {A} (n : nat) (l : list A) : tail (drop n l) = drop (S n) l.
Proof.
  revert l. induction n as [|n IH]; intros [|x l]; simpl;
    rewrite ?drop_0, ?drop_nil; auto.
Qed.

Lemma wr_outcome (root : string) (req res : SfpMessage) (w : World) :
  check_permission (owner req) (path req) (strlen (path req)) = true ->
  is_remove req = false ->
  length (payload req) = 16%nat ->
  let fp := full_path_of root (path req) in
  let o := offset req in
  let '(rep, w') := handle_wr_req root req res w in
  match open_rw fp w with
  | (None, w1) => rep = set_offset SFP_ERR_NOT_FOUND (wr_reply req res) /\ w' = w1
  | (Some _, w1) =>
      let d := file_data (fs w1) fp in
      let hole := Z.to_nat (o - Z.of_nat (length d)) in
      if (0 <=? o) && calm_prefix (wr_calls hole) (faults w1)
      then rep = wr_reply req res /\
           w' = mkWorld (<[fp := NFile (write_at (d ++ replicate hole space_byte)
                                                 (Z.to_nat o) (payload req))]> (fs w1))
                        (drop (wr_calls hole) (faults w1))
      else rep = set_offset SFP_ERR_IO (wr_reply req res)
  end.
Proof.
  intros Hperm Hrm Hlen fp o.
  unfold handle_wr_req. rewrite Hperm. cbn [negb].
  fold (is_remove req). rewrite Hrm.
  fold (full_path_of root (path req)). fold fp. fold (wr_reply req res).
  assert (Hopen : forall a0 w1, open_rw fp w = (a0, w1) ->
            (let '(a, w') := fopen fp RPB w in
             match a with Some f => mret (Some f) | None => fopen fp WPB end w') = (a0, w1))
    by (intros a0 w1 H; exact H).
  unfold mbind at 1 2. unfold IO_bind at 1 2.
  destruct (open_rw fp w) as [a0 w1] eqn:Eopen.
  specialize (Hopen _ _ eq_refl).
  destruct (fopen fp RPB w) as [a wa]. rewrite Hopen. clear Hopen a wa.
  destruct a0 as [file|]; [|by split].
  apply open_rw_some in Eopen as [-> [d Hd]].
  unfold file_data. rewrite Hd.
  unfold mbind at 1. unfold IO_bind at 1.
  rewrite fseek_clean by done. cbn [f_path]. unfold size_at. rewrite Hd.
  rewrite Z.add_0_r.
  destruct (Z.ltb_spec (Z.of_nat (length d)) 0) as [?|_]; [lia|].
  rewrite Nat2Z.id. unfold ftell. cbn [f_pos].
  unfold mbind at 1. unfold IO_bind at 1. fold o.
  destruct (Z.ltb_spec (Z.of_nat (length d)) o) as [Hhole|Hnohole].
  - (* a hole has to be filled *)
    set (hole := Z.to_nat (o - Z.of_nat (length d))).
    assert (Hh : exists h, hole = S h) by (exists (pred hole); lia).
    destruct Hh as [h Hh].
    unfold mbind at 1. unfold IO_bind at 1.
    rewrite fseek_clean by done. cbn [f_path].
    rewrite Z.add_0_l.
    destruct (Z.ltb_spec (Z.of_nat (length d)) 0) as [?|_]; [lia|].
    rewrite Nat2Z.id.
    destruct (Z.leb_spec 0 o) as [_|?]; [|lia]. cbn [andb].
    rewrite Hh. cbn [wr_calls]. rewrite <- Hh.
    rewrite (calm_prefix_add hole 2).
    destruct (calm_prefix hole (faults w1)) eqn:Hcalm; cbn [andb].
    + rewrite (fill_hole_ok hole _ w1 d) by done. cbn [negb f_path].
      rewrite Hh. rewrite <- Hh.
      unfold mbind at 1. unfold IO_bind at 1.
      rewrite fseek_dirty by done.
      change 2%nat with (1 + 1)%nat. rewrite (calm_prefix_add 1 1).
      set (w2 := mkWorld _ (drop hole (faults w1))).
      change (drop hole (faults w1)) with (faults w2).
      rewrite calm_prefix_1.
      destruct (pending w2) as [k|] eqn:Hp2; cbn [andb bool_decide].
      { rewrite bool_decide_eq_false_2 by done. reflexivity. }
      rewrite bool_decide_eq_true_2 by done. cbn [andb].
      destruct (Z.ltb_spec o 0) as [?|_]; [lia|].
      change (0 =? 0) with true. cbn [negb f_path].
      unfold mbind at 1. unfold IO_bind at 1.
      change (drop 1 (faults w2)) with (faults (advance w2)).
      rewrite calm_prefix_1.
      destruct (pending (advance w2)) as [k|] eqn:Hp3.
      { rewrite bool_decide_eq_false_2 by done.
        pose proof (fwrite_fault_16 (mkFILE fp (Z.to_nat o) false) _ _ k Hp3 Hlen) as Hw.
        destruct (fwrite _ (payload req) (advance w2)) as [[n f3] w3].
        simpl in Hw. unfold mbind, IO_bind, fclose, mret, IO_ret.
        unfold SFP_PAYLOAD_SIZE. rewrite Hw. reflexivity. }
      rewrite bool_decide_eq_true_2 by done.
      rewrite (fwrite_run _ _ (advance w2) (d ++ replicate hole space_byte)).
      * unfold mbind, IO_bind, fclose, mret, IO_ret. rewrite Hlen.
        change (16 =? SFP_PAYLOAD_SIZE)%nat with true. cbn [negb].
        split; [done|]. cbn [f_path f_pos fs advance]. unfold w2. cbn [fs faults].
        rewrite insert_insert_eq. f_equal.
        cbn [advance faults]. rewrite !tail_drop. f_equal. lia.
      * cbn [f_path fs advance]. unfold w2. cbn [fs]. apply lookup_insert_eq.
      * exact Hp3.
      * intros E. rewrite E in Hlen. discriminate.
    + rewrite (surjective_pairing (fill_hole hole _ w1)).
      rewrite (surjective_pairing (fill_hole hole _ w1).1).
      rewrite fill_hole_fail by done. reflexivity.
  - (* no hole *)
    replace (Z.to_nat (o - Z.of_nat (length d))) with O by lia.
    cbn [wr_calls replicate]. rewrite app_nil_r.
    unfold mret at 1. unfold IO_ret at 1. cbn [negb].
    unfold mbind at 1. unfold IO_bind at 1.
    rewrite fseek_clean by done. cbn [f_path]. rewrite Z.add_0_l.
    destruct (Z.leb_spec 0 o) as [Hpos|Hneg]; cbn [andb].
    + destruct (Z.ltb_spec o 0) as [?|_]; [lia|].
      change (0 =? 0) with true. cbn [negb].
      unfold mbind at 1. unfold IO_bind at 1.
      rewrite calm_prefix_1.
      destruct (pending w1) as [k|] eqn:Hp1.
      { rewrite bool_decide_eq_false_2 by done.
        pose proof (fwrite_fault_16 (mkFILE fp (Z.to_nat o) false) _ _ k Hp1 Hlen) as Hw.
        destruct (fwrite _ (payload req) w1) as [[n f3] w3].
        simpl in Hw. unfold mbind, IO_bind, fclose, mret, IO_ret.
        unfold SFP_PAYLOAD_SIZE. rewrite Hw. reflexivity. }
      rewrite bool_decide_eq_true_2 by done.
      rewrite (fwrite_run _ _ w1 d);
        [|done|done|by intros E; rewrite E in Hlen].
      unfold mbind, IO_bind, fclose, mret, IO_ret. rewrite Hlen.
      change (16 =? SFP_PAYLOAD_SIZE)%nat with true. cbn [negb].
      split; [done|]. cbn [f_path f_pos]. by f_equal.
    + destruct (Z.ltb_spec o 0) as [_|?]; [|lia].
      reflexivity.
Qed.

Lemma fopen_rb_some (p : string) (w w1 : World) (f : FILE) :
  fopen p RB w = (Some f, w1) ->
  f = mkFILE p 0 false /\ w1 = advance w /\ pending w = None /\
  exists d, fs w !! p = Some (NFile d).
Proof.
  unfold fopen. io. rewrite next_fault_eq. simpl.
  destruct (pending w); simpl; [done|].
  destruct (fs w !! p) as [[d|]|]; simpl; try done.
  intros [= <- <-]. eauto.
Qed.

Lemma fopen_rb_missing (p : string) (w : World) :
  fs w !! p = None -> fopen p RB w = (None, advance w).
Proof.
  intros H. unfold fopen. io. rewrite next_fault_eq. simpl. rewrite H.
  by destruct (pending w).
Qed.

Lemma fopen_rb_file (p : string) (w : World) (d : list byte) :
  fs w !! p = Some (NFile d) -> pending w = None ->
  fopen p RB w = (Some (mkFILE p 0 false), advance w).
Proof.
  intros H Hp. unfold fopen. io. rewrite next_fault_eq, Hp. simpl. by rewrite H.
Qed.

Lemma rd_outcome (root : string) (req res : SfpMessage) (w : World) :
  check_permission (owner req) (path req) (strlen (path req)) = true ->
  let fp := full_path_of root (path req) in
  let o := offset req in
  let '(rep, w') := handle_rd_req root req res w in
  match fopen fp RB w with
  | (None, w1) => rep = set_offset SFP_ERR_NOT_FOUND (rd_reply req res) /\ w' = w1
  | (Some _, w1) =>
      let d := file_data (fs w) fp in
      let s := Z.of_nat (length d) in
      fs w' = fs w /\
      if (s <=? o) && negb ((s =? 0) && (o =? 0))
      then rep = set_offset SFP_ERR_OFFSET_OOB (rd_reply req res)
      else exists got,
          rep = set_payload (zero_padded got) (rd_reply req res) /\
          got `prefix_of` rd_window d o /\
          (pending w1 = None -> got = rd_window d o)
  end.
Proof.
  intros Hperm fp o.
  unfold handle_rd_req. rewrite Hperm. cbn [negb].
  fold (full_path_of root (path req)). fold fp. fold (rd_reply req res).
  unfold mbind at 1. unfold IO_bind at 1.
  destruct (fopen fp RB w) as [[file|] w1] eqn:Eopen; [|by split].
  apply fopen_rb_some in Eopen as (-> & -> & Hp & d & Hd).
  unfold file_data. rewrite Hd.
  unfold mbind at 1. unfold IO_bind at 1.
  rewrite fseek_clean by done. cbn [f_path]. unfold size_at.
  rewrite fs_advance, Hd, Z.add_0_r.
  destruct (Z.ltb_spec (Z.of_nat (length d)) 0) as [?|_]; [lia|].
  rewrite Nat2Z.id. unfold ftell. cbn [f_pos]. fold o.
  destruct ((Z.of_nat (length d) <=? o) && negb ((Z.of_nat (length d) =? 0) && (o =? 0)))
    eqn:Eoob.
  - by split.
  - unfold mbind at 1. unfold IO_bind at 1.
    rewrite fseek_clean by done. cbn [f_path]. rewrite Z.add_0_l.
    assert (Hread : forall pos, rd_window d o = take SFP_PAYLOAD_SIZE (drop pos d) ->
      let '(rep, w') :=
        (fread (mkFILE fp pos false) SFP_PAYLOAD_SIZE
         ≫= λ '(got, file1),
              fclose file1
              ≫= λ _ : (),
                   mret (set_payload (got ++ drop (length got) (payload (rd_reply req res)))
                                     (rd_reply req res))) (advance w) in
      fs w' = fs w /\
      exists got, rep = set_payload (zero_padded got) (rd_reply req res) /\
        got `prefix_of` rd_window d o /\
        (pending (advance w) = None -> got = rd_window d o)).
    { intros pos Hwin. unfold fread, fclose. io. rewrite next_fault_eq. simpl.
      rewrite Hd. simpl. split; [done|].
      rewrite <- Hwin. unfold zero_padded.
      let l := eval cbv in (replicate SFP_PAYLOAD_SIZE "000"%byte) in
      change l with (replicate SFP_PAYLOAD_SIZE "000"%byte).
      destruct (pending (advance w)) as [k|].
      - exists (take k (rd_window d o)). rewrite drop_replicate.
        split; [done|]. split; [apply prefix_take | done].
      - exists (rd_window d o). by rewrite drop_replicate. }
    unfold rd_window in Hread. unfold rd_window.
    destruct (Z.ltb_spec o 0) as [Hneg|Hpos].
    + apply (Hread (length d)). by rewrite drop_all, take_nil.
    + by apply (Hread (Z.to_nat o)).
Qed.

End LibcFacts.

(** ** The file handlers *)

Section FileServer.

Variable root : string.

Lemma serve_wr (k : Z) (p : string) (o : Z) (q : list byte) (w : World) :
  serve root (wr_req k p o q) w =
  handle_wr_req root (wr_req k p o q) (set_owner k zero_msg) w.
Proof. reflexivity. Qed.

Lemma serve_rd (k : Z) (p : string) (o : Z) (w : World) :
  serve root (rd_req k p o) w =
  handle_rd_req root (rd_req k p o) (set_owner k zero_msg) w.
Proof. reflexivity. Qed.

Lemma open_rw_data (p : string) (w w1 : World) (f : FILE) :
  open_rw p w = (Some f, w1) ->
  (file_data (fs w1) p = file_data (fs w) p \/ file_data (fs w1) p = [])
  /\ (pending w = None -> file_data (fs w1) p = file_data (fs w) p).
Proof.
  unfold open_rw, fopen, file_data. io. rewrite !next_fault_eq. simpl.
  destruct (pending w) as [k|]; simpl.
  - rewrite next_fault_eq. simpl.
    destruct (pending (advance w)); simpl; [done|].
    destruct (fs w !! p) as [[d|]|] eqn:E; simpl; try done.
    + intros [= <- <-]. simpl. rewrite lookup_insert_eq. split; [by right|done].
    + destruct (is_dir_at (fs w) (parent_of p)); simpl; [|done].
      intros [= <- <-]. simpl. rewrite lookup_insert_eq. split; [by right|done].
  - destruct (fs w !! p) as [[d|]|] eqn:E; simpl.
    + intros [= <- <-]. simpl. rewrite E. by split; [left|].
    + rewrite next_fault_eq. simpl. rewrite E.
      destruct (pending (advance w)); simpl; done.
    + rewrite next_fault_eq. simpl. rewrite E.
      destruct (pending (advance w)); simpl; [done|].
      destruct (is_dir_at (fs w) (parent_of p)); simpl; [|done].
      intros [= <- <-]. simpl. rewrite lookup_insert_eq. by split; [left|].
Qed.

(** What a write that answers with a non-negative status has done. *)
Lemma wr_success (k : Z) (p : string) (o : Z) (q : list byte) (w : World) :
  check_permission k p (strlen p) = true ->
  is_remove (wr_req k p o q) = false ->
  length q = 16%nat ->
  0 <= offset (serve root (wr_req k p o q) w).1 ->
  exists d1,
    (d1 = file_data (fs w) (full_path_of root p) \/ d1 = []) /\
    (pending w = None -> d1 = file_data (fs w) (full_path_of root p)) /\
    0 <= o /\
    offset (serve root (wr_req k p o q) w).1 = o /\
    fs (serve root (wr_req k p o q) w).2 !! full_path_of root p =
      Some (NFile (write_at (d1 ++ replicate (Z.to_nat (o - Z.of_nat (length d1))) space_byte)
                            (Z.to_nat o) q)).
Proof.
  intros Hperm Hrm Hlen Hok. rewrite serve_wr in *.
  pose proof (wr_outcome root (wr_req k p o q) (set_owner k zero_msg) w Hperm Hrm Hlen) as H.
  cbn zeta in H.
  destruct (handle_wr_req root (wr_req k p o q) (set_owner k zero_msg) w) as [rep w'].
  change (path (wr_req k p o q)) with p in H.
  change (offset (wr_req k p o q)) with o in H.
  change (payload (wr_req k p o q)) with q in H.
  destruct (open_rw (full_path_of root p) w) as [[f|] w1] eqn:Eopen.
  - destruct (Z.leb_spec 0 o) as [Hpos|Hneg]; cbn [andb] in H.
    + destruct (calm_prefix _ (faults w1)); [|subst rep; simpl in Hok; done].
      destruct H as [-> ->]. apply open_rw_data in Eopen as [Hd Hd'].
      exists (file_data (fs w1) (full_path_of root p)).
      split; [done|]. split; [done|]. split; [done|]. split; [done|].
      simpl. apply lookup_insert_eq.
    + subst rep. simpl in Hok. done.
  - destruct H as [-> _]. simpl in Hok. done.
Qed.


Lemma rd_existing (k : Z) (p : string) (o : Z) (w : World) (d : list byte) :
  check_permission k p (strlen p) = true ->
  fs w !! full_path_of root p = Some (NFile d) ->
  pending w = None ->
  let rep := (serve root (rd_req k p o) w).1 in
  let s := Z.of_nat (length d) in
  if (s <=? o) && negb ((s =? 0) && (o =? 0))
  then offset rep = SFP_ERR_OFFSET_OOB
  else offset rep = o /\
       exists got, payload rep = zero_padded got /\
                   got `prefix_of` rd_window d o /\
                   (pending (advance w) = None -> got = rd_window d o).
Proof.
  intros Hperm Hd Hp. rewrite serve_rd.
  pose proof (rd_outcome root (rd_req k p o) (set_owner k zero_msg) w Hperm) as H.
  cbn zeta in H.
  destruct (handle_rd_req root (rd_req k p o) (set_owner k zero_msg) w) as [rep w'].
  change (path (rd_req k p o)) with p in H.
  change (offset (rd_req k p o)) with o in H.
  rewrite (fopen_rb_file _ _ d Hd Hp) in H.
  unfold file_data in H. rewrite Hd in H. destruct H as [_ H]. cbn [fst].
  destruct ((Z.of_nat (length d) <=? o) && negb ((Z.of_nat (length d) =? 0) && (o =? 0))).
  - by subst rep.
  - destruct H as (got & -> & Hpre & Hfull). split; [done|]. by exists got.
Qed.

Lemma rd_window_full (d : list byte) (o : Z) (q : list byte) :
  0 <= o -> length q = 16%nat ->
  take 16 (drop (Z.to_nat o) d) = q ->
  rd_window d o = q /\ zero_padded q = q.
Proof.
  intros Ho Hl Hq. unfold rd_window, zero_padded.
  destruct (Z.ltb_spec o 0); [lia|]. split; [done|].
  rewrite Hl. simpl. apply app_nil_r.
Qed.

(** C4 -- Write then read: after a WR_REQ (not of the remove form) that
    answered with a non-negative status, a RD_REQ for the same path and
    offset, served without an I/O fault, returns the 16 payload bytes that
    were written and the requested offset. *)
Theorem write_then_read (k : Z) (p : string) (o : Z) (q : list byte) (w w2 : World) :
  check_permission k p (strlen p) = true ->
  length q = 16%nat ->
  nth 0 q "000"%byte <> "000"%byte \/ o <> 0 ->
  0 <= offset (serve root (wr_req k p o q) w).1 ->
  fs w2 = fs (serve root (wr_req k p o q) w).2 ->
  faults w2 = [] ->
  payload (serve root (rd_req k p o) w2).1 = q /\
  offset (serve root (rd_req k p o) w2).1 = o.
Proof.
  intros Hperm Hlen Hnr Hok Hfs Hcalm.
  assert (Hrm : is_remove (wr_req k p o q) = false).
  { unfold is_remove. change (offset (wr_req k p o q)) with o.
    change (payload (wr_req k p o q)) with q.
    apply andb_false_iff. destruct Hnr as [Hb|Ho].
    - right. destruct (Byte.eqb _ _) eqn:E; [|done]. by apply Byte.byte_dec_bl in E.
    - left. by apply Z.eqb_neq. }
  destruct (wr_success k p o q w Hperm Hrm Hlen Hok) as (d1 & _ & _ & Ho & _ & Hfile).
  rewrite <- Hfs in Hfile.
  set (d2 := d1 ++ replicate (Z.to_nat (o - Z.of_nat (length d1))) space_byte) in Hfile.
  assert (Hin : (Z.to_nat o <= length d2)%nat).
  { unfold d2. rewrite length_app, length_replicate. lia. }
  pose proof (rd_existing k p o w2 _ Hperm Hfile (pending_calm _ Hcalm)) as H.
  cbn zeta in H.
  rewrite write_at_length in H by done. rewrite Hlen in H.
  destruct (Z.leb_spec (Z.of_nat (length d2 `max` (Z.to_nat o + 16))) o) as [?|_]; [lia|].
  cbn [andb] in H. destruct H as (Hoff & got & Hpay & _ & Hfull).
  split; [|done].
  rewrite Hpay, Hfull by (rewrite advance_calm by done; by apply pending_calm).
  pose proof (write_at_read_back d2 q (Z.to_nat o) Hin) as Hrb. rewrite Hlen in Hrb.
  destruct (rd_window_full _ o q Ho Hlen Hrb) as [-> ->]. done.
Qed.



Lemma rd_missing (k : Z) (p : string) (o : Z) (w : World) :
  check_permission k p (strlen p) = true ->
  fs w !! full_path_of root p = None ->
  offset (serve root (rd_req k p o) w).1 = SFP_ERR_NOT_FOUND.
Proof.
  intros Hperm Hd. rewrite serve_rd.
  pose proof (rd_outcome root (rd_req k p o) (set_owner k zero_msg) w Hperm) as H.
  cbn zeta in H.
  destruct (handle_rd_req root (rd_req k p o) (set_owner k zero_msg) w) as [rep w'].
  change (path (rd_req k p o)) with p in H.
  rewrite (fopen_rb_missing _ _ Hd) in H. by destruct H as [-> _].
Qed.


(** C5 -- Remove: for a permitted path naming an existing file, a WR_REQ
    with offset 0 and a payload starting with NUL unlinks the file and
    answers offset 0 when [unlink] succeeds, and answers IO (-4), leaving
    the file in place, when it fails; after a successful removal every
    RD_REQ for that path answers NOT_FOUND (-2). *)
Theorem remove_then_read (k : Z) (p : string) (q d : list byte) (o' : Z) (w : World) :
  check_permission k p (strlen p) = true ->
  nth 0 q "000"%byte = "000"%byte ->
  fs w !! full_path_of root p = Some (NFile d) ->
  let rep := (serve root (wr_req k p 0 q) w).1 in
  let w' := (serve root (wr_req k p 0 q) w).2 in
  match pending w with
  | None =>
      offset rep = 0 /\ fs w' = delete (full_path_of root p) (fs w) /\
      forall w2, fs w2 = fs w' ->
                 offset (serve root (rd_req k p o') w2).1 = SFP_ERR_NOT_FOUND
  | Some _ => offset rep = SFP_ERR_IO /\ fs w' = fs w
  end.
Proof.
  intros Hperm Hq Hd. rewrite serve_wr. unfold handle_wr_req.
  change (owner (wr_req k p 0 q)) with k. change (path (wr_req k p 0 q)) with p.
  change (payload (wr_req k p 0 q)) with q. change (offset (wr_req k p 0 q)) with 0.
  rewrite Hperm, Hq. cbn [negb Z.eqb andb].
  change (Byte.eqb "000"%byte "000"%byte) with true. cbn [andb].
  fold (full_path_of root p). unfold unlink. io. rewrite next_fault_eq. simpl.
  destruct (pending w) as [n|]; simpl; [done|].
  rewrite Hd. simpl. split; [done|]. split; [done|].
  intros w2 Hw2. apply rd_missing; [done|]. rewrite Hw2. apply lookup_delete_eq.
Qed.


Lemma open_rw_creates (p : string) (w : World) :
  fs w !! p = None -> is_dir_at (fs w) (parent_of p) = true ->
  calm_prefix 2 (faults w) = true ->
  open_rw p w = (Some (mkFILE p 0 false),
                 mkWorld (<[p := NFile []]> (fs w)) (drop 2 (faults w))).
Proof.
  intros Hn Hdir Hcalm.
  change 2%nat with (1 + 1)%nat in Hcalm. rewrite calm_prefix_add in Hcalm.
  apply andb_true_iff in Hcalm as [H1 H2].
  change (drop 1 (faults w)) with (faults (advance w)) in H2.
  rewrite calm_prefix_1 in H1, H2.
  apply bool_decide_eq_true in H1, H2.
  unfold open_rw, fopen. io. rewrite next_fault_eq, H1. simpl. rewrite Hn. simpl.
  rewrite next_fault_eq, H2. simpl. rewrite Hn, Hdir. simpl.
  do 2 f_equal. by destruct (faults w) as [|? [|? ?]].
Qed.


End FileServer.

(** ** Directory listings *)

Section Listing.



Lemma length_name_bytes (n : string) : length (name_bytes n) = String.length n.
Proof.
  unfold name_bytes, String.list_byte_of_string. rewrite length_map.
  induction n as [|c n IH]; simpl; [done | by rewrite IH].
Qed.

Lemma chars_cons (n : string) (names : list string) :
  chars (n :: names) = (String.length n + chars names)%nat.
Proof. unfold chars. simpl. by rewrite length_app, length_name_bytes. Qed.

Lemma chars_app (l1 l2 : list string) :
  chars (l1 ++ l2) = (chars l1 + chars l2)%nat.
Proof.
  induction l1 as [|n l1 IH]; [done|].
  rewrite <- app_comm_cons, !chars_cons, IH. lia.
Qed.





Lemma stat_run (p : string) (w : World) :
  stat p w =
  (match pending w, fs w !! p with
   | None, Some NDir => Some true
   | None, Some (NFile _) => Some false
   | _, _ => None
   end, advance w).
Proof.
  unfold stat. io. rewrite next_fault_eq. simpl.
  destruct (pending w); [done|]. by destruct (fs w !! p) as [[|]|].
Qed.



Lemma store_at_insert {A : Type} (l : list A) (i : nat) (e : A) :
  (i < length l)%nat -> store_at l i e = <[i := e]> l.
Proof. intros H. unfold store_at. by rewrite insert_take_drop. Qed.

Lemma store_at_length {A : Type} (l : list A) (i : nat) (e : A) :
  (i < length l)%nat -> length (store_at l i e) = length l.
Proof. intros H. by rewrite store_at_insert, length_insert. Qed.






End Listing.

(** ** The permission gate of the five handlers *)

Section Gate.

Variable root : string.


End Gate.

(** Paths in plain form, and the aliases a host would resolve. *)
Example plain_form_examples :
  canonical "sfss_root/A1/file.txt" = true /\
  canonical "/srv/sfss_root/A1" = true /\
  canonical "sfss_root/A1/./file.txt" = false /\
  canonical "sfss_root/A1//file.txt" = false /\
  canonical "sfss_root/A0/../A2/f" = false /\
  canonical "sfss_root/A1/" = false /\
  canonical "sfss_root/A1/." = false /\
  canonical "" = false /\
  canonical (entry_path root0 "/A3" "") = false /\
  canonical (entry_path root0 "/A4" "../A5") = false /\
  canonical (entry_path root0 "/A1" "docs") = true.
Proof. by vm_compute. Qed.

Example a50_is_not_a5 : check_permission 5 "/A50" (strlen "/A50") = false.
Proof. reflexivity. Qed.

Example other_owner_denied :
  check_permission 5 "/A2/file.txt" (strlen "/A2/file.txt") = false.
Proof. reflexivity. Qed.

Example own_and_shared_allowed :
  check_permission 5 "/A5" 3 = true /\ check_permission 5 "/A5/x" 5 = true /\
  check_permission 5 "/A0" 3 = true /\ check_permission 5 "/A0/x" 5 = true.
Proof. by repeat split. Qed.

(** Beyond seven digits the 10-byte prefix buffer truncates the owner's
    number, so the bound on the owner in the gate theorem cannot be
    dropped. *)
Example long_owner_prefix_truncated :
  check_permission 12345678 "/A1234567/x" 11 = true /\
  check_permission 12345678 "/A12345678" 10 = false.
Proof. by split. Qed.

(** ** The kernel *)

Lemma mod_add_inj (c h j s : nat) :
  (j < c)%nat -> (s < c)%nat -> ((h + j) mod c = (h + s) mod c)%nat -> j = s.
Proof.
  intros Hj Hs H.
  assert (Hc : c <> O) by lia.
  pose proof (Nat.div_mod_eq (h + j) c). pose proof (Nat.div_mod_eq (h + s) c).
  set (q1 := ((h + j) / c)%nat) in *. set (q2 := ((h + s) / c)%nat) in *.
  destruct (Nat.lt_trichotomy q1 q2) as [Hlt|[Heq|Hgt]].
  - pose proof (Nat.mul_le_mono_l (S q1) q2 c Hlt). lia.
  - rewrite Heq in *. lia.
  - pose proof (Nat.mul_le_mono_l (S q2) q1 c Hgt). lia.
Qed.

Section Rings.

Context {A : Type}.

Lemma ring_contents_length (cap : nat) (q : ring A) :
  ring_wf cap q -> length (ring_contents q) = q_sz q.
Proof.
  intros (Hlen & Hh & Hsz & Ht). unfold ring_contents.
  assert (H : forall l : list nat,
             length (omap (fun j => arr q !! ((q_h q + j) mod length (arr q))%nat) l)
             = length l).
  { induction l as [|j l IH]; [done|]. cbn [omap list_omap].
    destruct (lookup_lt_is_Some_2 (arr q) ((q_h q + j) mod length (arr q))%nat) as [x Hx].
    { apply Nat.mod_upper_bound. lia. }
    rewrite Hx. simpl. by rewrite IH. }
  by rewrite H, length_seq.
Qed.

Lemma ring_put_spec (cap : nat) (x : A) (q : ring A) :
  ring_wf cap q -> (q_sz q < cap)%nat ->
  exists q', ring_put cap x q = Some q' /\ ring_wf cap q' /\
             ring_contents q' = ring_contents q ++ [x].
Proof.
  intros (Hlen & Hh & Hsz & Ht) Hroom.
  assert (Hc : cap <> O) by lia.
  assert (Htl : (q_t q < cap)%nat) by (rewrite Ht; by apply Nat.mod_upper_bound).
  unfold ring_put, store_idx, at_idx.
  destruct (Z.ltb_spec (Z.of_nat (q_t q)) 0) as [?|_]; [lia|].
  rewrite Nat2Z.id.
  destruct (lookup_lt_is_Some_2 (arr q) (q_t q)) as [y Hy]; [lia|].
  rewrite Hy. cbn [mbind option_bind].
  eexists. split; [reflexivity|]. split.
  - unfold ring_wf. cbn [arr q_h q_t q_sz]. rewrite length_insert.
    split; [done|]. split; [done|]. split; [lia|].
    rewrite Ht. rewrite Nat.Div0.add_mod_idemp_l. f_equal. lia.
  - unfold ring_contents. cbn [arr q_h q_t q_sz]. rewrite length_insert, Hlen.
    replace (q_sz q + 1)%nat with (S (q_sz q)) by lia.
    rewrite seq_S, omap_app. cbn [omap list_omap Nat.add].
    rewrite <- Ht, list_lookup_insert_eq by lia. cbn [app].
    f_equal. apply list_omap_ext, Forall2_same_length_lookup.
    split; [done|]. intros i j j' Hj Hj'. rewrite Hj in Hj'. injection Hj' as <-.
    apply lookup_seq in Hj as [-> Hlt]. cbn [Nat.add].
    apply list_lookup_insert_ne. rewrite Ht. intros E.
    apply mod_add_inj in E; lia.
Qed.

Lemma ring_take_spec (cap : nat) (q : ring A) :
  ring_wf cap q -> (0 < q_sz q)%nat ->
  exists x q', ring_take cap q = Some (x, q') /\ ring_wf cap q' /\
               ring_contents q = x :: ring_contents q'.
Proof.
  intros (Hlen & Hh & Hsz & Ht) Hne.
  assert (Hc : cap <> O) by lia.
  unfold ring_take.
  destruct (lookup_lt_is_Some_2 (arr q) (q_h q)) as [x Hx]; [lia|].
  rewrite Hx. cbn [mbind option_bind].
  eexists _, _. split; [reflexivity|]. split.
  - unfold ring_wf. cbn [arr q_h q_t q_sz].
    split; [done|]. split; [by apply Nat.mod_upper_bound|]. split; [lia|].
    rewrite Ht. rewrite Nat.Div0.add_mod_idemp_l. f_equal. lia.
  - unfold ring_contents. cbn [arr q_h q_t q_sz]. rewrite Hlen.
    destruct (q_sz q) as [|n]; [lia|].
    cbn [seq omap list_omap]. rewrite Nat.add_0_r, Nat.mod_small, Hx by lia.
    cbn [Nat.sub]. rewrite Nat.sub_0_r. f_equal.
    rewrite <- fmap_S_seq.
    rewrite <- (list_omap_ext (fun j => arr q !! ((q_h q + S j) mod cap)%nat)
                   _ (seq 0 n) (S <$> seq 0 n)).
    + apply list_omap_ext, Forall2_same_length_lookup.
      split; [done|]. intros i j j' Hj Hj'. rewrite Hj in Hj'. injection Hj' as <-.
      rewrite Nat.Div0.add_mod_idemp_l. do 2 f_equal. lia.
    + apply Forall2_fmap_r, Forall_Forall2_diag, Forall_forall. done.
Qed.

End Rings.




Section KernelBasics.

Lemma pcb_state_nat (k : Kernel) (x : Z) :
  0 <= x -> pcb_state k x = state_of k (Z.to_nat x).
Proof.
  intros Hx. unfold pcb_state, at_idx, state_of.
  by destruct (Z.ltb_spec x 0); [lia|].
Qed.

Lemma state_of_is_Some (k : Kernel) (i : nat) :
  length (pcbs k) = N_APPS -> (i < N_APPS)%nat -> is_Some (state_of k i).
Proof.
  intros Hl Hi. unfold state_of.
  destruct (lookup_lt_is_Some_2 (pcbs k) i) as [p Hp]; [lia|]. rewrite Hp. by eexists.
Qed.

Lemma state_of_lt (k : Kernel) (i : nat) (s : ProcState) :
  length (pcbs k) = N_APPS -> state_of k i = Some s -> (i < N_APPS)%nat.
Proof.
  intros Hl. unfold state_of. destruct (pcbs k !! i) eqn:E; [|done].
  apply lookup_lt_Some in E. lia.
Qed.

Lemma update_pcb_spec (k : Kernel) (x : Z) (f : PCB -> PCB) :
  length (pcbs k) = N_APPS -> 0 <= x < Z.of_nat N_APPS ->
  exists p, pcbs k !! Z.to_nat x = Some p /\
            update_pcb x f k = Some (set_pcbs (<[Z.to_nat x := f p]> (pcbs k)) k).
Proof.
  intros Hl Hx. unfold update_pcb, store_idx, at_idx.
  destruct (Z.ltb_spec x 0); [lia|].
  destruct (lookup_lt_is_Some_2 (pcbs k) (Z.to_nat x)) as [p Hp]; [lia|].
  exists p. by rewrite Hp.
Qed.

Lemma state_of_update (k : Kernel) (j : nat) (p : PCB) (f : PCB -> PCB) (i : nat) :
  pcbs k !! j = Some p ->
  state_of (set_pcbs (<[j := f p]> (pcbs k)) k) i =
  if decide (i = j) then Some (state (f p)) else state_of k i.
Proof.
  intros Hp. unfold state_of, set_pcbs. cbn [pcbs].
  destruct (decide (i = j)) as [->|Hne].
  - rewrite list_lookup_insert_eq; [done|]. by apply lookup_lt_Some in Hp.
  - by rewrite list_lookup_insert_ne.
Qed.

Lemma rq_push_tail_spec (k : Kernel) (idx : Z) :
  kernel_ok k -> 0 <= idx < Z.of_nat N_APPS ->
  exists q', rq_push_tail idx k = Some (set_rq q' k) /\
             ring_wf MAX_READY q' /\
             ((ring_contents q' = rq_contents k /\
               ((MAX_READY <= length (rq_contents k))%nat \/
                pcb_state k idx = Some TERMINATED)) \/
              (ring_contents q' = rq_contents k ++ [idx] /\
               pcb_state k idx <> Some TERMINATED)).
Proof.
  intros Hok Hidx. unfold rq_push_tail.
  assert (Hsz : length (rq_contents k) = q_sz (rq k))
    by (apply (ring_contents_length MAX_READY), Hok).
  destruct (Nat.leb_spec MAX_READY (q_sz (rq k))) as [Hfull|Hroom].
  { exists (rq k). split; [by destruct k|]. split; [apply Hok|].
    left. split; [done|]. left. lia. }
  rewrite pcb_state_nat by lia.
  destruct (state_of_is_Some k (Z.to_nat idx)) as [s Hs];
    [apply Hok | unfold N_APPS in *; lia |].
  rewrite Hs. cbn [mbind option_bind].
  destruct (decide (s = TERMINATED)) as [->|Hne].
  { exists (rq k). split; [by destruct k|]. split; [apply Hok|].
    left. split; [done|]. by right. }
  destruct (ring_put_spec MAX_READY idx (rq k)) as (q' & Hput & Hwf & Hc);
    [apply Hok | done |].
  rewrite Hput. cbn [mbind option_bind].
  exists q'. split; [done|]. split; [done|]. right. split; [done|]. congruence.
Qed.

Lemma rq_pop_head_spec (k : Kernel) :
  kernel_ok k ->
  (rq_pop_head k = Some (-1, k) /\ rq_contents k = []) \/
  (exists v q', rq_pop_head k = Some (v, set_rq q' k) /\
                ring_wf MAX_READY q' /\ rq_contents k = v :: ring_contents q').
Proof.
  intros Hok. unfold rq_pop_head.
  destruct (Nat.eqb_spec (q_sz (rq k)) 0) as [Hz|Hnz].
  - left. split; [done|].
    apply length_zero_iff_nil. unfold rq_contents.
    rewrite (ring_contents_length MAX_READY); [done | apply Hok].
  - right. destruct (ring_take_spec MAX_READY (rq k)) as (x & q' & Ht & Hwf & Hc);
      [apply Hok | lia |].
    rewrite Ht. cbn [mbind option_bind]. by exists x, q'.
Qed.

End KernelBasics.

Section KernelInvariant.

Lemma Inv_update (b : bool) (k : Kernel) (j : nat) (p : PCB) (f : PCB -> PCB) :
  Inv b k -> pcbs k !! j = Some p ->
  (state (f p) = RUNNING -> state p = RUNNING) ->
  (b = true -> state (f p) = BLOCKED ->
   state p = BLOCKED \/ Z.of_nat j ∉ rq_contents k) ->
  Inv b (set_pcbs (<[j := f p]> (pcbs k)) k).
Proof.
  intros (Hok & Hun & Hst) Hp Hrun Hblk.
  assert (Hsp : state_of k j = Some (state p)) by (unfold state_of; by rewrite Hp).
  split; [|split].
  - destruct Hok. constructor; try done. cbn [set_pcbs pcbs]. by rewrite length_insert.
  - intros i Hi. rewrite (state_of_update _ _ _ _ _ Hp) in Hi.
    change (running_idx (set_pcbs _ k)) with (running_idx k).
    destruct (decide (i = j)) as [->|Hne]; [|by apply Hun].
    injection Hi as Hi. apply Hun. rewrite Hsp. f_equal. auto.
  - intros Hb. destruct (Hst Hb) as [Hnd Hout]. split; [exact Hnd|].
    intros i Hi. rewrite (state_of_update _ _ _ _ _ Hp) in Hi.
    change (rq_contents (set_pcbs _ k)) with (rq_contents k).
    destruct (decide (i = j)) as [->|Hne]; [|by apply Hout].
    destruct Hi as [Hi|Hi]; injection Hi as Hi.
    + apply Hout. left. rewrite Hsp. f_equal. auto.
    + destruct (Hblk Hb Hi) as [Hwas|Hnot]; [|done].
      apply Hout. right. rewrite Hsp. by f_equal.
Qed.

Lemma Inv_set_running (b : bool) (k : Kernel) (r : Z) :
  Inv b k -> -1 <= r < Z.of_nat N_APPS ->
  (forall i, state_of k i = Some RUNNING -> r = Z.of_nat i) ->
  Inv b (set_running_idx r k).
Proof.
  intros (Hok & Hun & Hst) Hr Huniq. split; [|split].
  - destruct Hok. by constructor.
  - exact Huniq.
  - exact Hst.
Qed.

Lemma push_inv (b : bool) (k : Kernel) (idx : Z) :
  Inv b k -> 0 <= idx < Z.of_nat N_APPS ->
  (b = true -> (idx ∉ rq_contents k) /\
               state_of k (Z.to_nat idx) <> Some RUNNING /\
               state_of k (Z.to_nat idx) <> Some BLOCKED) ->
  exists k', rq_push_tail idx k = Some k' /\ Inv b k' /\
             pcbs k' = pcbs k /\ running_idx k' = running_idx k /\
             ((rq_contents k' = rq_contents k /\
               ((MAX_READY <= length (rq_contents k))%nat \/
                pcb_state k idx = Some TERMINATED)) \/
              (rq_contents k' = rq_contents k ++ [idx] /\
               pcb_state k idx <> Some TERMINATED)).
Proof.
  intros (Hok & Hun & Hst) Hidx Hfresh.
  destruct (rq_push_tail_spec k idx Hok Hidx) as (q' & Hpush & Hwf & Hc).
  exists (set_rq q' k). split; [done|].
  change (rq_contents (set_rq q' k)) with (ring_contents q').
  split; [|by repeat split].
  split; [|split].
  - destruct Hok. constructor; try done.
    change (rq_contents (set_rq q' k)) with (ring_contents q').
    destruct Hc as [[-> _]|[-> _]]; [done|].
    apply Forall_app. split; [done|]. by constructor.
  - exact Hun.
  - intros Hb. destruct (Hst Hb) as [Hnd Hout].
    destruct (Hfresh Hb) as (Hnew & Hnr & Hnb).
    unfold queue_strict. change (rq_contents (set_rq q' k)) with (ring_contents q').
    destruct Hc as [[-> _]|[-> _]]; [done|]. split.
    + apply NoDup_app. split; [done|]. split; [|apply NoDup_singleton].
      intros x Hx Hx'. apply list_elem_of_singleton in Hx'. by subst.
    + intros i Hi. change (state_of (set_rq q' k) i) with (state_of k i) in Hi.
      rewrite elem_of_app, list_elem_of_singleton. intros [Hin|Heq].
      * by apply (Hout i).
      * subst idx. rewrite Nat2Z.id in Hnr, Hnb. by destruct Hi.
Qed.

(** Stopping the running process leaves no PCB in state RUNNING. *)
Lemma stop_running_inv (b : bool) (k : Kernel) :
  Inv b k ->
  exists k', stop_running k = Some k' /\ Inv b k' /\
             (forall i, state_of k' i <> Some RUNNING) /\
             running_idx k' = running_idx k /\
             (forall i, state_of k i <> Some RUNNING -> state_of k' i = state_of k i) /\
             (forall x, x ∈ rq_contents k' ->
                        x ∈ rq_contents k \/
                        (x = running_idx k /\
                         state_of k (Z.to_nat x) = Some RUNNING)).
Proof.
  intros HI. pose proof HI as (Hok & Hun & Hst). unfold stop_running.
  destruct (Z.leb_spec 0 (running_idx k)) as [Hge|Hlt].
  - pose proof (ok_running k Hok) as Hr.
    rewrite pcb_state_nat by done.
    destruct (state_of_is_Some k (Z.to_nat (running_idx k))) as [s Hs];
      [apply Hok | unfold N_APPS in *; lia |].
    rewrite Hs. cbn [mbind option_bind].
    destruct (decide (s = RUNNING)) as [->|Hne].
    + destruct (update_pcb_spec k (running_idx k) (with_state READY))
        as (p & Hp & Hup); [apply Hok | lia |].
      rewrite Hup. cbn [mbind option_bind].
      set (k1 := set_pcbs _ k).
      assert (HI1 : Inv b k1).
      { apply Inv_update; [done|done|done|done]. }
      assert (Hs1 : forall i, state_of k1 i =
                 if decide (i = Z.to_nat (running_idx k)) then Some READY
                 else state_of k i).
      { intros i. unfold k1. by rewrite (state_of_update _ _ _ _ _ Hp). }
      destruct (push_inv b k1 (running_idx k) HI1) as (k' & Hpush & HI' & Hpc & Hri & Hc);
        [lia | |].
      { intros Hb. rewrite !Hs1. rewrite decide_True by done.
        split; [|done]. destruct (Hst Hb) as [_ Hout].
        specialize (Hout (Z.to_nat (running_idx k)) (or_introl Hs)).
        by rewrite Z2Nat.id in Hout. }
      exists k'. split; [done|]. split; [done|].
      assert (Hsk' : forall i, state_of k' i = state_of k1 i)
        by (intros i; unfold state_of; by rewrite Hpc).
      split; [|split; [done|split]].
      * intros i. rewrite Hsk', Hs1. case_decide; [done|].
        intros Hi. apply Hun in Hi. lia.
      * intros i Hi. rewrite Hsk', Hs1. case_decide; [|done]. subst i. done.
      * intros x Hx. change (rq_contents k1) with (rq_contents k) in Hc.
        destruct Hc as [[Hc _]|[Hc _]]; rewrite Hc in Hx; [by left|].
        apply elem_of_app in Hx as [Hx|Hx]; [by left|].
        apply list_elem_of_singleton in Hx. subst x. by right.
    + exists k. split; [done|]. split; [done|].
      split; [|split; [done|split; [done|intros; by left]]].
      intros i Hi. pose proof (Hun i Hi) as E. rewrite E, Nat2Z.id in Hs. congruence.
  - exists k. split; [done|]. split; [done|].
    split; [|split; [done|split; [done|intros; by left]]].
    intros i Hi. apply Hun in Hi. lia.
Qed.


Lemma Inv_popped (b : bool) (k : Kernel) (v : Z) (q' : ring Z) :
  Inv b k -> ring_wf MAX_READY q' -> rq_contents k = v :: ring_contents q' ->
  Inv b (set_rq q' k) /\ 0 <= v < Z.of_nat N_APPS /\
  (b = true -> (v ∉ ring_contents q') /\
               state_of k (Z.to_nat v) <> Some RUNNING /\
               state_of k (Z.to_nat v) <> Some BLOCKED).
Proof.
  intros (Hok & Hun & Hst) Hwf Hc.
  pose proof (ok_range k Hok) as Hrange. rewrite Hc in Hrange.
  apply Forall_cons in Hrange as [Hv Hrest].
  split; [|split; [done|]].
  - split; [|split].
    + destruct Hok. by constructor.
    + exact Hun.
    + intros Hb. destruct (Hst Hb) as [Hnd Hout]. rewrite Hc in Hnd, Hout.
      apply NoDup_cons in Hnd as [_ Hnd]. split; [done|].
      intros i Hi Hin. apply (Hout i Hi). by right.
  - intros Hb. destruct (Hst Hb) as [Hnd Hout]. rewrite Hc in Hnd, Hout.
    apply NoDup_cons in Hnd as [Hnv _]. split; [done|].
    split; intros Hs.
    + apply (Hout (Z.to_nat v)); [by left|]. rewrite Z2Nat.id by lia. by left.
    + apply (Hout (Z.to_nat v)); [by right|]. rewrite Z2Nat.id by lia. by left.
Qed.

Lemma schedule_scan_inv (b : bool) (tries : nat) :
  forall k, Inv b k ->
  exists r k', schedule_scan tries k = Some (r, k') /\ Inv b k' /\
    (r = false ->
     (forall i, state_of k' i = state_of k i) /\
     running_idx k' = running_idx k /\
     (tries <> O -> forall x l, rq_contents k = x :: l ->
                                state_of k (Z.to_nat x) <> Some READY)).
Proof.
  induction tries as [|tries IH]; intros k HI.
  { exists false, k. split; [done|]. split; [done|]. intros _. split; [done|]. split; [done|]. by intros []. }
  pose proof HI as (Hok & Hun & Hst). cbn [schedule_scan].
  destruct (rq_pop_head_spec k Hok) as [[Hpop Hc]|(v & q' & Hpop & Hwf & Hc)];
    rewrite Hpop; cbn [mbind option_bind].
  { exists false, k. split; [done|]. split; [done|]. intros _.
    split; [done|]. split; [done|]. intros _ x l. by rewrite Hc. }
  destruct (Inv_popped b k v q' HI Hwf Hc) as (HI1 & Hv & Hfresh).
  set (k1 := set_rq q' k) in *.
  destruct (Z.ltb_spec v 0) as [?|_]; [lia|].
  rewrite pcb_state_nat by lia.
  change (state_of k1 (Z.to_nat v)) with (state_of k (Z.to_nat v)).
  destruct (state_of_is_Some k (Z.to_nat v)) as [s Hs];
    [apply Hok | unfold N_APPS in *; lia |].
  rewrite Hs. cbn [mbind option_bind].
  assert (Hhead : s <> READY -> forall x l, rq_contents k = x :: l ->
                    state_of k (Z.to_nat x) <> Some READY).
  { intros Hne x l Hxl. rewrite Hc in Hxl. injection Hxl as <- _. congruence. }
  destruct s.
  - (* READY: it becomes the running process *)
    destruct (stop_running_inv b k1 HI1) as (k2 & Hstop & HI2 & Hnone & Hrun & Hsame & Hsub).
    rewrite Hstop. cbn [mbind option_bind].
    pose proof HI2 as (Hok2 & Hun2 & Hst2).
    destruct (update_pcb_spec k2 v (with_state RUNNING)) as (p & Hp & Hup);
      [apply Hok2 | done |].
    rewrite Hup. cbn [mbind option_bind].
    eexists true, _. split; [reflexivity|]. split; [|done].
    set (k3 := set_pcbs _ k2).
    assert (Hs3 : forall i, state_of k3 i =
               if decide (i = Z.to_nat v) then Some RUNNING else state_of k2 i).
    { intros i. unfold k3. by rewrite (state_of_update _ _ _ _ _ Hp). }
    split; [|split].
    + destruct Hok2. constructor; try done.
      * cbn [set_running_idx set_pcbs pcbs k3]. by rewrite length_insert.
      * cbn [running_idx set_running_idx]. lia.
    + intros i Hi. change (state_of (set_running_idx v k3) i) with (state_of k3 i) in Hi.
      rewrite Hs3 in Hi. cbn [running_idx set_running_idx].
      case_decide; [subst i; lia | by apply Hnone in Hi].
    + intros Hb. destruct (Hst2 Hb) as [Hnd2 Hout2].
      destruct (Hfresh Hb) as (Hnv & Hnr & Hnb).
      split; [exact Hnd2|]. intros i Hi.
      change (state_of (set_running_idx v k3) i) with (state_of k3 i) in Hi.
      change (rq_contents (set_running_idx v k3)) with (rq_contents k2).
      rewrite Hs3 in Hi. case_decide as Hiv; [|by apply Hout2].
      subst i. rewrite Z2Nat.id by lia. intros Hin.
      apply Hsub in Hin as [Hin|[Heq Hwas]]; [done|].
      change (state_of k1 (Z.to_nat v)) with (state_of k (Z.to_nat v)) in Hwas.
      congruence.
  - (* RUNNING: pushed back *)
    destruct (push_inv b k1 v HI1 Hv) as (k2 & Hpush & HI2 & Hpc & Hri & _).
    { intros Hb. destruct (Hfresh Hb) as (_ & Hnr & _). done. }
    rewrite Hpush. cbn [mbind option_bind].
    destruct (IH k2 HI2) as (r & k' & Hscan & HI' & Hpost).
    exists r, k'. split; [done|]. split; [done|].
    intros Hr. destruct (Hpost Hr) as (Hsx & Hrx & _).
    split; [|split; [by rewrite Hrx, Hri| intros _; by apply Hhead]].
    intros i. rewrite Hsx. unfold state_of. by rewrite Hpc.
  - (* BLOCKED: pushed back *)
    destruct (push_inv b k1 v HI1 Hv) as (k2 & Hpush & HI2 & Hpc & Hri & _).
    { intros Hb. destruct (Hfresh Hb) as (_ & _ & Hnb). done. }
    rewrite Hpush. cbn [mbind option_bind].
    destruct (IH k2 HI2) as (r & k' & Hscan & HI' & Hpost).
    exists r, k'. split; [done|]. split; [done|].
    intros Hr. destruct (Hpost Hr) as (Hsx & Hrx & _).
    split; [|split; [by rewrite Hrx, Hri| intros _; by apply Hhead]].
    intros i. rewrite Hsx. unfold state_of. by rewrite Hpc.
  - (* TERMINATED: dropped *)
    destruct (IH k1 HI1) as (r & k' & Hscan & HI' & Hpost).
    exists r, k'. split; [done|]. split; [done|].
    intros Hr. destruct (Hpost Hr) as (Hsx & Hrx & _).
    split; [done|]. split; [done|]. intros _. by apply Hhead.
Qed.


Lemma requeue_ready_inv (b : bool) (idxs : list nat) :
  forall found k,
    Inv b k -> NoDup idxs ->
    (forall i, i ∈ idxs -> (i < N_APPS)%nat /\ Z.of_nat i ∉ rq_contents k) ->
    (forall x, x ∈ rq_contents k -> state_of k (Z.to_nat x) = Some READY) ->
    (length (rq_contents k) + length idxs <= MAX_READY)%nat ->
    (found = true <-> rq_contents k <> []) ->
    exists found' k',
      requeue_ready idxs found k = Some (found', k') /\ Inv b k' /\
      (forall i, state_of k' i = state_of k i) /\
      running_idx k' = running_idx k /\
      (forall x, x ∈ rq_contents k' -> state_of k' (Z.to_nat x) = Some READY) /\
      (found' = true <-> rq_contents k' <> []).
Proof.
  induction idxs as [|i idxs IH]; intros found k HI Hnd Hfresh Hready Hroom Hfound.
  { exists found, k. split; [done|]. split; [done|]. split; [done|]. split; [done|]. split; [done|]. done. }
  pose proof HI as (Hok & Hun & Hst). cbn [requeue_ready].
  apply NoDup_cons in Hnd as [Hi Hnd].
  destruct (Hfresh i) as [Hlt Hnotin]; [by left|].
  rewrite pcb_state_nat by lia. rewrite Nat2Z.id.
  destruct (state_of_is_Some k i) as [s Hs]; [apply Hok | done |].
  rewrite Hs. cbn [mbind option_bind]. cbn [length] in Hroom.
  destruct (decide (s = READY)) as [->|Hne].
  - destruct (push_inv b k (Z.of_nat i) HI) as (k1 & Hpush & HI1 & Hpc & Hri & Hc).
    { unfold N_APPS in *. lia. }
    { intros _. rewrite Nat2Z.id, Hs. by repeat split. }
    rewrite Hpush. cbn [mbind option_bind].
    assert (Hc1 : rq_contents k1 = rq_contents k ++ [Z.of_nat i]).
    { destruct Hc as [[_ [Hfull|Hterm]]|[Hc _]]; [lia| |done].
      rewrite pcb_state_nat, Nat2Z.id, Hs in Hterm by lia. done. }
    assert (Hs1 : forall j, state_of k1 j = state_of k j)
      by (intros j; unfold state_of; by rewrite Hpc).
    destruct (IH true k1 HI1 Hnd) as (found' & k' & Hrun & HI' & Hsx & Hrx & Hrd & Hf).
    + intros j Hj. destruct (Hfresh j) as [Hjlt Hjn]; [by right|].
      split; [done|]. rewrite Hc1, elem_of_app, list_elem_of_singleton.
      intros [?|Heq]; [done|]. apply Nat2Z.inj in Heq. by subst.
    + intros x Hx. rewrite Hs1. rewrite Hc1 in Hx.
      apply elem_of_app in Hx as [Hx|Hx]; [by apply Hready|].
      apply list_elem_of_singleton in Hx. subst x. by rewrite Nat2Z.id.
    + rewrite Hc1, length_app. simpl. lia.
    + split; [intros _|done]. rewrite Hc1. by destruct (rq_contents k).
    + exists found', k'. split; [done|]. split; [done|].
      split; [intros j; by rewrite Hsx|]. split; [by rewrite Hrx|]. done.
  - destruct (IH found k HI Hnd) as (found' & k' & Hrun & HI' & Hrest); try done.
    + intros j Hj. apply Hfresh. by right.
    + lia.
    + by exists found', k'.
Qed.

Lemma Inv_no_running (b : bool) (k : Kernel) :
  Inv b k -> (forall i, state_of k i <> Some RUNNING) ->
  Inv b (set_running_idx (-1) k).
Proof.
  intros HI Hnone. apply Inv_set_running; [done | unfold N_APPS; lia |].
  intros i Hi. by apply Hnone in Hi.
Qed.

(** [schedule_next] always returns: two levels of [fuel] are enough. *)
Lemma schedule_next_inv (b : bool) (k : Kernel) :
  Inv b k -> exists k', schedule_next k = Some k' /\ Inv b k'.
Proof.
  intros HI. unfold schedule_next. cbn [schedule_next_fuel].
  destruct (schedule_scan_inv b (q_sz (rq k)) k HI) as (r & k1 & Hscan & HI1 & Hpost).
  rewrite Hscan. cbn [mbind option_bind].
  destruct r; [by exists k1|].
  destruct (stop_running_inv b k1 HI1) as (k2 & Hstop & HI2 & Hnone & _).
  rewrite Hstop. cbn [mbind option_bind].
  pose proof HI2 as (Hok2 & _ & _).
  assert (Hsz2 : length (rq_contents k2) = q_sz (rq k2))
    by (apply (ring_contents_length MAX_READY), Hok2).
  destruct (Nat.eqb_spec (q_sz (rq k2)) 0) as [Hz|Hnz].
  - assert (Hempty : rq_contents k2 = [])
      by (apply length_zero_iff_nil; lia).
    destruct (requeue_ready_inv b (seq 0 N_APPS) false k2 HI2)
      as (found & k3 & Hreq & HI3 & Hs3 & Hr3 & Hready & Hfound).
    + apply NoDup_seq.
    + intros i Hi. apply elem_of_seq in Hi. rewrite Hempty.
      split; [lia | apply not_elem_of_nil].
    + intros x Hx. rewrite Hempty in Hx. by apply not_elem_of_nil in Hx.
    + rewrite Hempty, length_seq. simpl. unfold MAX_READY. lia.
    + by rewrite Hempty.
    + rewrite Hreq. cbn [mbind option_bind].
      destruct found.
      * destruct (schedule_scan_inv b (q_sz (rq k3)) k3 HI3)
          as (r & k4 & Hscan4 & HI4 & Hpost4).
        rewrite Hscan4. cbn [mbind option_bind].
        destruct r; [by exists k4|]. exfalso.
        destruct (Hpost4 eq_refl) as (_ & _ & Hhead).
        assert (Hne : rq_contents k3 <> []) by by apply Hfound.
        destruct (rq_contents k3) as [|x l] eqn:Hc; [done|].
        apply (Hhead) with (x := x) (l := l); [|done|].
        -- pose proof HI3 as (Hok3 & _ & _).
           pose proof (ring_contents_length MAX_READY (rq k3) (ok_rq _ Hok3)) as Hl.
           unfold rq_contents in Hc. rewrite Hc in Hl. simpl in Hl. lia.
        -- apply Hready. by left.
      * eexists. split; [reflexivity|]. apply Inv_no_running; [done|].
        intros i. rewrite Hs3. apply Hnone.
  - eexists. split; [reflexivity|]. by apply Inv_no_running.
Qed.


Lemma schedule_next_fuel_unfold (f : nat) (k : Kernel) :
  schedule_next_fuel (S f) k =
  ('(returned, k) ← schedule_scan (q_sz (rq k)) k;
   if (returned : bool) then Some k
   else
     k ← stop_running k;
     if Nat.eqb (q_sz (rq k)) 0 then
       '(found_ready, k) ← requeue_ready (seq 0 N_APPS) false k;
       if (found_ready : bool) then schedule_next_fuel f k
       else Some (set_running_idx (-1) k)
     else Some (set_running_idx (-1) k)).
Proof. reflexivity. Qed.

(** With a READY index in the queue the scan returns from inside its loop,
    so no further self-call is made. *)
Lemma ready_queue_scheduled (b : bool) (k : Kernel) (f : nat) :
  Inv b k -> rq_contents k <> [] ->
  (forall x, x ∈ rq_contents k -> state_of k (Z.to_nat x) = Some READY) ->
  schedule_next_fuel (S f) k = schedule_next_fuel 1 k.
Proof.
  intros HI Hne Hready. rewrite !schedule_next_fuel_unfold.
  destruct (schedule_scan_inv b (q_sz (rq k)) k HI) as (r & k1 & Hscan & _ & Hpost).
  rewrite Hscan. cbn [mbind option_bind].
  destruct r; [done|]. exfalso.
  destruct (Hpost eq_refl) as (_ & _ & Hhead).
  destruct (rq_contents k) as [|x l] eqn:Hc; [done|].
  apply (Hhead) with (x := x) (l := l); [|done|].
  - pose proof HI as (Hok & _ & _).
    pose proof (ring_contents_length MAX_READY (rq k) (ok_rq _ Hok)) as Hl.
    unfold rq_contents in Hc. rewrite Hc in Hl. simpl in Hl. lia.
  - apply Hready. by left.
Qed.

(** More fuel than two levels does not change what [schedule_next]
    returns. *)
Lemma schedule_next_fuel_enough (b : bool) (k : Kernel) (n : nat) :
  Inv b k -> schedule_next_fuel (S (S n)) k = schedule_next k.
Proof.
  intros HI. unfold schedule_next. rewrite (schedule_next_fuel_unfold (S n)).
  rewrite (schedule_next_fuel_unfold 1).
  destruct (schedule_scan_inv b (q_sz (rq k)) k HI) as (r & k1 & Hscan & HI1 & _).
  rewrite Hscan. cbn [mbind option_bind].
  destruct r; [done|].
  destruct (stop_running_inv b k1 HI1) as (k2 & Hstop & HI2 & _).
  rewrite Hstop. cbn [mbind option_bind].
  pose proof HI2 as (Hok2 & _ & _).
  assert (Hsz2 : length (rq_contents k2) = q_sz (rq k2))
    by (apply (ring_contents_length MAX_READY), Hok2).
  destruct (Nat.eqb_spec (q_sz (rq k2)) 0) as [Hz|Hnz]; [|done].
  assert (Hempty : rq_contents k2 = [])
    by (apply length_zero_iff_nil; lia).
  destruct (requeue_ready_inv b (seq 0 N_APPS) false k2 HI2)
    as (found & k3 & Hreq & HI3 & _ & _ & Hready & Hfound).
  - apply NoDup_seq.
  - intros i Hi. apply elem_of_seq in Hi. rewrite Hempty.
    split; [lia | apply not_elem_of_nil].
  - intros x Hx. rewrite Hempty in Hx. by apply not_elem_of_nil in Hx.
  - rewrite Hempty, length_seq. simpl. unfold MAX_READY. lia.
  - by rewrite Hempty.
  - rewrite Hreq. cbn [mbind option_bind].
    destruct found; [|done].
    apply (ready_queue_scheduled b); [done | by apply Hfound | done].
Qed.

Lemma update_inv (b : bool) (k : Kernel) (x : Z) (f : PCB -> PCB) :
  Inv b k -> 0 <= x < Z.of_nat N_APPS ->
  (forall p, state (f p) = RUNNING -> state p = RUNNING) ->
  (b = true -> forall p, state (f p) = BLOCKED ->
                         state p = BLOCKED \/ x ∉ rq_contents k) ->
  exists p k', pcbs k !! Z.to_nat x = Some p /\
    update_pcb x f k = Some k' /\ Inv b k' /\
    running_idx k' = running_idx k /\ rq_contents k' = rq_contents k /\
    (forall i, state_of k' i =
               if decide (i = Z.to_nat x) then Some (state (f p)) else state_of k i).
Proof.
  intros HI Hx Hrun Hblk. pose proof HI as (Hok & _).
  destruct (update_pcb_spec k x f) as (p & Hp & Hup); [apply Hok | done |].
  exists p. eexists. split; [done|]. split; [exact Hup|].
  split; [|split; [done|split; [done|]]].
  - apply Inv_update; [done | done | apply Hrun |].
    intros Hb Hs. rewrite Z2Nat.id by lia. by apply Hblk.
  - intros i. by apply state_of_update.
Qed.

Lemma Inv_set_file_req_q (b : bool) (k : Kernel) (q : ring SfpMessage) :
  Inv b k -> ring_wf MAX_BLOCKED q -> Inv b (set_file_req_q q k).
Proof.
  intros (Hok & Hun & Hst) Hwf. split; [|by split]. destruct Hok. by constructor.
Qed.

Lemma Inv_set_dir_req_q (b : bool) (k : Kernel) (q : ring SfpMessage) :
  Inv b k -> ring_wf MAX_BLOCKED q -> Inv b (set_dir_req_q q k).
Proof.
  intros (Hok & Hun & Hst) Hwf. split; [|by split]. destruct Hok. by constructor.
Qed.

Lemma Inv_set_shm (b : bool) (k : Kernel) (l : list SfpMessage) :
  Inv b k -> length l = N_APPS -> Inv b (set_shm l k).
Proof.
  intros (Hok & Hun & Hst) Hl. split; [|by split]. destruct Hok. by constructor.
Qed.

Lemma pid_to_index_from_range (l : list PCB) (i p : Z) :
  pid_to_index_from l i p = -1 \/
  i <= pid_to_index_from l i p < i + Z.of_nat (length l).
Proof.
  revert i. induction l as [|x l IH]; intros i; cbn [pid_to_index_from length].
  - by left.
  - destruct (pid x =? p); [right; lia|].
    destruct (IH (i + 1)) as [->|H]; [by left | right; lia].
Qed.

Lemma pid_to_index_range (k : Kernel) (p : Z) :
  -1 <= pid_to_index k p < Z.of_nat N_APPS.
Proof.
  unfold pid_to_index.
  destruct (pid_to_index_from_range (take N_APPS (pcbs k)) 0 p) as [->|H].
  - unfold N_APPS. lia.
  - rewrite length_take in H. lia.
Qed.

(** Clearing [running_idx] once its PCB has left the RUNNING state, then
    scheduling. *)
Lemma reschedule_inv (b : bool) (k : Kernel) :
  Inv b k -> (forall i, state_of k i <> Some RUNNING) ->
  exists k', schedule_next (set_running_idx (-1) k) = Some k' /\ Inv b k'.
Proof. intros HI Hnone. apply schedule_next_inv. by apply Inv_no_running. Qed.

Lemma irq0_inv (b : bool) (k : Kernel) :
  Inv b k -> exists k', drain_inter_line "IRQ0" k = Some k' /\ Inv b k'.
Proof.
  intros HI. pose proof HI as (Hok & Hun & Hst).
  unfold drain_inter_line. change (strcmp_eq "IRQ0" "IRQ0") with true. cbn iota.
  destruct (Z.leb_spec 0 (running_idx k)) as [Hge|Hlt];
    [|cbn [mbind option_bind]; by apply schedule_next_inv].
  pose proof (ok_running k Hok) as Hr.
  rewrite pcb_state_nat by done.
  destruct (state_of_is_Some k (Z.to_nat (running_idx k))) as [s Hs];
    [apply Hok | unfold N_APPS in *; lia |].
  rewrite Hs. cbn [mbind option_bind].
  destruct (decide (s = RUNNING)) as [->|Hne];
    [|cbn [mbind option_bind]; by apply schedule_next_inv].
  destruct (update_inv b k (running_idx k) (with_state READY) HI)
    as (p & k1 & Hp & Hup & HI1 & Hr1 & Hc1 & Hs1); [lia|done|done|].
  rewrite Hup. cbn [mbind option_bind].
  destruct (push_inv b k1 (running_idx k) HI1) as (k2 & Hpush & HI2 & Hpc & Hri & _);
    [lia| |].
  { intros Hb. rewrite !Hs1, decide_True by done. rewrite Hc1.
    split; [|done]. destruct (Hst Hb) as [_ Hout].
    specialize (Hout (Z.to_nat (running_idx k)) (or_introl Hs)).
    by rewrite Z2Nat.id in Hout. }
  rewrite Hpush. cbn [mbind option_bind].
  apply reschedule_inv; [done|].
  intros i. unfold state_of. rewrite Hpc. fold (state_of k1 i). rewrite Hs1.
  case_decide; [done|]. intros Hi. apply Hun in Hi. lia.
Qed.

Lemma unblock_owner_inv (b : bool) (res_msg : SfpMessage) (k : Kernel) :
  Inv b k -> exists k', unblock_owner res_msg k = Some k' /\ Inv b k'.
Proof.
  intros HI. pose proof HI as (Hok & Hun & Hst). unfold unblock_owner.
  set (idx := owner res_msg - 1).
  destruct (Z.leb_spec 0 idx) as [Hge|?]; [|by exists k].
  destruct (Z.ltb_spec idx (Z.of_nat N_APPS)) as [Hlt|?]; [|by exists k].
  cbn [andb]. case_bool_decide as Hblk; [|by exists k].
  rewrite pcb_state_nat in Hblk by done.
  unfold store_idx, at_idx.
  destruct (Z.ltb_spec idx 0) as [?|_]; [lia|].
  destruct (lookup_lt_is_Some_2 (shm k) (Z.to_nat idx)) as [m Hm];
    [rewrite (ok_shm k Hok); lia|].
  rewrite Hm. cbn [mbind option_bind].
  set (k0 := set_shm _ k).
  assert (HI0 : Inv b k0).
  { apply Inv_set_shm; [done|]. rewrite length_insert. apply Hok. }
  destruct (update_inv b k0 idx (with_state READY) HI0)
    as (p & k1 & Hp & Hup & HI1 & Hr1 & Hc1 & Hs1); [lia|done|done|].
  rewrite Hup. cbn [mbind option_bind].
  destruct (push_inv b k1 idx HI1) as (k2 & Hpush & HI2 & _); [lia| |].
  { intros Hb. rewrite !Hs1, decide_True by done. rewrite Hc1.
    split; [|done]. destruct (Hst Hb) as [_ Hout].
    specialize (Hout (Z.to_nat idx) (or_intror Hblk)).
    by rewrite Z2Nat.id in Hout. }
  rewrite Hpush. cbn [mbind option_bind].
  destruct (running_idx k2 =? -1); [by apply schedule_next_inv | by exists k2].
Qed.

Lemma drain_inter_line_inv (b : bool) (line : string) (k : Kernel) :
  Inv b k -> exists k', drain_inter_line line k = Some k' /\ Inv b k'.
Proof.
  intros HI. pose proof HI as (Hok & _).
  destruct (strcmp_eq line "IRQ0") eqn:E0.
  { apply String.eqb_eq in E0. subst line. by apply irq0_inv. }
  unfold drain_inter_line. rewrite E0.
  destruct (strcmp_eq line "IRQ1").
  { destruct (Nat.ltb_spec 0 (q_sz (file_req_q k))) as [Hne|?]; [|by exists k].
    destruct (ring_take_spec MAX_BLOCKED (file_req_q k)) as (x & q' & Ht & Hwf & _);
      [apply Hok | done |].
    rewrite Ht. cbn [mbind option_bind].
    apply unblock_owner_inv. by apply Inv_set_file_req_q. }
  destruct (strcmp_eq line "IRQ2"); [|by exists k].
  destruct (Nat.ltb_spec 0 (q_sz (dir_req_q k))) as [Hne|?]; [|by exists k].
  destruct (ring_take_spec MAX_BLOCKED (dir_req_q k)) as (x & q' & Ht & Hwf & _);
    [apply Hok | done |].
  rewrite Ht. cbn [mbind option_bind].
  apply unblock_owner_inv. by apply Inv_set_dir_req_q.
Qed.

Lemma handle_sfs_reply_inv (b : bool) (res_msg : SfpMessage) (k : Kernel) :
  Inv b k -> exists k', handle_sfs_reply res_msg k = Some k' /\ Inv b k'.
Proof.
  intros HI. pose proof HI as (Hok & _). unfold handle_sfs_reply.
  destruct ((msg_type res_msg =? SFP_MSG_RD_REP) || (msg_type res_msg =? SFP_MSG_WR_REP)).
  { destruct (Nat.ltb_spec (q_sz (file_req_q k)) MAX_BLOCKED) as [Hroom|?]; [|by exists k].
    destruct (ring_put_spec MAX_BLOCKED res_msg (file_req_q k)) as (q' & Hp & Hwf & _);
      [apply Hok | done |].
    rewrite Hp. cbn [mbind option_bind]. eexists. split; [done|].
    by apply Inv_set_file_req_q. }
  destruct ((msg_type res_msg =? SFP_MSG_DC_REP) || (msg_type res_msg =? SFP_MSG_DR_REP)
            || (msg_type res_msg =? SFP_MSG_DL_REP)); [|by exists k].
  destruct (Nat.ltb_spec (q_sz (dir_req_q k)) MAX_BLOCKED) as [Hroom|?]; [|by exists k].
  destruct (ring_put_spec MAX_BLOCKED res_msg (dir_req_q k)) as (q' & Hp & Hwf & _);
    [apply Hok | done |].
  rewrite Hp. cbn [mbind option_bind]. eexists. split; [done|].
  by apply Inv_set_dir_req_q.
Qed.

Lemma app_tick_inv (b : bool) (p c : Z) (k : Kernel) :
  Inv b k -> exists k', app_tick p c k = Some k' /\ Inv b k'.
Proof.
  intros HI. pose proof HI as (Hok & _). unfold app_tick.
  pose proof (pid_to_index_range k p) as Hidx. set (idx := pid_to_index k p) in *.
  destruct (Z.leb_spec 0 idx) as [Hge|?]; [|by exists k].
  rewrite pcb_state_nat by done.
  destruct (state_of_is_Some k (Z.to_nat idx)) as [s Hs];
    [apply Hok | unfold N_APPS in *; lia |].
  rewrite Hs. cbn [mbind option_bind].
  destruct (decide (s = TERMINATED)); [by exists k|].
  destruct (update_inv b k idx (with_pc c) HI)
    as (q & k1 & Hq & Hup & HI1 & _); [lia|done|by left|].
  by exists k1.
Qed.

(** The PCB at [idx] leaves the CPU for the state [s] (BLOCKED or
    TERMINATED); the common tail of the DONE, syscall and reap paths. *)
Lemma leave_cpu (b : bool) (k k1 : Kernel) (idx : Z) (s : ProcState) :
  Inv b k -> Inv b k1 -> 0 <= idx < Z.of_nat N_APPS ->
  s <> RUNNING ->
  running_idx k1 = running_idx k ->
  (forall i, state_of k1 i = if decide (i = Z.to_nat idx) then Some s else state_of k i) ->
  exists k', (if idx =? running_idx k1 then schedule_next (set_running_idx (-1) k1)
              else Some k1) = Some k' /\ Inv b k'.
Proof.
  intros HI HI1 Hidx Hs Hr Hst. destruct HI as (_ & Hun & _).
  destruct (Z.eqb_spec idx (running_idx k1)) as [Heq|Hne]; [|by exists k1].
  apply reschedule_inv; [done|]. intros i. rewrite Hst.
  case_decide; [congruence|]. intros Hi. apply Hun in Hi. lia.
Qed.

Lemma app_done_inv (b : bool) (p c : Z) (k : Kernel) :
  Inv b k -> exists k', app_done p c k = Some k' /\ Inv b k'.
Proof.
  intros HI. pose proof HI as (Hok & _). unfold app_done.
  pose proof (pid_to_index_range k p) as Hidx. set (idx := pid_to_index k p) in *.
  destruct (Z.leb_spec 0 idx) as [Hge|?]; [|by exists k].
  rewrite pcb_state_nat by done.
  destruct (state_of_is_Some k (Z.to_nat idx)) as [s Hs];
    [apply Hok | unfold N_APPS in *; lia |].
  rewrite Hs. cbn [mbind option_bind].
  destruct (decide (s = TERMINATED)); [by exists k|].
  destruct (update_inv b k idx (with_pc c) HI)
    as (q & k1 & Hq & Hup & HI1 & Hr1 & Hc1 & Hs1); [lia|done|by left|].
  rewrite Hup. cbn [mbind option_bind].
  destruct (update_inv b k1 idx (with_state TERMINATED) HI1)
    as (q2 & k2 & Hq2 & Hup2 & HI2 & Hr2 & Hc2 & Hs2); [lia|done|done|].
  rewrite Hup2. cbn [mbind option_bind].
  apply (leave_cpu b k k2 idx TERMINATED); try done; [lia|congruence|].
  intros i. rewrite Hs2, Hs1. cbn [with_state with_pc state].
  by repeat case_decide.
Qed.

Lemma reap_inv (b : bool) (p : Z) (k : Kernel) :
  Inv b k -> exists k', reap p k = Some k' /\ Inv b k'.
Proof.
  intros HI. pose proof HI as (Hok & _). unfold reap.
  pose proof (pid_to_index_range k p) as Hidx. set (idx := pid_to_index k p) in *.
  destruct (Z.leb_spec 0 idx) as [Hge|?]; [|by exists k].
  rewrite pcb_state_nat by done.
  destruct (state_of_is_Some k (Z.to_nat idx)) as [s Hs];
    [apply Hok | unfold N_APPS in *; lia |].
  rewrite Hs. cbn [mbind option_bind].
  destruct (decide (s = TERMINATED)); [by exists k|].
  destruct (update_inv b k idx (with_state TERMINATED) HI)
    as (q2 & k2 & Hq2 & Hup2 & HI2 & Hr2 & Hc2 & Hs2); [lia|done|done|].
  rewrite Hup2. cbn [mbind option_bind].
  apply (leave_cpu b k k2 idx TERMINATED); try done. lia.
Qed.

Lemma app_syscall_inv (b : bool) (p : Z) (req_msg : SfpMessage) (k : Kernel) :
  Inv b k -> (b = true -> pid_to_index k p ∉ rq_contents k) ->
  exists k', app_syscall p req_msg k = Some k' /\ Inv b k'.
Proof.
  intros HI Hturn. pose proof HI as (Hok & _). unfold app_syscall.
  pose proof (pid_to_index_range k p) as Hidx. set (idx := pid_to_index k p) in *.
  destruct (Z.eqb_spec idx (-1)) as [?|Hne]; [by exists k|]. cbn [negb].
  destruct (Z.leb_spec 0 idx) as [Hge|?]; [|by exists k].
  rewrite pcb_state_nat by done.
  destruct (state_of_is_Some k (Z.to_nat idx)) as [s Hs];
    [apply Hok | unfold N_APPS in *; lia |].
  rewrite Hs. cbn [mbind option_bind].
  destruct (decide (s = TERMINATED)); [by exists k|].
  destruct (update_inv b k idx (with_state BLOCKED) HI)
    as (q & k1 & Hq & Hup & HI1 & Hr1 & Hc1 & Hs1); [lia|done| |].
  { intros Hb q _. right. by apply Hturn. }
  rewrite Hup. cbn [mbind option_bind].
  destruct (update_inv b k1 idx (with_pending req_msg) HI1)
    as (q2 & k2 & Hq2 & Hup2 & HI2 & Hr2 & Hc2 & Hs2); [lia|done|by left|].
  rewrite Hup2. cbn [mbind option_bind].
  destruct (Z.eqb_spec idx (running_idx k2)) as [Heq|Hneq].
  - destruct (leave_cpu b k k2 idx BLOCKED HI HI2) as (k' & Hk' & HI'); try done.
    + lia.
    + congruence.
    + intros i. rewrite Hs2, Hs1. cbn [with_state with_pending state].
      assert (Hq2s : state q2 = BLOCKED).
      { pose proof (Hs1 (Z.to_nat idx)) as H. unfold state_of in H.
        rewrite Hq2, decide_True in H by done. by injection H. }
      rewrite Hq2s. by repeat case_decide.
    + rewrite <- Heq, Z.eqb_refl in Hk'. by exists k'.
  - destruct (running_idx k2 =? -1); [by apply schedule_next_inv | by exists k2].
Qed.

(** Every event is handled (no array is indexed out of bounds, the
    scheduler returns) and the invariant is kept. *)
Lemma step_inv (b : bool) (e : event) (k : Kernel) :
  Inv b k -> (b = true -> in_turn k e) ->
  exists k', step e k = Some k' /\ Inv b k'.
Proof.
  intros HI Hturn. destruct e; cbn [step].
  - by apply drain_inter_line_inv.
  - by apply app_tick_inv.
  - by apply app_done_inv.
  - by apply app_syscall_inv.
  - by apply handle_sfs_reply_inv.
  - by apply reap_inv.
Qed.


Lemma Inv_weaken (k : Kernel) : Inv true k -> Inv false k.
Proof. intros (Hok & Hun & _). split; [done|]. split; [done|]. intros [=]. Qed.

(** The state [run_kernel] sets up before it fills the ready queue. *)
Lemma boot_pushes (idxs : list nat) :
  forall k,
    Inv true k -> NoDup idxs ->
    (forall i, i ∈ idxs -> (i < N_APPS)%nat /\ Z.of_nat i ∉ rq_contents k) ->
    (forall i, state_of k i <> Some RUNNING /\ state_of k i <> Some BLOCKED) ->
    exists k',
      foldl (fun ok i => k ← ok; rq_push_tail (Z.of_nat i) k) (Some k) idxs = Some k' /\
      Inv true k' /\
      (forall i, state_of k' i <> Some RUNNING).
Proof.
  induction idxs as [|i idxs IH]; intros k HI Hnd Hfresh Hstates.
  { exists k. split; [done|]. split; [done|]. intros i. apply Hstates. }
  apply NoDup_cons in Hnd as [Hi Hnd]. cbn [foldl mbind option_bind].
  destruct (Hfresh i) as [Hlt Hnotin]; [by left|].
  destruct (push_inv true k (Z.of_nat i) HI) as (k1 & Hpush & HI1 & Hpc & _ & Hc).
  { unfold N_APPS in *. lia. }
  { intros _. rewrite Nat2Z.id. split; [done|]. apply Hstates. }
  rewrite Hpush. apply IH; [done|done| |].
  - intros j Hj. destruct (Hfresh j) as [Hjlt Hjn]; [by right|]. split; [done|].
    destruct Hc as [[-> _]|[-> _]]; [done|].
    rewrite elem_of_app, list_elem_of_singleton.
    intros [?|Heq]; [done|]. apply Nat2Z.inj in Heq. by subst.
  - intros j. unfold state_of. rewrite Hpc. apply Hstates.
Qed.

Lemma boot_inv (fork_pid : nat -> Z) :
  exists k, boot fork_pid = Some k /\ Inv true k.
Proof.
  unfold boot.
  set (k0 := mkKernel _ _ _ _ _ _).
  assert (Hs0 : forall i, state_of k0 i <> Some RUNNING /\ state_of k0 i <> Some BLOCKED).
  { intros i. unfold state_of. cbn [pcbs k0]. rewrite list_lookup_fmap.
    by destruct (seq 0 N_APPS !! i). }
  assert (HI0 : Inv true k0).
  { split; [|split].
    - constructor; try done;
        unfold ring_wf, k0; cbn [rq file_req_q dir_req_q arr q_h q_t q_sz];
        rewrite length_replicate; unfold MAX_READY, MAX_BLOCKED, N_APPS;
        repeat split; try done; lia.
    - intros i Hi. by destruct (Hs0 i).
    - intros _. split; [apply NoDup_nil_2|]. intros i _. apply not_elem_of_nil. }
  destruct (boot_pushes (seq 0 N_APPS) k0 HI0) as (k1 & Hk1 & HI1 & Hnone).
  - apply NoDup_seq.
  - intros i Hi. apply elem_of_seq in Hi. split; [lia | apply not_elem_of_nil].
  - exact Hs0.
  - rewrite Hk1. cbn [mbind option_bind]. by apply reschedule_inv.
Qed.

Lemma reachable_Inv (fork_pid : nat -> Z) (k : Kernel) :
  reachable fork_pid k -> Inv false k.
Proof.
  induction 1 as [k Hboot|k e k' _ IH Hstep].
  - destruct (boot_inv fork_pid) as (k0 & Hk0 & HI). rewrite Hk0 in Hboot.
    injection Hboot as <-. by apply Inv_weaken.
  - destruct (step_inv false e k IH) as (k2 & Hk2 & HI2); [done|].
    rewrite Hk2 in Hstep. by injection Hstep as <-.
Qed.

Lemma reachable_in_turn_Inv (fork_pid : nat -> Z) (k : Kernel) :
  reachable_in_turn fork_pid k -> Inv true k.
Proof.
  induction 1 as [k Hboot|k e k' _ IH Hturn Hstep].
  - destruct (boot_inv fork_pid) as (k0 & Hk0 & HI). rewrite Hk0 in Hboot.
    by injection Hboot as <-.
  - destruct (step_inv true e k IH) as (k2 & Hk2 & HI2); [done|].
    rewrite Hk2 in Hstep. by injection Hstep as <-.
Qed.

(** From a reachable state every event is handled: no array is indexed out
    of its bounds and [schedule_next] returns. *)
Lemma reachable_step_total (fork_pid : nat -> Z) (k : Kernel) (e : event) :
  reachable fork_pid k -> exists k', step e k = Some k'.
Proof.
  intros Hk. destruct (step_inv false e k) as (k' & Hk' & _);
    [by eapply reachable_Inv | done | by exists k'].
Qed.

Lemma run_reachable (fork_pid : nat -> Z) (es : list event) :
  forall k k', reachable fork_pid k -> run es k = Some k' -> reachable fork_pid k'.
Proof.
  induction es as [|e es IH]; intros k k' Hk Hrun; cbn [run] in Hrun.
  - by injection Hrun as <-.
  - destruct (step e k) as [k1|] eqn:Hstep; [|done]. cbn [mbind option_bind] in Hrun.
    eapply IH; [|done]. by eapply reach_step.
Qed.

(** C3 -- In every reachable kernel state at most one PCB is RUNNING, and
    a RUNNING PCB is the one [running_idx] designates. *)
Theorem at_most_one_running (fork_pid : nat -> Z) (k : Kernel) :
  reachable fork_pid k ->
  (forall i j, state_of k i = Some RUNNING -> state_of k j = Some RUNNING -> i = j) /\
  (forall i, state_of k i = Some RUNNING -> running_idx k = Z.of_nat i).
Proof.
  intros Hk. destruct (reachable_Inv _ _ Hk) as (_ & Hun & _).
  split; [|exact Hun].
  intros i j Hi Hj. apply Hun in Hi, Hj. lia.
Qed.

(** C2 (as the code has it) -- Along every run in which no syscall line
    is received from a PCB whose index is waiting in the ready queue, each
    index occurs at most once between the queue's head and tail. *)
Theorem ready_queue_no_duplicates (fork_pid : nat -> Z) (k : Kernel) :
  reachable_in_turn fork_pid k -> NoDup (rq_contents k).
Proof.
  intros Hk. destruct (reachable_in_turn_Inv _ _ Hk) as (_ & _ & Hst).
  by destruct (Hst eq_refl).
Qed.

(** Only the RUNNING process issuing syscalls is a special case of a run
    whose syscalls are in turn. *)
Lemma running_is_in_turn (fork_pid : nat -> Z) (k : Kernel) (p : Z) (m : SfpMessage) :
  reachable_in_turn fork_pid k ->
  pcb_state k (pid_to_index k p) = Some RUNNING ->
  in_turn k (AppSyscall p m).
Proof.
  intros Hk Hrun. destruct (reachable_in_turn_Inv _ _ Hk) as (_ & _ & Hst).
  destruct (Hst eq_refl) as [_ Hout]. cbn [in_turn].
  pose proof (pid_to_index_range k p) as Hr.
  destruct (Z.leb_spec 0 (pid_to_index k p)) as [Hge|Hlt].
  - rewrite pcb_state_nat in Hrun by done.
    specialize (Hout _ (or_introl Hrun)). by rewrite Z2Nat.id in Hout.
  - unfold pcb_state, at_idx in Hrun.
    destruct (Z.ltb_spec (pid_to_index k p) 0); [done|lia].
Qed.

End KernelInvariant.

Lemma boot_run_reachable (fork_pid : nat -> Z) (es : list event) (k : Kernel) :
  boot fork_pid ≫= run es = Some k -> reachable fork_pid k.
Proof.
  destruct (boot fork_pid) as [k0|] eqn:Hboot; [|done]. cbn [mbind option_bind].
  apply run_reachable. by apply reach_boot.
Qed.

Lemma boot_run_reachable_in_turn (fork_pid : nat -> Z) (k : Kernel) :
  boot fork_pid ≫= step (InterLine "IRQ0") = Some k -> reachable_in_turn fork_pid k.
Proof.
  destruct (boot fork_pid) as [k0|] eqn:Hboot; [|done]. cbn [mbind option_bind].
  intros Hstep.
  apply (reach_it_step fork_pid k0 (InterLine "IRQ0") k);
    [by apply reach_it_boot | exact I | done].
Qed.


Example late_syscall_queue :
  rq_contents <$> (boot pids0 ≫= run late_syscall_trace) = Some [2; 3; 4; 0; 0].
Proof. vm_compute. reflexivity. Qed.

Example late_syscall_states :
  (fun k => (map state (pcbs k), running_idx k)) <$> (boot pids0 ≫= run late_syscall_trace)
  = Some ([READY; RUNNING; READY; READY; READY], 1).
Proof. vm_compute. reflexivity. Qed.

Example first_quantum_queue :
  rq_contents <$> (boot pids0 ≫= step (InterLine "IRQ0")) = Some [2; 3; 4; 0].
Proof. vm_compute. reflexivity. Qed.

(** C2, as stated, fails: when A1's syscall line is read after the IRQ0
    that put A1 back in the queue, A1 blocks while queued, and the dispatch
    of its reply pushes index 0 a second time. *)
Lemma ready_queue_duplicate :
  exists k, reachable pids0 k /\ rq_contents k = [2; 3; 4; 0; 0] /\
            ~ NoDup (rq_contents k).
Proof.
  pose proof late_syscall_queue as Hq.
  destruct (boot pids0 ≫= run late_syscall_trace) as [k|] eqn:Hrun; [|discriminate Hq].
  injection Hq as Hq. exists k.
  split; [by eapply boot_run_reachable|]. split; [done|].
  rewrite Hq. intros Hnd.
  apply NoDup_cons in Hnd as [_ Hnd]. apply NoDup_cons in Hnd as [_ Hnd].
  apply NoDup_cons in Hnd as [_ Hnd]. apply NoDup_cons in Hnd as [Hnd _].
  apply Hnd. by left.
Qed.

Lemma at_most_one_running_witness :
  exists k, boot pids0 ≫= run late_syscall_trace = Some k /\
    (forall i j, state_of k i = Some RUNNING -> state_of k j = Some RUNNING -> i = j) /\
    (forall i, state_of k i = Some RUNNING -> running_idx k = Z.of_nat i).
Proof.
  pose proof late_syscall_queue as Hq.
  destruct (boot pids0 ≫= run late_syscall_trace) as [k|] eqn:Hrun; [|discriminate Hq].
  exists k. split; [reflexivity|].
  apply (at_most_one_running pids0 k). by apply boot_run_reachable in Hrun.
Defined.

Lemma ready_queue_no_duplicates_witness :
  exists k, boot pids0 ≫= step (InterLine "IRQ0") = Some k /\ NoDup (rq_contents k).
Proof.
  pose proof first_quantum_queue as Hq.
  destruct (boot pids0 ≫= step (InterLine "IRQ0")) as [k|] eqn:Hrun; [|discriminate Hq].
  exists k. split; [reflexivity|].
  apply (ready_queue_no_duplicates pids0 k). by apply boot_run_reachable_in_turn in Hrun.
Defined.

(** ** Exit codes *)

Section ExitCodes.

Lemma fork_apps_exits (e : Env) (idxs : list nat) (c : Z) :
  fork_apps e idxs = Exits c -> c = EXIT_FAILURE.
Proof.
  induction idxs as [|i idxs IH]; cbn [fork_apps]; [done|].
  unfold die.
  destruct (k_shmget_ok _); cbn [negb]; [|by intros [= <-]].
  destruct (k_shmat_ok _); cbn [negb]; [|by intros [= <-]].
  destruct (k_fork _); [by intros [= <-]| |exact IH].
  destruct (k_exec_ok _); [done | by intros [= <-]].
Qed.

Lemma fork_apps_fatal (e : Env) (idxs : list nat) :
  first_app_event e idxs = Some true -> fork_apps e idxs = Exits EXIT_FAILURE.
Proof.
  induction idxs as [|i idxs IH]; cbn [fork_apps first_app_event]; [done|].
  unfold app_start_failed, die.
  destruct (k_shmget_ok _); cbn [negb orb]; [|done].
  destruct (k_shmat_ok _); cbn [negb orb]; [|done].
  destruct (k_fork _); [done| |exact IH].
  by destruct (k_exec_ok _).
Qed.

Lemma run_kernel_exits (e : Env) (c : Z) :
  run_kernel e = Exits c -> c = EXIT_FAILURE.
Proof.
  unfold run_kernel, die.
  destruct (socket_ok e); cbn [negb]; [|by intros [= <-]].
  destruct (inet_pton_ok e); cbn [negb]; [|by intros [= <-]].
  destruct (negb (pipe_inter_ok e) || negb (pipe_app_ok e)); [by intros [= <-]|].
  destruct (fork_inter e); [by intros [= <-]| |].
  - destruct (exec_inter_ok e); [done | by intros [= <-]].
  - destruct (fork_apps e (seq 0 N_APPS)) eqn:E; try done.
    + by destruct (all_apps_terminate e).
    + intros [= <-]. by apply fork_apps_exits in E.
Qed.

Lemma run_kernel_fatal (e : Env) :
  fatal_startup e = true -> run_kernel e = Exits EXIT_FAILURE.
Proof.
  unfold fatal_startup, run_kernel, die.
  destruct (socket_ok e); cbn [negb orb]; [|done].
  destruct (inet_pton_ok e); cbn [negb orb]; [|done].
  destruct (pipe_inter_ok e); cbn [negb orb]; [|done].
  destruct (pipe_app_ok e); cbn [negb orb]; [|done].
  destruct (fork_inter e); [done| |].
  - by destruct (exec_inter_ok e).
  - destruct (first_app_event e (seq 0 N_APPS)) as [[|]|] eqn:E; try done.
    intros _. by rewrite (fork_apps_fatal _ _ E).
Qed.

Lemma run_app_outcome (e : Env) (id : Z) :
  run_app e id = Forever \/ run_app e id = Exits 0 \/ run_app e id = Exits 1.
Proof.
  unfold run_app. destruct (app_resumed e); cbn [negb]; [|by left].
  destruct (a_shmget_ok _); cbn [negb]; [|by right; right].
  destruct (a_shmat_ok _); cbn [negb]; [by right; left | by right; right].
Qed.

Lemma atoi_is_int (s : string) : - 2 ^ 31 <= atoi s < 2 ^ 31.
Proof.
  unfold atoi, int_of_long.
  pose proof (Z.mod_pos_bound (strtol s + 2 ^ 31) (2 ^ 32) ltac:(lia)). lia.
Qed.

Lemma main_app (e : Env) (prog a : string) (rest : list string) :
  main e (prog :: "app" :: a :: rest) = run_app e (clamp_id (atoi a)).
Proof.
  unfold main. cbn [length Nat.eqb Nat.leb argv_at nth andb].
  change (strcmp_eq "app" "inter") with false.
  change (strcmp_eq "app" "app") with true. cbn iota.
  fold (clamp_id (atoi a)).
  by destruct (run_app_outcome e (clamp_id (atoi a))) as [-> | [-> | ->]].
Qed.

(** C10 (as the code has it) -- The process exits with 0 on a clean exit
    and with 1 both on bad arguments and on every fatal start-up failure
    ([die] calls [exit(EXIT_FAILURE)]); no other exit code occurs.  For
    [app <k>] the id is the [int] that [atoi] makes of the argument, and it
    is clamped: a value outside 1..5 runs as application A1. *)
Theorem exit_codes (e : Env) (argv : list string) :
  (forall c, main e argv = Exits c -> c = 0 \/ c = 1) /\
  (length argv = 1%nat -> run_kernel e = Returns -> main e argv = Exits 0) /\
  (length argv = 1%nat -> fatal_startup e = true -> main e argv = Exits 1) /\
  (bad_args argv = true -> main e argv = Exits 1) /\
  (forall prog a rest, argv = prog :: "app"%string :: a :: rest ->
     main e argv = run_app e (clamp_id (atoi a)) /\
     - 2 ^ 31 <= atoi a < 2 ^ 31 /\
     (~ 1 <= atoi a <= 5 -> main e argv = run_app e 1)).
Proof.
  split; [|split; [|split; [|split]]].
  - intros c. destruct argv as [|prog [|mode rest]].
    + cbn. intros [= <-]. by right.
    + unfold main. cbn [length Nat.eqb]. destruct (run_kernel e) eqn:E; cbn.
      * intros [= <-]. by left.
      * intros [= <-]. right. by apply run_kernel_exits in E.
      * done.
      * done.
    + unfold main. cbn [length Nat.eqb Nat.leb argv_at nth andb].
      destruct (strcmp_eq mode "inter"); [done|].
      destruct rest as [|a rest].
      * cbn [length Nat.leb Nat.eqb andb]. rewrite andb_false_r.
        intros [= <-]. by right.
      * cbn [length Nat.leb andb].
        destruct (strcmp_eq mode "app").
        -- cbn zeta iota.
           match goal with
           | |- context [run_app e ?x] =>
               destruct (run_app_outcome e x) as [-> | [-> | ->]]
           end; cbn; intros [= <-]; auto.
        -- cbn [andb]. intros [= <-]. by right.
  - intros Hlen Hret. destruct argv as [|prog [|]]; try done.
    unfold main. cbn [length Nat.eqb]. by rewrite Hret.
  - intros Hlen Hfatal. destruct argv as [|prog [|]]; try done.
    unfold main. cbn [length Nat.eqb]. by rewrite run_kernel_fatal.
  - destruct argv as [|prog [|mode rest]]; [done|done|].
    unfold bad_args, main, strcmp_eq. cbn [length Nat.eqb Nat.leb argv_at nth andb].
    destruct (String.eqb mode "inter"); [done|]. cbn [negb andb].
    destruct rest as [|a rest].
    + cbn [length Nat.leb Nat.eqb andb]. intros _. by rewrite andb_false_r.
    + rewrite bool_decide_eq_false_2 by done. cbn [negb length Nat.leb andb].
      rewrite andb_true_r. by destruct (String.eqb mode "app").
  - intros prog a rest ->. split; [apply main_app|].
    split; [apply atoi_is_int|].
    intros Hout. rewrite main_app. f_equal. unfold clamp_id, N_APPS.
    destruct (Z.ltb_spec (atoi a) 1); [done|].
    destruct (Z.ltb_spec (Z.of_nat 5) (atoi a)); [done|]. lia.
Qed.

End ExitCodes.

(** C10, as stated, fails: when the UDP socket cannot be created the kernel
    process exits with [EXIT_FAILURE], which is 1, not 2. *)
Lemma fatal_startup_exits_1 :
  fatal_startup env_no_socket = true /\
  main env_no_socket ["KernelSim_T2"] = Exits 1 /\
  main env_no_socket ["KernelSim_T2"] <> Exits 2.
Proof. by repeat split. Qed.

Example clean_exit_is_0 : main env_ok ["KernelSim_T2"] = Exits 0.
Proof. reflexivity. Qed.

Example usage_exit_is_1 : main env_ok ["KernelSim_T2"; "bogus"] = Exits 1.
Proof. reflexivity. Qed.

Example app_without_id_is_usage : main env_ok ["KernelSim_T2"; "app"] = Exits 1.
Proof. reflexivity. Qed.

Example app_id_out_of_range_runs_as_A1 :
  main env_ok ["KernelSim_T2"; "app"; "9"] = run_app env_ok 1 /\
  main env_ok ["KernelSim_T2"; "app"; "abc"] = run_app env_ok 1 /\
  main env_ok ["KernelSim_T2"; "app"; "0"] = run_app env_ok 1.
Proof. by repeat split. Qed.

(** The id is an [int]: a number too large for one is read through its low
    32 bits, so [app 4294967298] is application A2 and [app 4294967305],
    whose low bits make 9, is clamped to A1. *)
Example app_id_is_an_int :
  atoi "4294967298" = 2 /\
  main env_ok ["KernelSim_T2"; "app"; "4294967298"] = run_app env_ok 2 /\
  atoi "4294967305" = 9 /\
  main env_ok ["KernelSim_T2"; "app"; "4294967305"] = run_app env_ok 1 /\
  atoi "99999999999999999999" = -1 /\
  atoi " -12abc" = -12.
Proof. by vm_compute. Qed.

(** ** Worked instances *)

Lemma remove_then_read_witness :
  let w1 := (serve root0 (wr_req 1 "/A1/file.txt" 0 hello) w0).2 in
  fs w1 !! full_path_of root0 "/A1/file.txt" = Some (NFile hello) /\
  offset (serve root0 (wr_req 1 "/A1/file.txt" 0 (replicate 16 "000"%byte)) w1).1 = 0 /\
  offset (serve root0 (rd_req 1 "/A1/file.txt" 0)
            (serve root0 (wr_req 1 "/A1/file.txt" 0 (replicate 16 "000"%byte)) w1).2).1
  = SFP_ERR_NOT_FOUND.
Proof.
  intros w1.
  assert (Hfile : fs w1 !! full_path_of root0 "/A1/file.txt" = Some (NFile hello))
    by (vm_compute; reflexivity).
  split; [exact Hfile|].
  pose proof (remove_then_read root0 1 "/A1/file.txt" (replicate 16 "000"%byte) hello 0 w1
                eq_refl eq_refl Hfile) as H.
  change (pending w1) with (@None nat) in H. cbn zeta iota in H.
  destruct H as (H0 & _ & Hrd). split; [exact H0|]. by apply Hrd.
Defined.




Example hole_fill_failure_is_io :
  offset (serve root0 (wr_req 1 "/A1/file.txt" 48 hello)
            (mkWorld fs0 [None; None; None; Some O])).1 = SFP_ERR_IO.
Proof. vm_compute. reflexivity. Qed.

Example short_write_is_io :
  offset (serve root0 (wr_req 1 "/A1/file.txt" 0 hello)
            (mkWorld fs0 [None; None; Some 5%nat])).1 = SFP_ERR_IO.
Proof. vm_compute. reflexivity. Qed.

Example flush_failure_is_io :
  offset (serve root0 (wr_req 1 "/A1/file.txt" 16 hello)
            (mkWorld fs0 (replicate 18 None ++ [Some O]))).1 = SFP_ERR_IO.
Proof. vm_compute. reflexivity. Qed.

Example unlink_failure_is_io :
  offset (serve root0 (wr_req 1 "/A1/file.txt" 0 (replicate 16 "000"%byte))
            (mkWorld (<["sfss_root/A1/file.txt" := NFile hello]> fs0) [Some O])).1
  = SFP_ERR_IO.
Proof. vm_compute. reflexivity. Qed.

(** The specification's scenarios 2 and 3. *)
Example scenario_write_then_read :
  let w1 := (serve root0 (wr_req 1 "/A1/file.txt" 0 hello) w0).2 in
  let rep := (serve root0 (rd_req 1 "/A1/file.txt" 0) w1).1 in
  msg_type rep = SFP_MSG_RD_REP /\ offset rep = 0 /\ payload rep = hello.
Proof. vm_compute. by repeat split. Qed.

Example scenario_sparse_fill :
  fs (serve root0 (wr_req 2 "/A2/file.txt" 48 hello) w0).2 !! "sfss_root/A2/file.txt"
  = Some (NFile (replicate 48 space_byte ++ hello)).
Proof. vm_compute. reflexivity. Qed.


Lemma write_then_read_witness :
  payload (serve root0 (rd_req 1 "/A1/file.txt" 48)
             (serve root0 (wr_req 1 "/A1/file.txt" 48 hello) w0).2).1 = hello /\
  offset (serve root0 (rd_req 1 "/A1/file.txt" 48)
            (serve root0 (wr_req 1 "/A1/file.txt" 48 hello) w0).2).1 = 48.
Proof.
  apply (write_then_read root0 1 "/A1/file.txt" 48 hello w0);
    [reflexivity | reflexivity | left; discriminate | vm_compute; discriminate
    | reflexivity | reflexivity].
Defined.


(** * Further properties of the code *)

Section IoSpec.

Context {A B : Type}.

Lemma io_spec_ret (R : relation (gmap string node)) `{!Reflexive R}
    (P : A -> Prop) (a : A) :
  P a -> io_spec R P (mret a).
Proof. intros Ha w. split; [reflexivity | exact Ha]. Qed.

Lemma io_spec_bind (R : relation (gmap string node)) `{!Transitive R}
    (P : A -> Prop) (Q : B -> Prop) (m : IO A) (k : A -> IO B) :
  io_spec R P m -> (forall a, P a -> io_spec R Q (k a)) -> io_spec R Q (m ≫= k).
Proof.
  intros Hm Hk w. unfold mbind, IO_bind.
  destruct (Hm w) as [HR HP]. destruct (m w) as [a w1]. simpl in HR, HP.
  destruct (Hk a HP w1) as [HR' HQ]. split; [by etrans | done].
Qed.

Lemma io_spec_weaken (R R' : relation (gmap string node)) (P P' : A -> Prop) (m : IO A) :
  (forall x y, R x y -> R' x y) -> (forall a, P a -> P' a) ->
  io_spec R P m -> io_spec R' P' m.
Proof. intros HR HP Hm w. destruct (Hm w). split; auto. Qed.

End IoSpec.

#[local] Instance same_except_refl (p : string) : Reflexive (same_except p).
Proof. by intros m p' Hp. Qed.

#[local] Instance same_except_trans (p : string) : Transitive (same_except p).
Proof. intros m1 m2 m3 H12 H23 p' Hp. by rewrite H23, H12. Qed.

Lemma eq_same_except (p : string) (m m' : gmap string node) :
  m = m' -> same_except p m m'.
Proof. by intros -> p' Hp. Qed.

Lemma same_except_insert (p : string) (m : gmap string node) (x : node) :
  same_except p m (<[p := x]> m).
Proof. intros p' Hp. by rewrite lookup_insert_ne. Qed.

Lemma same_except_delete (p : string) (m : gmap string node) :
  same_except p m (delete p m).
Proof. intros p' Hp. by rewrite lookup_delete_ne. Qed.

Section HostCalls.

Lemma fopen_rb_io (p : string) :
  io_spec eq (fun o => forall f, o = Some f -> f_path f = p) (fopen p RB).
Proof.
  intros w. unfold fopen. io. rewrite next_fault_eq. simpl.
  destruct (pending w); simpl; [done|].
  destruct (fs w !! p) as [[d|]|]; simpl; split; try done. by intros f [= <-].
Qed.

Lemma fopen_io (p : string) (mode : fmode) :
  io_spec (same_except p) (fun o => forall f, o = Some f -> f_path f = p) (fopen p mode).
Proof.
  intros w. unfold fopen. io. rewrite next_fault_eq. simpl.
  destruct (pending w); simpl; [done|].
  destruct (fs w !! p) as [[d|]|], mode; simpl;
    try (split; [done | by intros f [= <-]]);
    try (split; [apply same_except_insert | by intros f [= <-]]); try done.
  destruct (is_dir_at (fs w) (parent_of p)); simpl;
    [split; [apply same_except_insert | by intros f [= <-]] | done].
Qed.

Lemma fseek_io (f : FILE) (off : Z) (wh : whence) :
  io_spec eq (fun r => f_path r.2 = f_path f) (fseek f off wh).
Proof.
  intros w. unfold fseek. io.
  destruct (f_dirty f); simpl.
  - rewrite next_fault_eq. simpl. destruct (pending w); simpl; [done|].
    by case_match.
  - by case_match.
Qed.

Lemma fwrite_io (f : FILE) (buf : list byte) :
  io_spec (same_except (f_path f)) (fun r => f_path r.2 = f_path f) (fwrite f buf).
Proof.
  intros w. unfold fwrite. io. rewrite next_fault_eq. simpl.
  destruct (fs w !! f_path f) as [[d|]|]; simpl; try done.
  case_match; simpl; [done|]. split; [apply same_except_insert | done].
Qed.

Lemma fread_io (f : FILE) (n : nat) :
  io_spec eq (fun r => (length r.1 <= n)%nat) (fread f n).
Proof.
  intros w. unfold fread. io. rewrite next_fault_eq. simpl.
  destruct (fs w !! f_path f) as [[d|]|]; simpl; try (split; [done|lia]).
  split; [done|].
  destruct (pending w); rewrite ?length_take; lia.
Qed.

Lemma fclose_io (f : FILE) : io_spec eq (fun _ => True) (fclose f).
Proof. by intros w. Qed.

Lemma unlink_io (p : string) : io_spec (same_except p) (fun _ => True) (unlink p).
Proof.
  intros w. unfold unlink. io. rewrite next_fault_eq. simpl.
  destruct (pending w); simpl; [done|].
  destruct (fs w !! p) as [[d|]|]; simpl; try done.
  split; [apply same_except_delete | done].
Qed.

Lemma mkdir_io (p : string) : io_spec (same_except p) (fun _ => True) (mkdir p).
Proof.
  intros w. unfold mkdir. io. rewrite next_fault_eq. simpl.
  destruct (pending w); simpl; [done|].
  destruct (fs w !! p) as [[d|]|]; simpl; try done.
  destruct (is_dir_at (fs w) (parent_of p)); simpl; [|done].
  split; [apply same_except_insert | done].
Qed.

Lemma rmdir_io (p : string) : io_spec (same_except p) (fun _ => True) (rmdir p).
Proof.
  intros w. unfold rmdir. io. rewrite next_fault_eq. simpl.
  destruct (pending w); simpl; [done|].
  destruct (fs w !! p) as [[d|]|]; simpl; try done.
  destruct (children (fs w) p); simpl; [|done].
  split; [apply same_except_delete | done].
Qed.

Lemma opendir_io (p : string) : io_spec eq (fun _ => True) (opendir p).
Proof.
  intros w. unfold opendir. io. rewrite next_fault_eq. simpl.
  destruct (pending w); simpl; [done|].
  by destruct (fs w !! p) as [[d|]|].
Qed.

Lemma stat_io (p : string) : io_spec eq (fun _ => True) (stat p).
Proof. intros w. rewrite stat_run. by split. Qed.

Lemma fill_hole_io (n : nat) :
  forall f, io_spec (same_except (f_path f)) (fun r => f_path r.2 = f_path f)
                    (fill_hole n f).
Proof.
  induction n as [|n IH]; intros f; cbn [fill_hole].
  - by apply io_spec_ret.
  - eapply io_spec_bind; [apply _ | apply fwrite_io |].
    intros [k f1] Hf1. simpl in Hf1.
    destruct (Nat.eqb k 1); [|by apply io_spec_ret].
    rewrite <- Hf1. apply IH.
Qed.

End HostCalls.

Ltac io_step tac := eapply io_spec_bind; [apply _ | tac | ].
Ltac io_still tac :=
  eapply io_spec_bind;
  [apply _ | eapply io_spec_weaken; [apply eq_same_except | intros ? HP; exact HP | tac] | ].

Section Handlers.

Variable root : string.

Lemma reply_to_offset (req res : SfpMessage) (ty v : Z) :
  reply_to req ty res -> reply_to req ty (set_offset v res).
Proof. by intros (? & ? & ? & ? & ?). Qed.

Lemma reply_to_path_len (req res : SfpMessage) (ty v : Z) :
  reply_to req ty res -> reply_to req ty (set_path_len v res).
Proof. by intros (? & ? & ? & ? & ?). Qed.

Lemma reply_to_path (req res : SfpMessage) (ty : Z) (v : string) :
  reply_to req ty res -> reply_to req ty (set_path v res).
Proof. by intros (? & ? & ? & ? & ?). Qed.

Lemma reply_to_nrnames (req res : SfpMessage) (ty v : Z) :
  reply_to req ty res -> reply_to req ty (set_nrnames v res).
Proof. by intros (? & ? & ? & ? & ?). Qed.

Lemma handle_rd_req_io (req res : SfpMessage) :
  reply_shape res ->
  io_spec eq (reply_to req SFP_MSG_RD_REP) (handle_rd_req root req res).
Proof.
  intros (Hp & Hf & Ha). unfold handle_rd_req.
  set (res0 := set_payload _ _).
  assert (H0 : reply_to req SFP_MSG_RD_REP res0) by done.
  destruct (negb _); [by apply io_spec_ret, reply_to_offset|].
  io_step ltac:(apply fopen_rb_io).
  intros [file|] _; [|by apply io_spec_ret, reply_to_offset].
  io_step ltac:(apply fseek_io). intros [rc file1] _.
  destruct (_ && _).
  { io_step ltac:(apply fclose_io). intros _ _. by apply io_spec_ret, reply_to_offset. }
  io_step ltac:(apply fseek_io). intros [rc2 file2] _.
  io_step ltac:(apply fread_io). intros [got file3] Hgot. simpl in Hgot.
  io_step ltac:(apply fclose_io). intros _ _.
  apply io_spec_ret; [apply _|].
  split; [done|]. split; [done|]. split; [|done].
  cbn [payload set_payload]. rewrite length_app, length_drop.
  unfold res0. cbn [payload set_payload]. rewrite length_replicate. lia.
Qed.

Lemma handle_wr_req_io (req res : SfpMessage) :
  reply_shape res ->
  io_spec (same_except (full_path_of root (path req))) (reply_to req SFP_MSG_WR_REP)
          (handle_wr_req root req res).
Proof.
  intros (Hp & Hf & Ha). unfold handle_wr_req.
  fold (full_path_of root (path req)). set (fp := full_path_of root (path req)).
  set (res0 := set_offset _ _).
  assert (H0 : reply_to req SFP_MSG_WR_REP res0) by done.
  destruct (negb _); [by apply io_spec_ret, reply_to_offset|].
  destruct (_ && _).
  { io_step ltac:(apply unlink_io). intros [|] _; by apply io_spec_ret, reply_to_offset. }
  io_step ltac:(apply (fopen_io fp RPB)). intros o Ho.
  eapply (io_spec_bind _ (fun o => forall f, o = Some f -> f_path f = fp)).
  { destruct o as [f|]; [by apply io_spec_ret | apply fopen_io]. }
  clear o Ho. intros [file|] Hfile; [|by apply io_spec_ret, reply_to_offset].
  specialize (Hfile _ eq_refl).
  io_still ltac:(apply fseek_io). intros [rc file1] Hf1. simpl in Hf1.
  eapply (io_spec_bind _ (fun r => f_path r.2 = fp)).
  { destruct (_ <? _); [|by apply io_spec_ret; [apply _ | simpl; congruence]].
    io_still ltac:(apply fseek_io). intros [rc2 file2] Hf2. simpl in Hf2.
    eapply io_spec_weaken; [| |apply fill_hole_io].
    - intros x y. by rewrite Hf2, Hf1, Hfile.
    - intros r Hr. simpl in Hr. congruence. }
  intros [filled file2] Hf2. simpl in Hf2.
  destruct (negb filled).
  { io_still ltac:(apply fclose_io). intros _ _. by apply io_spec_ret, reply_to_offset. }
  io_still ltac:(apply fseek_io). intros [rc3 file3] Hf3. simpl in Hf3.
  destruct (negb _).
  { io_still ltac:(apply fclose_io). intros _ _. by apply io_spec_ret, reply_to_offset. }
  eapply io_spec_bind; [apply _| |].
  { eapply io_spec_weaken; [| |apply fwrite_io].
    - intros x y. by rewrite Hf3, Hf2.
    - intros r Hr. exact Hr. }
  intros [n file4] _.
  io_still ltac:(apply fclose_io). intros _ _.
  destruct (negb _); by apply io_spec_ret; [apply _ | try apply reply_to_offset].
Qed.

Lemma handle_dc_req_io (req res : SfpMessage) :
  reply_shape res ->
  io_spec (same_except (entry_path root (path req) (name req)))
          (reply_to req SFP_MSG_DC_REP) (handle_dc_req root req res).
Proof.
  intros (Hp & Hf & Ha). unfold handle_dc_req.
  fold (entry_path root (path req) (name req)).
  set (res0 := set_owner _ _).
  assert (H0 : reply_to req SFP_MSG_DC_REP res0) by done.
  destruct (negb _); [by apply io_spec_ret, reply_to_path_len, reply_to_path|].
  io_step ltac:(apply mkdir_io).
  intros [|] _; by apply io_spec_ret, reply_to_path_len, reply_to_path.
Qed.

Lemma handle_dr_req_io (req res : SfpMessage) :
  reply_shape res ->
  io_spec (same_except (entry_path root (path req) (name req)))
          (reply_to req SFP_MSG_DR_REP) (handle_dr_req root req res).
Proof.
  intros (Hp & Hf & Ha). unfold handle_dr_req.
  fold (entry_path root (path req) (name req)).
  set (res0 := set_path _ _).
  assert (H0 : reply_to req SFP_MSG_DR_REP res0) by done.
  destruct (negb _); [by apply io_spec_ret, reply_to_path_len|].
  io_step ltac:(apply unlink_io). intros st _.
  eapply (io_spec_bind _ (fun _ => True)).
  { destruct st; [by apply io_spec_ret | apply rmdir_io]. }
  intros [|] _; by apply io_spec_ret, reply_to_path_len.
Qed.

Lemma memcpy_at_length (buf src : list byte) (i : nat) :
  (i + length src <= length buf)%nat -> length (memcpy_at buf i src) = length buf.
Proof.
  intros H. unfold memcpy_at. rewrite !length_app, length_take, length_drop. lia.
Qed.

Lemma dl_loop_io (req : SfpMessage) (dir : string) (stream : list string) :
  forall res ni ci,
    reply_to req SFP_MSG_DL_REP res ->
    io_spec eq (fun r => reply_to req SFP_MSG_DL_REP r.1) (dl_loop dir stream res ni ci).
Proof.
  induction stream as [|n stream IH]; intros res ni ci Hres; cbn [dl_loop].
  { by apply io_spec_ret. }
  destruct (_ || _); [by apply IH|].
  destruct (Nat.leb_spec SFP_MAX_NAMES_IN_DIR ni) as [|Hroom];
    [by apply io_spec_ret|].
  destruct (Nat.leb_spec SFP_MAX_ALLFILENAMES_LEN (ci + strlen n)) as [|Hfit];
    [by apply io_spec_ret|].
  io_step ltac:(apply stat_io). intros st _.
  apply IH. destruct Hres as (Ht & Ho & Hp & Hf & Ha).
  split; [done|]. split; [done|]. split; [done|].
  cbn [fstlstpositions allfilenames set_allfilenames set_fstlstpositions].
  split; [rewrite store_at_length; lia|].
  rewrite memcpy_at_length; [done|].
  fold (name_bytes n). rewrite length_name_bytes, Ha. unfold strlen in Hfit. lia.
Qed.

Lemma handle_dl_req_io (req res : SfpMessage) :
  reply_shape res ->
  io_spec eq (reply_to req SFP_MSG_DL_REP) (handle_dl_req root req res).
Proof.
  intros (Hp & Hf & Ha). unfold handle_dl_req.
  set (res0 := set_fstlstpositions _ _).
  assert (H0 : reply_to req SFP_MSG_DL_REP res0).
  { split; [done|]. split; [done|]. split; [done|].
    unfold res0. cbn [fstlstpositions allfilenames set_allfilenames set_fstlstpositions
                      set_nrnames set_owner set_msg_type].
    by rewrite !length_replicate. }
  destruct (negb _); [by apply io_spec_ret, reply_to_nrnames|].
  io_step ltac:(apply opendir_io).
  intros [stream|] _; [|by apply io_spec_ret, reply_to_nrnames].
  io_step ltac:(by apply (dl_loop_io req)).
  intros [res1 n] H1. by apply io_spec_ret, reply_to_nrnames.
Qed.

(** The two host paths a request can name. *)
Lemma serve_io (req : SfpMessage) :
  io_spec (fun m m' => forall p', p' <> full_path_of root (path req) ->
                                  p' <> entry_path root (path req) (name req) ->
                                  m' !! p' = m !! p')
          (reply_to req (msg_type req + 1)) (serve root req).
Proof.
  assert (Hz : reply_shape (set_owner (owner req) zero_msg)).
  { unfold reply_shape, zero_msg. cbn [payload fstlstpositions allfilenames set_owner].
    by rewrite !length_replicate. }
  unfold serve.
  destruct (Z.eqb_spec (msg_type req) SFP_MSG_RD_REQ) as [->|_].
  { eapply io_spec_weaken; [| |by apply handle_rd_req_io]; [by intros x y <- |done]. }
  destruct (Z.eqb_spec (msg_type req) SFP_MSG_WR_REQ) as [->|_].
  { eapply io_spec_weaken; [| |by apply handle_wr_req_io]; [|done].
    intros x y H p' Hp _. by apply H. }
  destruct (Z.eqb_spec (msg_type req) SFP_MSG_DC_REQ) as [->|_].
  { eapply io_spec_weaken; [| |by apply handle_dc_req_io]; [|done].
    intros x y H p' _ Hp. by apply H. }
  destruct (Z.eqb_spec (msg_type req) SFP_MSG_DR_REQ) as [->|_].
  { eapply io_spec_weaken; [| |by apply handle_dr_req_io]; [|done].
    intros x y H p' _ Hp. by apply H. }
  destruct (Z.eqb_spec (msg_type req) SFP_MSG_DL_REQ) as [->|_].
  { eapply io_spec_weaken; [| |by apply handle_dl_req_io]; [by intros x y <- |done]. }
  intros w. split; [done|]. split; [done|]. split; [done|]. exact Hz.
Qed.

Lemma serve_read_only_io (req : SfpMessage) :
  msg_type req <> SFP_MSG_WR_REQ -> msg_type req <> SFP_MSG_DC_REQ ->
  msg_type req <> SFP_MSG_DR_REQ ->
  io_spec eq (fun _ => True) (serve root req).
Proof.
  intros Hw Hc Hr.
  assert (Hz : reply_shape (set_owner (owner req) zero_msg)).
  { unfold reply_shape, zero_msg. cbn [payload fstlstpositions allfilenames set_owner].
    by rewrite !length_replicate. }
  unfold serve.
  destruct (Z.eqb_spec (msg_type req) SFP_MSG_RD_REQ) as [_|_].
  { eapply io_spec_weaken; [| |by apply handle_rd_req_io]; done. }
  destruct (Z.eqb_spec (msg_type req) SFP_MSG_WR_REQ) as [?|_]; [done|].
  destruct (Z.eqb_spec (msg_type req) SFP_MSG_DC_REQ) as [?|_]; [done|].
  destruct (Z.eqb_spec (msg_type req) SFP_MSG_DR_REQ) as [?|_]; [done|].
  destruct (Z.eqb_spec (msg_type req) SFP_MSG_DL_REQ) as [_|_].
  { eapply io_spec_weaken; [| |by apply handle_dl_req_io]; done. }
  by intros w.
Qed.

End Handlers.

(** ** What a permitted request is answered with *)

Section Served.

Variable root : string.












End Served.

Section ServerProperties.

Variable root : string.

Lemma serve_as_wr (req : SfpMessage) :
  msg_type req = SFP_MSG_WR_REQ ->
  serve root req = handle_wr_req root req (set_owner (owner req) zero_msg).
Proof. intros H. unfold serve. rewrite H. reflexivity. Qed.

Lemma serve_as_rd (req : SfpMessage) :
  msg_type req = SFP_MSG_RD_REQ ->
  serve root req = handle_rd_req root req (set_owner (owner req) zero_msg).
Proof. intros H. unfold serve. rewrite H. reflexivity. Qed.

Lemma serve_as_dc (req : SfpMessage) :
  msg_type req = SFP_MSG_DC_REQ ->
  serve root req = handle_dc_req root req (set_owner (owner req) zero_msg).
Proof. intros H. unfold serve. rewrite H. reflexivity. Qed.

Lemma serve_as_dr (req : SfpMessage) :
  msg_type req = SFP_MSG_DR_REQ ->
  serve root req = handle_dr_req root req (set_owner (owner req) zero_msg).
Proof. intros H. unfold serve. rewrite H. reflexivity. Qed.

(** X1 -- Every reply answers its request: the reply's type is the
    request's type plus one (the matching REP, also for a type the server
    does not know) and the owner field is copied. *)
Theorem reply_header (req : SfpMessage) (w : World) :
  0 <= msg_type req < 2147483647 ->
  msg_type (serve root req w).1 = msg_type req + 1 /\
  owner (serve root req w).1 = owner req.
Proof.
  intros _. destruct (serve_io root req w) as [_ (Ht & Ho & _)]. by split.
Qed.


(** X3 -- Read and list requests are read-only: a request that is not a
    WR_REQ, DC_REQ or DR_REQ leaves the file tree as it was, whatever the
    faults met. *)
Theorem read_only_requests (req : SfpMessage) (w : World) :
  msg_type req <> SFP_MSG_WR_REQ -> msg_type req <> SFP_MSG_DC_REQ ->
  msg_type req <> SFP_MSG_DR_REQ ->
  fs (serve root req w).2 = fs w.
Proof.
  intros Hw Hc Hr. by destruct (serve_read_only_io root req Hw Hc Hr w) as [<- _].
Qed.

(** X4 -- Frame: serving a request changes no node of the tree other than
    the file named by the request's path and the entry [name] of that
    path, when the path of a WR_REQ and the entry of a DC_REQ or DR_REQ are
    in plain form. *)
Theorem serve_frame (req : SfpMessage) (w : World) (p' : string) :
  (msg_type req = SFP_MSG_WR_REQ ->
   canonical (full_path_of root (path req)) = true) ->
  (msg_type req = SFP_MSG_DC_REQ \/ msg_type req = SFP_MSG_DR_REQ ->
   canonical (entry_path root (path req) (name req)) = true) ->
  p' <> full_path_of root (path req) ->
  p' <> entry_path root (path req) (name req) ->
  fs (serve root req w).2 !! p' = fs w !! p'.
Proof. intros _ _ H1 H2. destruct (serve_io root req w) as [H _]. by apply H. Qed.

(** X5 -- Directory creation for a permitted DC_REQ whose entry path is in
    plain form: when the entry does not exist, its parent is a directory
    and [mkdir] meets no fault, the directory is created and the reply
    carries the new path (cut to 511 characters) and its length; in every
    other case the tree is unchanged and the reply carries the request's
    path with path_len = IO (-4). *)
Theorem dir_create_outcomes (req : SfpMessage) (w : World) :
  msg_type req = SFP_MSG_DC_REQ ->
  check_permission (owner req) (path req) (strlen (path req)) = true ->
  let target := entry_path root (path req) (name req) in
  canonical target = true ->
  let rep := (serve root req w).1 in
  let w' := (serve root req w).2 in
  (pending w = None -> fs w !! target = None ->
   is_dir_at (fs w) (parent_of target) = true ->
   fs w' = <[target := NDir]> (fs w) /\
   path rep = snprintf SFP_MAX_PATH_LEN (path req +:+ "/" +:+ name req) /\
   path_len rep = Z.of_nat (strlen (path rep)) /\ 0 <= path_len rep) /\
  (pending w <> None \/ fs w !! target <> None \/
   is_dir_at (fs w) (parent_of target) = false ->
   fs w' = fs w /\ path rep = path req /\ path_len rep = SFP_ERR_IO).
Proof.
  intros Hty Hperm target _ rep w'. unfold rep, w'. rewrite (serve_as_dc req Hty).
  unfold handle_dc_req. rewrite Hperm. cbn [negb].
  fold (entry_path root (path req) (name req)). fold target.
  unfold mkdir. io. rewrite next_fault_eq. simpl.
  split.
  - intros -> -> ->. simpl. repeat split. lia.
  - intros H. destruct (pending w); simpl; [done|].
    destruct (fs w !! target) as [[d|]|]; simpl; try done.
    destruct (is_dir_at (fs w) (parent_of target)); simpl; [|done].
    by destruct H as [?|[?|?]].
Qed.

(** X6 -- Removal for a permitted DR_REQ whose entry path is in plain
    form: a regular file is unlinked, an empty directory is removed, and the
    reply then carries the length of the request's path; a missing entry or
    a directory that still has entries is refused with path_len = IO (-4)
    and the tree unchanged.  The reply's path is always the request's
    path. *)
Theorem dir_remove_outcomes (req : SfpMessage) (w : World) :
  msg_type req = SFP_MSG_DR_REQ ->
  check_permission (owner req) (path req) (strlen (path req)) = true ->
  let target := entry_path root (path req) (name req) in
  canonical target = true ->
  let rep := (serve root req w).1 in
  let w' := (serve root req w).2 in
  path rep = path req /\
  (forall d, fs w !! target = Some (NFile d) -> pending w = None ->
     fs w' = delete target (fs w) /\ path_len rep = Z.of_nat (strlen (path req))) /\
  (fs w !! target = Some NDir -> children (fs w) target = [] ->
   pending (advance w) = None ->
     fs w' = delete target (fs w) /\ path_len rep = Z.of_nat (strlen (path req))) /\
  (fs w !! target = None \/
   (fs w !! target = Some NDir /\ children (fs w) target <> []) ->
     fs w' = fs w /\ path_len rep = SFP_ERR_IO).
Proof.
  intros Hty Hperm target _ rep w'. unfold rep, w'. rewrite (serve_as_dr req Hty).
  unfold handle_dr_req. rewrite Hperm. cbn [negb].
  fold (entry_path root (path req) (name req)). fold target.
  destruct w as [m fl]. unfold pending, advance. cbn [fs faults].
  unfold unlink, rmdir, next_fault. io.
  destruct (m !! target) as [[d|]|] eqn:Hm; destruct (children m target) eqn:Hc;
    destruct fl as [|[k|] [|[k2|] fl]]; simpl;
    repeat (progress (rewrite ?Hm, ?Hc; simpl));
    repeat split; intros; destruct_or?; destruct_and?; by simplify_eq.
Qed.

Lemma children_insert_fresh (m : gmap string node) (p : string) (x : node) :
  m !! p = None -> children m p = [] -> children (<[p := x]> m) p = [].
Proof.
  intros Hn Hc. unfold children in *.
  apply Permutation_nil_r.
  rewrite (map_to_list_insert m p x Hn). cbn [omap list_omap fst].
  rewrite bool_decide_eq_false_2 by (by intros [_ ?]).
  by rewrite Hc.
Qed.

Lemma mkdir_run (p : string) (w : World) :
  faults w = [] -> fs w !! p = None -> is_dir_at (fs w) (parent_of p) = true ->
  mkdir p w = (true, mkWorld (<[p := NDir]> (fs w)) []).
Proof.
  intros Hf Hn Hd. destruct w as [m fl]. simpl in *. subst fl.
  unfold mkdir, next_fault. io. by rewrite Hn, Hd.
Qed.

Lemma remove_dir_run (p : string) (w : World) :
  faults w = [] -> fs w !! p = Some NDir -> children (fs w) p = [] ->
  (unlink p ≫= fun status : bool => if status then mret true else rmdir p) w
  = (true, mkWorld (delete p (fs w)) []).
Proof.
  intros Hf Hn Hc. destruct w as [m fl]. simpl in *. subst fl.
  unfold unlink, rmdir, next_fault. io. rewrite Hn. simpl. by rewrite Hn, Hc.
Qed.

(** X7 -- Create then remove: on a host without faults, creating a
    directory that does not exist yet, under an entry path in plain form,
    and removing it again with the same path and name succeeds twice and
    gives back the tree as it was. *)
Theorem create_then_remove (req : SfpMessage) (w : World) :
  check_permission (owner req) (path req) (strlen (path req)) = true ->
  let target := entry_path root (path req) (name req) in
  canonical target = true ->
  faults w = [] -> fs w !! target = None ->
  is_dir_at (fs w) (parent_of target) = true ->
  children (fs w) target = [] ->
  let dc := set_msg_type SFP_MSG_DC_REQ req in
  let dr := set_msg_type SFP_MSG_DR_REQ req in
  let w1 := (serve root dc w).2 in
  0 <= path_len (serve root dc w).1 /\
  fs w1 !! target = Some NDir /\
  path_len (serve root dr w1).1 = Z.of_nat (strlen (path req)) /\
  fs (serve root dr w1).2 = fs w.
Proof.
  intros Hperm target _ Hf Hn Hd Hc dc dr w1.
  assert (Hdc : serve root dc w =
            (set_path_len (Z.of_nat (strlen (snprintf SFP_MAX_PATH_LEN
                                               (path req +:+ "/" +:+ name req))))
               (set_path (snprintf SFP_MAX_PATH_LEN (path req +:+ "/" +:+ name req))
                  (set_owner (owner req)
                     (set_msg_type SFP_MSG_DC_REP (set_owner (owner req) zero_msg)))),
             mkWorld (<[target := NDir]> (fs w)) [])).
  { rewrite (serve_as_dc dc eq_refl). unfold handle_dc_req.
    change (owner dc) with (owner req). change (path dc) with (path req).
    change (name dc) with (name req). rewrite Hperm. cbn [negb].
    fold (entry_path root (path req) (name req)). fold target.
    unfold mbind, IO_bind. by rewrite (mkdir_run target w Hf Hn Hd). }
  unfold w1. rewrite Hdc. cbn [fst snd fs path_len set_path_len].
  split; [lia|]. split; [apply lookup_insert_eq|].
  rewrite (serve_as_dr dr eq_refl). unfold handle_dr_req.
  change (owner dr) with (owner req). change (path dr) with (path req).
  change (name dr) with (name req). rewrite Hperm. cbn [negb].
  fold (entry_path root (path req) (name req)). fold target.
  pose proof (remove_dir_run target (mkWorld (<[target := NDir]> (fs w)) []) eq_refl
                (lookup_insert_eq _ _ _)
                (children_insert_fresh _ _ _ Hn Hc)) as Hrun.
  unfold mbind, IO_bind in *.
  destruct (unlink target _) as [st w2].
  destruct st.
  - unfold mret, IO_ret in *. injection Hrun as ->. cbn.
    split; [done|]. by apply delete_insert_id.
  - rewrite Hrun. cbn. split; [done|]. by apply delete_insert_id.
Qed.

(** X8 -- Overwrite in place: a successful write at an offset inside an
    existing file (or at its end) replaces the 16 bytes at that offset and
    leaves every other byte of the file as it was. *)
Theorem overwrite_in_place (k : Z) (p : string) (o : Z) (q old : list byte) (w : World) :
  check_permission k p (strlen p) = true ->
  length q = 16%nat ->
  nth 0 q "000"%byte <> "000"%byte \/ o <> 0 ->
  fs w !! full_path_of root p = Some (NFile old) ->
  pending w = None ->
  0 <= o <= Z.of_nat (length old) ->
  0 <= offset (serve root (wr_req k p o q) w).1 ->
  offset (serve root (wr_req k p o q) w).1 = o /\
  fs (serve root (wr_req k p o q) w).2 !! full_path_of root p =
    Some (NFile (take (Z.to_nat o) old ++ q ++ drop (Z.to_nat o + 16) old)).
Proof.
  intros Hperm Hlen Hnr Hold Hp Ho Hok.
  assert (Hrm : is_remove (wr_req k p o q) = false).
  { unfold is_remove. change (offset (wr_req k p o q)) with o.
    change (payload (wr_req k p o q)) with q.
    apply andb_false_iff. destruct Hnr as [Hb|Hne].
    - right. destruct (Byte.eqb _ _) eqn:E; [|done]. by apply Byte.byte_dec_bl in E.
    - left. by apply Z.eqb_neq. }
  destruct (wr_success root k p o q w Hperm Hrm Hlen Hok)
    as (d1 & _ & Hd1 & _ & Hoff & Hfile).
  specialize (Hd1 Hp). unfold file_data in Hd1. rewrite Hold in Hd1. subst d1.
  split; [done|]. rewrite Hfile.
  replace (Z.to_nat (o - Z.of_nat (length old))) with O by lia.
  cbn [replicate]. rewrite app_nil_r, write_at_inside by lia.
  by rewrite Hlen.
Qed.

(** X9 -- Reading at a negative offset of an existing file is not
    refused: the reply echoes the negative offset and carries sixteen zero
    bytes. *)
Theorem negative_offset_read (k : Z) (p : string) (o : Z) (d : list byte) (w : World) :
  check_permission k p (strlen p) = true ->
  fs w !! full_path_of root p = Some (NFile d) ->
  pending w = None ->
  o < 0 ->
  offset (serve root (rd_req k p o) w).1 = o /\
  payload (serve root (rd_req k p o) w).1 = replicate SFP_PAYLOAD_SIZE "000"%byte.
Proof.
  intros Hperm Hd Hp Ho.
  pose proof (rd_existing root k p o w d Hperm Hd Hp) as H. cbn zeta in H.
  destruct (Z.leb_spec (Z.of_nat (length d)) o) as [?|_]; [lia|]. cbn [andb] in H.
  destruct H as (Hoff & got & Hpay & Hpre & _). split; [done|].
  unfold rd_window in Hpre. destruct (Z.ltb_spec o 0) as [_|?]; [|lia].
  apply prefix_nil_inv in Hpre. subst got. by rewrite Hpay.
Qed.

(** X10 -- The remove form of WR_REQ needs a regular file: when the path,
    in plain form, names no file (nothing, or a directory) the reply's
    offset is IO (-4) and the tree is unchanged. *)
Theorem remove_needs_a_file (k : Z) (p : string) (q : list byte) (w : World) :
  check_permission k p (strlen p) = true ->
  nth 0 q "000"%byte = "000"%byte ->
  canonical (full_path_of root p) = true ->
  (forall d, fs w !! full_path_of root p <> Some (NFile d)) ->
  offset (serve root (wr_req k p 0 q) w).1 = SFP_ERR_IO /\
  fs (serve root (wr_req k p 0 q) w).2 = fs w.
Proof.
  intros Hperm Hq _ Hno. rewrite serve_wr. unfold handle_wr_req.
  change (owner (wr_req k p 0 q)) with k. change (path (wr_req k p 0 q)) with p.
  change (payload (wr_req k p 0 q)) with q. change (offset (wr_req k p 0 q)) with 0.
  rewrite Hperm, Hq. cbn [negb Z.eqb andb].
  change (Byte.eqb "000"%byte "000"%byte) with true. cbn [andb].
  fold (full_path_of root p). unfold unlink. io. rewrite next_fault_eq. simpl.
  destruct (pending w) as [n|]; simpl; [done|].
  destruct (fs w !! full_path_of root p) as [[d|]|] eqn:E; simpl; try done.
  by destruct (Hno d).
Qed.

Lemma wr_negative_run (req res : SfpMessage) (w : World) :
  check_permission (owner req) (path req) (strlen (path req)) = true ->
  offset req < 0 ->
  handle_wr_req root req res w =
  match open_rw (full_path_of root (path req)) w with
  | (None, w1) => (set_offset SFP_ERR_NOT_FOUND (wr_reply req res), w1)
  | (Some _, w1) => (set_offset SFP_ERR_IO (wr_reply req res), w1)
  end.
Proof.
  intros Hperm Hneg. set (fp := full_path_of root (path req)).
  unfold handle_wr_req. rewrite Hperm. cbn [negb].
  destruct (Z.eqb_spec (offset req) 0) as [?|_]; [lia|]. cbn [andb].
  fold (full_path_of root (path req)). fold fp. fold (wr_reply req res).
  assert (Hopen : forall a0 w1, open_rw fp w = (a0, w1) ->
            (let '(a, w') := fopen fp RPB w in
             match a with Some f => mret (Some f) | None => fopen fp WPB end w') = (a0, w1))
    by (intros a0 w1 H; exact H).
  unfold mbind at 1 2. unfold IO_bind at 1 2.
  destruct (open_rw fp w) as [a0 w1] eqn:Eopen.
  specialize (Hopen _ _ eq_refl).
  destruct (fopen fp RPB w) as [a wa]. rewrite Hopen. clear Hopen a wa.
  destruct a0 as [file|]; [|done].
  apply open_rw_some in Eopen as [-> [d Hd]].
  unfold mbind at 1. unfold IO_bind at 1.
  rewrite fseek_clean by done. cbn [f_path]. unfold size_at. rewrite Hd.
  rewrite Z.add_0_r.
  destruct (Z.ltb_spec (Z.of_nat (length d)) 0) as [?|_]; [lia|].
  rewrite Nat2Z.id. unfold ftell. cbn [f_pos].
  unfold mbind at 1. unfold IO_bind at 1.
  destruct (Z.ltb_spec (Z.of_nat (length d)) (offset req)) as [?|_]; [lia|].
  unfold mret at 1. unfold IO_ret at 1. cbn [negb].
  unfold mbind at 1. unfold IO_bind at 1.
  rewrite fseek_clean by done. cbn [f_path]. rewrite Z.add_0_l.
  destruct (Z.ltb_spec (offset req) 0) as [_|?]; [|lia].
  reflexivity.
Qed.

(** X11 -- A write at a negative offset never stores the payload: the
    reply's offset is IO (-4), or NOT_FOUND (-2) when the file can be neither
    opened nor created.  An existing file keeps its contents, but a missing
    file whose directory exists, the path being in plain form, is left
    behind empty. *)
Theorem negative_offset_write (k : Z) (p : string) (o : Z) (q : list byte) (w : World) :
  check_permission k p (strlen p) = true ->
  o < 0 ->
  let fp := full_path_of root p in
  let rep := (serve root (wr_req k p o q) w).1 in
  let w' := (serve root (wr_req k p o q) w).2 in
  (offset rep = SFP_ERR_IO \/ offset rep = SFP_ERR_NOT_FOUND) /\
  (forall d, fs w !! fp = Some (NFile d) -> pending w = None ->
     offset rep = SFP_ERR_IO /\ fs w' = fs w) /\
  (canonical fp = true ->
   fs w !! fp = None -> is_dir_at (fs w) (parent_of fp) = true ->
   calm_prefix 2 (faults w) = true ->
     offset rep = SFP_ERR_IO /\ fs w' = <[fp := NFile []]> (fs w)).
Proof.
  intros Hperm Ho fp rep w'. unfold rep, w'. rewrite serve_wr.
  rewrite (wr_negative_run (wr_req k p o q) _ w Hperm Ho).
  change (path (wr_req k p o q)) with p. fold fp.
  split; [|split].
  - destruct (open_rw fp w) as [[f|] w1]; [by left | by right].
  - intros d Hd Hp. unfold open_rw, fopen. io. rewrite next_fault_eq, Hp. simpl.
    by rewrite Hd.
  - intros _ Hn Hdir Hcalm. by rewrite open_rw_creates.
Qed.

End ServerProperties.

#[local] Instance sched_move_refl : Reflexive sched_move.
Proof. intros p. repeat split; by left. Qed.

#[local] Instance sched_move_trans : Transitive sched_move.
Proof.
  intros p1 p2 p3 (H1 & H2 & H3 & H4 & H5) (G1 & G2 & G3 & G4 & G5).
  repeat split; try congruence.
  destruct H5 as [H5|[H5 H5']], G5 as [G5|[G5 G5']].
  - left. congruence.
  - right. split; [congruence | done].
  - right. split; [done | congruence].
  - right. by split.
Qed.

#[local] Instance pcb_step_refl : Reflexive pcb_step.
Proof. by intros p. Qed.

#[local] Instance pcb_step_trans : Transitive pcb_step.
Proof.
  intros p1 p2 p3 (H1 & H2 & H3) (G1 & G2 & G3).
  repeat split; try congruence.
  - by apply G3, H3.
  - destruct (H3 H) as [Ht Hc]. destruct (G3 Ht) as [_ Hc']. congruence.
Qed.

Section SchedulerFrames.

(** Facts read off a call that returned, with no assumption on the
    state. *)

Lemma update_pcb_some (i : Z) (f : PCB -> PCB) (k k' : Kernel) :
  update_pcb i f k = Some k' ->
  0 <= i /\ exists p, pcbs k !! Z.to_nat i = Some p /\
                      k' = set_pcbs (<[Z.to_nat i := f p]> (pcbs k)) k.
Proof.
  unfold update_pcb, store_idx, at_idx.
  destruct (Z.ltb_spec i 0) as [?|Hi]; [done|].
  destruct (pcbs k !! Z.to_nat i) as [p|] eqn:Hp; [|done].
  cbn [mbind option_bind]. intros [= <-]. split; [done|]. by exists p.
Qed.

Lemma rq_push_tail_some (idx : Z) (k k' : Kernel) :
  rq_push_tail idx k = Some k' -> exists q, k' = set_rq q k.
Proof.
  unfold rq_push_tail. destruct (Nat.leb _ _); [intros [= <-]; exists (rq k); by destruct k|].
  destruct (pcb_state k idx) as [st|]; [|done]. cbn [mbind option_bind].
  destruct (decide _); [intros [= <-]; exists (rq k); by destruct k|].
  destruct (ring_put _ _ _) as [q|]; [|done]. cbn [mbind option_bind].
  intros [= <-]. by exists q.
Qed.

Lemma rq_pop_head_some (k k' : Kernel) (v : Z) :
  rq_pop_head k = Some (v, k') -> exists q, k' = set_rq q k.
Proof.
  unfold rq_pop_head. destruct (Nat.eqb _ _); [intros [= _ <-]; exists (rq k); by destruct k|].
  destruct (ring_take _ _) as [[x q]|]; [|done]. cbn [mbind option_bind].
  intros [= _ <-]. by exists q.
Qed.

Lemma pcbs_rel_refl (R : relation PCB) `{!Reflexive R} (k k' : Kernel) :
  pcbs k' = pcbs k -> pcbs_rel R k k'.
Proof. intros E. split; [by rewrite E|]. intros i p Hp. exists p. by rewrite E. Qed.

Lemma pcbs_rel_trans (R : relation PCB) `{!Transitive R} (k1 k2 k3 : Kernel) :
  pcbs_rel R k1 k2 -> pcbs_rel R k2 k3 -> pcbs_rel R k1 k3.
Proof.
  intros [L12 H12] [L23 H23]. split; [congruence|]. intros i p Hp.
  destruct (H12 i p Hp) as (p2 & Hp2 & HR2).
  destruct (H23 i p2 Hp2) as (p3 & Hp3 & HR3).
  exists p3. split; [done | by etrans].
Qed.

Lemma pcbs_rel_update (R : relation PCB) `{!Reflexive R} (k : Kernel) (j : nat)
    (p : PCB) (f : PCB -> PCB) :
  pcbs k !! j = Some p -> R p (f p) ->
  pcbs_rel R k (set_pcbs (<[j := f p]> (pcbs k)) k).
Proof.
  intros Hp HR. split; [cbn [set_pcbs pcbs]; by rewrite length_insert|].
  intros i x Hx. cbn [set_pcbs pcbs].
  destruct (decide (i = j)) as [->|Hne].
  - rewrite list_lookup_insert_eq by (by apply lookup_lt_Some in Hp).
    exists (f p). split; [done|]. congruence.
  - rewrite list_lookup_insert_ne by done. by exists x.
Qed.

Lemma sched_move_step (p p' : PCB) : sched_move p p' -> pcb_step p p'.
Proof.
  intros (H1 & H2 & H3 & _ & H5). split; [done|]. split; [done|].
  intros Ht. split; [|done].
  destruct H5 as [H5|[[H5|H5] _]]; congruence.
Qed.

Lemma stop_running_some (k k' : Kernel) :
  stop_running k = Some k' ->
  pcbs_rel sched_move k k' /\ running_idx k' = running_idx k /\ shm k' = shm k /\
  file_req_q k' = file_req_q k /\ dir_req_q k' = dir_req_q k.
Proof.
  unfold stop_running.
  destruct (0 <=? running_idx k);
    [|intros [= <-]; split; [by apply pcbs_rel_refl; [apply _|] | done]].
  destruct (pcb_state k (running_idx k)) as [st|] eqn:Hst; [|done].
  cbn [mbind option_bind].
  destruct (decide (st = RUNNING)) as [->|_];
    [|intros [= <-]; split; [by apply pcbs_rel_refl; [apply _|] | done]].
  destruct (update_pcb _ _ k) as [k1|] eqn:Hup; [|done]. cbn [mbind option_bind].
  apply update_pcb_some in Hup as (Hge & p & Hp & ->).
  intros Hpush. apply rq_push_tail_some in Hpush as [q ->].
  split; [|done].
  apply (pcbs_rel_trans _ _ (set_pcbs (<[Z.to_nat (running_idx k) := with_state READY p]> (pcbs k)) k));
    [|by apply pcbs_rel_refl; [apply _|]].
  apply pcbs_rel_update; [apply _ | done |].
  unfold pcb_state, at_idx in Hst. destruct (running_idx k <? 0); [done|].
  rewrite Hp in Hst. injection Hst as Hst.
  repeat split. right. rewrite Hst. split; [by right | by left].
Qed.

Lemma schedule_scan_some (tries : nat) :
  forall k r k',
    schedule_scan tries k = Some (r, k') ->
    pcbs_rel sched_move k k' /\ shm k' = shm k /\
    file_req_q k' = file_req_q k /\ dir_req_q k' = dir_req_q k /\
    if r then 0 <= running_idx k' /\ pcb_state k' (running_idx k') = Some RUNNING
    else running_idx k' = running_idx k.
Proof.
  induction tries as [|tries IH]; intros k r k'; cbn [schedule_scan].
  { intros [= <- <-]. split; [by apply pcbs_rel_refl; [apply _|] | done]. }
  destruct (rq_pop_head k) as [[next k1]|] eqn:Hpop; [|done]. cbn [mbind option_bind].
  apply rq_pop_head_some in Hpop as [q ->].
  destruct (Z.ltb_spec next 0) as [?|Hnext].
  { intros [= <- <-]. split; [by apply pcbs_rel_refl; [apply _|] | done]. }
  destruct (pcb_state (set_rq q k) next) as [st|] eqn:Hst; [|done].
  cbn [mbind option_bind]. destruct st.
  - destruct (stop_running (set_rq q k)) as [k2|] eqn:Hstop; [|done].
    cbn [mbind option_bind].
    apply stop_running_some in Hstop as (Hrel & Hr & Hs & Hf & Hd).
    destruct (update_pcb next _ k2) as [k3|] eqn:Hup; [|done]. cbn [mbind option_bind].
    apply update_pcb_some in Hup as (_ & p & Hp & ->).
    intros [= <- <-]. split; [|split; [done|split; [done|split; [done|]]]].
    + apply (pcbs_rel_trans _ _ k2); [exact Hrel|].
      apply (pcbs_rel_trans _ _ (set_pcbs (<[Z.to_nat next := with_state RUNNING p]> (pcbs k2)) k2));
        [|by apply pcbs_rel_refl; [apply _|]].
      apply pcbs_rel_update; [apply _ | done |].
      unfold pcb_state, at_idx in Hst. destruct (next <? 0); [done|].
      cbn [set_rq pcbs] in Hst.
      destruct Hrel as [_ Hrel].
      destruct (pcbs k !! Z.to_nat next) as [p0|] eqn:Hp0; [|done].
      injection Hst as Hst.
      destruct (Hrel _ _ Hp0) as (p' & Hp' & _ & _ & _ & _ & Hmove).
      rewrite Hp in Hp'. injection Hp' as <-.
      repeat split. right. split; [|by right].
      destruct Hmove as [->|[_ ?]]; [by left | done].
    + split; [done|]. cbn [running_idx set_running_idx].
      unfold pcb_state, at_idx. destruct (Z.ltb_spec next 0); [lia|].
      cbn [set_running_idx set_pcbs pcbs].
      rewrite list_lookup_insert_eq by (by apply lookup_lt_Some in Hp). done.
  - destruct (rq_push_tail next (set_rq q k)) as [k2|] eqn:Hpush; [|done].
    cbn [mbind option_bind]. apply rq_push_tail_some in Hpush as [q2 ->].
    intros Hscan. apply IH in Hscan as (Hrel & Hs & Hf & Hd & Hr).
    split; [|split; [done|split; [done|split; [done|]]]].
    + apply (pcbs_rel_trans _ _ (set_rq q2 (set_rq q k))); [|done].
      by apply pcbs_rel_refl; [apply _|].
    + by destruct r.
  - destruct (rq_push_tail next (set_rq q k)) as [k2|] eqn:Hpush; [|done].
    cbn [mbind option_bind]. apply rq_push_tail_some in Hpush as [q2 ->].
    intros Hscan. apply IH in Hscan as (Hrel & Hs & Hf & Hd & Hr).
    split; [|split; [done|split; [done|split; [done|]]]].
    + apply (pcbs_rel_trans _ _ (set_rq q2 (set_rq q k))); [|done].
      by apply pcbs_rel_refl; [apply _|].
    + by destruct r.
  - intros Hscan. apply IH in Hscan as (Hrel & Hs & Hf & Hd & Hr).
    split; [|split; [done|split; [done|split; [done|]]]].
    + apply (pcbs_rel_trans _ _ (set_rq q k)); [|done].
      by apply pcbs_rel_refl; [apply _|].
    + by destruct r.
Qed.

Lemma requeue_ready_some (idxs : list nat) :
  forall found k found' k',
    requeue_ready idxs found k = Some (found', k') ->
    pcbs k' = pcbs k /\ running_idx k' = running_idx k /\ shm k' = shm k /\
    file_req_q k' = file_req_q k /\ dir_req_q k' = dir_req_q k.
Proof.
  induction idxs as [|i idxs IH]; intros found k found' k'; cbn [requeue_ready].
  { by intros [= _ <-]. }
  destruct (pcb_state k (Z.of_nat i)) as [st|]; [|done]. cbn [mbind option_bind].
  destruct (decide (st = READY)); [|apply IH].
  destruct (rq_push_tail _ k) as [k1|] eqn:Hpush; [|done]. cbn [mbind option_bind].
  apply rq_push_tail_some in Hpush as [q ->].
  intros H. by apply IH in H.
Qed.

Lemma running_valid_idle (k : Kernel) : running_valid (set_running_idx (-1) k).
Proof. by left. Qed.

(** Whatever the state it is called in, a [schedule_next] that returns has
    only moved PCBs between READY and RUNNING, and leaves [running_idx]
    at -1 or on a RUNNING PCB. *)
Lemma schedule_next_fuel_some (fuel : nat) :
  forall k k',
    schedule_next_fuel fuel k = Some k' ->
    pcbs_rel sched_move k k' /\ shm k' = shm k /\
    file_req_q k' = file_req_q k /\ dir_req_q k' = dir_req_q k /\
    running_valid k'.
Proof.
  induction fuel as [|fuel IH]; intros k k'; cbn [schedule_next_fuel]; [done|].
  destruct (schedule_scan _ k) as [[r k1]|] eqn:Hscan; [|done].
  cbn [mbind option_bind].
  apply schedule_scan_some in Hscan as (Hrel1 & Hs1 & Hf1 & Hd1 & Hr1).
  destruct r.
  { intros [= <-]. split; [done|]. split; [done|]. split; [done|]. split; [done|].
    by right. }
  destruct (stop_running k1) as [k2|] eqn:Hstop; [|done]. cbn [mbind option_bind].
  apply stop_running_some in Hstop as (Hrel2 & Hr2 & Hs2 & Hf2 & Hd2).
  assert (Hrel12 : pcbs_rel sched_move k k2) by (by apply (pcbs_rel_trans _ _ k1)).
  assert (Hidle : pcbs_rel sched_move k (set_running_idx (-1) k2) /\
                  shm (set_running_idx (-1) k2) = shm k /\
                  file_req_q (set_running_idx (-1) k2) = file_req_q k /\
                  dir_req_q (set_running_idx (-1) k2) = dir_req_q k /\
                  running_valid (set_running_idx (-1) k2)).
  { split; [|split; [|split; [|split]]]; cbn [set_running_idx shm file_req_q dir_req_q];
      try congruence; [|by left].
    apply (pcbs_rel_trans _ _ k2); [done|]. by apply pcbs_rel_refl; [apply _|]. }
  destruct (Nat.eqb _ _); [|by intros [= <-]].
  destruct (requeue_ready _ _ k2) as [[found k3]|] eqn:Hreq; [|done].
  cbn [mbind option_bind].
  apply requeue_ready_some in Hreq as (Hp3 & Hr3 & Hs3 & Hf3 & Hd3).
  destruct found.
  - intros Hrec. apply IH in Hrec as (Hrel4 & Hs4 & Hf4 & Hd4 & Hv4).
    split; [|split; [congruence|split; [congruence|split; [congruence|done]]]].
    apply (pcbs_rel_trans _ _ k2); [done|].
    apply (pcbs_rel_trans _ _ k3); [|done]. by apply pcbs_rel_refl; [apply _|].
  - intros [= <-].
    split; [|split; [|split; [|split]]]; cbn [set_running_idx shm file_req_q dir_req_q];
      try congruence; [|by left].
    apply (pcbs_rel_trans _ _ k2); [done|]. by apply pcbs_rel_refl; [apply _|].
Qed.

Lemma schedule_next_some (k k' : Kernel) :
  schedule_next k = Some k' ->
  pcbs_rel sched_move k k' /\ shm k' = shm k /\
  file_req_q k' = file_req_q k /\ dir_req_q k' = dir_req_q k /\
  running_valid k'.
Proof. apply schedule_next_fuel_some. Qed.

End SchedulerFrames.

Section EventFrames.

Lemma running_valid_same (k k' : Kernel) :
  pcbs k' = pcbs k -> running_idx k' = running_idx k ->
  running_valid k -> running_valid k'.
Proof. unfold running_valid, pcb_state. by intros -> ->. Qed.

Lemma running_valid_update (k : Kernel) (j : nat) (p : PCB) (f : PCB -> PCB) :
  running_valid k -> pcbs k !! j = Some p ->
  (running_idx k = Z.of_nat j -> state p = RUNNING -> state (f p) = RUNNING) ->
  running_valid (set_pcbs (<[j := f p]> (pcbs k)) k).
Proof.
  intros [Hidle|[Hge Hrun]] Hp Hf; [by left|]. right. split; [done|].
  unfold pcb_state, at_idx in *. cbn [set_pcbs pcbs running_idx].
  destruct (running_idx k <? 0); [done|].
  destruct (decide (Z.to_nat (running_idx k) = j)) as [<-|Hne].
  - rewrite list_lookup_insert_eq by (by apply lookup_lt_Some in Hp).
    rewrite Hp in Hrun. injection Hrun as Hrun. simpl. f_equal.
    apply Hf; [lia|done].
  - by rewrite list_lookup_insert_ne.
Qed.

Lemma pcbs_rel_weaken (R R' : relation PCB) (k k' : Kernel) :
  (forall p p', R p p' -> R' p p') -> pcbs_rel R k k' -> pcbs_rel R' k k'.
Proof.
  intros HR [Hl H]. split; [done|]. intros i p Hp.
  destruct (H i p Hp) as (p' & Hp' & Hpp). exists p'. auto.
Qed.

Lemma schedule_next_step (k k' : Kernel) :
  schedule_next k = Some k' ->
  pcbs_rel pcb_step k k' /\ running_valid k' /\ shm k' = shm k.
Proof.
  intros H. apply schedule_next_some in H as (Hrel & Hs & _ & _ & Hv).
  split; [|done]. eapply pcbs_rel_weaken; [apply sched_move_step | done].
Qed.

Lemma pcb_state_lookup (k : Kernel) (idx : Z) (st : ProcState) :
  pcb_state k idx = Some st ->
  0 <= idx /\ exists p, pcbs k !! Z.to_nat idx = Some p /\ state p = st.
Proof.
  unfold pcb_state, at_idx. destruct (Z.ltb_spec idx 0); [done|].
  destruct (pcbs k !! Z.to_nat idx) as [p|]; [|done].
  intros [= <-]. split; [done|]. by exists p.
Qed.

(** Changing the PCB at [idx], which is not TERMINATED, and calling
    [schedule_next] when [idx] was running: the tail shared by the DONE,
    syscall and reap paths. *)
Lemma leave_cpu_step (k k' : Kernel) (idx : Z) (p : PCB) (f : PCB -> PCB) :
  0 <= idx -> pcbs k !! Z.to_nat idx = Some p -> state p <> TERMINATED ->
  pid (f p) = pid p -> id (f p) = id p ->
  (let k1 := set_pcbs (<[Z.to_nat idx := f p]> (pcbs k)) k in
   if idx =? running_idx k1 then schedule_next (set_running_idx (-1) k1)
   else Some k1) = Some k' ->
  pcbs_rel pcb_step k k' /\ (running_valid k -> running_valid k').
Proof.
  intros Hge Hp Hst Hpid Hid. cbn zeta. set (k1 := set_pcbs _ k).
  assert (Hrel : pcbs_rel pcb_step k k1).
  { apply pcbs_rel_update; [apply _ | done | by repeat split]. }
  destruct (Z.eqb_spec idx (running_idx k1)) as [Heq|Hne].
  - intros H. apply schedule_next_step in H as (Hrel' & Hv' & _).
    split; [|done]. apply (pcbs_rel_trans _ _ k1); [done|].
    apply (pcbs_rel_trans _ _ (set_running_idx (-1) k1)); [|done].
    by apply pcbs_rel_refl; [apply _|].
  - intros [= <-]. split; [done|]. intros Hv.
    apply running_valid_update; [done|done|].
    intros E. cbn [k1 set_pcbs running_idx] in Hne. lia.
Qed.

Lemma handle_sfs_reply_step (m : SfpMessage) (k k' : Kernel) :
  handle_sfs_reply m k = Some k' ->
  pcbs k' = pcbs k /\ running_idx k' = running_idx k /\ shm k' = shm k /\ rq k' = rq k.
Proof.
  unfold handle_sfs_reply.
  destruct (_ || _).
  { destruct (Nat.ltb _ _); [|by intros [= <-]].
    destruct (ring_put _ _ _); [|done]. by intros [= <-]. }
  destruct (_ || _); [|by intros [= <-]].
  destruct (Nat.ltb _ _); [|by intros [= <-]].
  destruct (ring_put _ _ _); [|done]. by intros [= <-].
Qed.

Lemma unblock_owner_step (m : SfpMessage) (k k' : Kernel) :
  unblock_owner m k = Some k' ->
  pcbs_rel pcb_step k k' /\ (running_valid k -> running_valid k').
Proof.
  unfold unblock_owner.
  destruct (_ && _) eqn:Hguard;
    [|intros [= <-]; split; [by apply pcbs_rel_refl; [apply _|] | done]].
  apply andb_true_iff in Hguard as [_ Hblk]. apply bool_decide_eq_true in Hblk.
  destruct (store_idx _ _ _) as [sh|]; [|done]. cbn [mbind option_bind].
  destruct (update_pcb _ _ _) as [k1|] eqn:Hup; [|done]. cbn [mbind option_bind].
  apply update_pcb_some in Hup as (Hge & p & Hp & ->).
  cbn [set_shm pcbs] in Hp.
  apply pcb_state_lookup in Hblk as (_ & p0 & Hp0 & Hst).
  rewrite Hp in Hp0. injection Hp0 as <-.
  destruct (rq_push_tail _ _) as [k2|] eqn:Hpush; [|done]. cbn [mbind option_bind].
  apply rq_push_tail_some in Hpush as [q ->].
  set (k1 := set_pcbs _ (set_shm sh k)).
  assert (Hrel1 : pcbs_rel pcb_step k (set_rq q k1)).
  { apply (pcbs_rel_trans _ _ (set_pcbs (<[Z.to_nat (owner m - 1) := with_state READY p]> (pcbs k)) k));
      [|by apply pcbs_rel_refl; [apply _|]].
    apply pcbs_rel_update; [apply _ | done |]. repeat split. simpl. congruence. }
  destruct (running_idx (set_rq q k1) =? -1).
  - intros H. apply schedule_next_step in H as (Hrel' & Hv' & _).
    split; [|done]. by apply (pcbs_rel_trans _ _ (set_rq q k1)).
  - intros [= <-]. split; [done|]. intros Hv.
    apply (running_valid_same (set_pcbs (<[Z.to_nat (owner m - 1) := with_state READY p]> (pcbs k)) k));
      [done|done|].
    apply running_valid_update; [done|done|]. congruence.
Qed.

Lemma drain_inter_line_step (line : string) (k k' : Kernel) :
  drain_inter_line line k = Some k' ->
  pcbs_rel pcb_step k k' /\ (running_valid k -> running_valid k').
Proof.
  unfold drain_inter_line. destruct (strcmp_eq line "IRQ0").
  { match goal with |- (?m ≫= _) = _ -> _ => destruct m as [k1|] eqn:H1 end; [|done].
    intros H.
    assert (Hrel1 : pcbs_rel pcb_step k k1).
    { destruct (0 <=? running_idx k);
        [|injection H1 as <-; by apply pcbs_rel_refl; [apply _|]].
      destruct (pcb_state k (running_idx k)) as [st|] eqn:Hst; [|done].
      cbn [mbind option_bind] in H1.
      destruct (decide (st = RUNNING)) as [->|_];
        [|injection H1 as <-; by apply pcbs_rel_refl; [apply _|]].
      destruct (update_pcb _ _ k) as [k2|] eqn:Hup; [|done].
      cbn [mbind option_bind] in H1.
      apply update_pcb_some in Hup as (Hge & p & Hp & ->).
      destruct (rq_push_tail _ _) as [k3|] eqn:Hpush; [|done].
      cbn [mbind option_bind] in H1. injection H1 as <-.
      apply rq_push_tail_some in Hpush as [q ->].
      apply (pcbs_rel_trans _ _ (set_pcbs (<[Z.to_nat (running_idx k) := with_state READY p]> (pcbs k)) k));
        [|by apply pcbs_rel_refl; [apply _|]].
      apply pcbs_rel_update; [apply _ | done |].
      apply pcb_state_lookup in Hst as (_ & p0 & Hp0 & Hst0).
      rewrite Hp in Hp0. injection Hp0 as <-.
      repeat split. simpl. congruence. }
    cbn [mbind option_bind] in H. apply schedule_next_step in H as (Hrel' & Hv' & _).
    split; [|done]. by apply (pcbs_rel_trans _ _ k1). }
  destruct (strcmp_eq line "IRQ1").
  { destruct (Nat.ltb _ _);
      [|intros [= <-]; split; [by apply pcbs_rel_refl; [apply _|] | done]].
    destruct (ring_take _ _) as [[m q]|]; [|done]. cbn [mbind option_bind].
    intros H. apply unblock_owner_step in H as [Hrel Hv]. split; [|done].
    apply (pcbs_rel_trans _ _ (set_file_req_q q k)); [|done].
    by apply pcbs_rel_refl; [apply _|]. }
  destruct (strcmp_eq line "IRQ2");
    [|intros [= <-]; split; [by apply pcbs_rel_refl; [apply _|] | done]].
  destruct (Nat.ltb _ _);
    [|intros [= <-]; split; [by apply pcbs_rel_refl; [apply _|] | done]].
  destruct (ring_take _ _) as [[m q]|]; [|done]. cbn [mbind option_bind].
  intros H. apply unblock_owner_step in H as [Hrel Hv]. split; [|done].
  apply (pcbs_rel_trans _ _ (set_dir_req_q q k)); [|done].
  by apply pcbs_rel_refl; [apply _|].
Qed.

Lemma app_tick_step (p c : Z) (k k' : Kernel) :
  app_tick p c k = Some k' ->
  pcbs_rel pcb_step k k' /\ (running_valid k -> running_valid k').
Proof.
  unfold app_tick. set (idx := pid_to_index k p).
  destruct (0 <=? idx);
    [|intros [= <-]; split; [by apply pcbs_rel_refl; [apply _|] | done]].
  destruct (pcb_state k idx) as [st|] eqn:Hst; [|done]. cbn [mbind option_bind].
  destruct (decide (st = TERMINATED)) as [|Hne];
    [intros [= <-]; split; [by apply pcbs_rel_refl; [apply _|] | done]|].
  intros Hup. apply update_pcb_some in Hup as (Hge & x & Hx & ->).
  apply pcb_state_lookup in Hst as (_ & x0 & Hx0 & Hst0).
  rewrite Hx in Hx0. injection Hx0 as <-.
  split.
  - apply pcbs_rel_update; [apply _ | done |]. repeat split; simpl; congruence.
  - intros Hv. by apply running_valid_update.
Qed.

Lemma app_done_step (p c : Z) (k k' : Kernel) :
  app_done p c k = Some k' ->
  pcbs_rel pcb_step k k' /\ (running_valid k -> running_valid k').
Proof.
  unfold app_done. set (idx := pid_to_index k p).
  destruct (0 <=? idx);
    [|intros [= <-]; split; [by apply pcbs_rel_refl; [apply _|] | done]].
  destruct (pcb_state k idx) as [st|] eqn:Hst; [|done]. cbn [mbind option_bind].
  destruct (decide (st = TERMINATED)) as [|Hne];
    [intros [= <-]; split; [by apply pcbs_rel_refl; [apply _|] | done]|].
  destruct (update_pcb idx (with_pc c) k) as [k1|] eqn:Hup; [|done].
  cbn [mbind option_bind].
  apply update_pcb_some in Hup as (Hge & x & Hx & ->).
  apply pcb_state_lookup in Hst as (_ & x0 & Hx0 & Hst0).
  rewrite Hx in Hx0. injection Hx0 as <-.
  destruct (update_pcb idx (with_state TERMINATED) _) as [k2|] eqn:Hup2; [|done].
  cbn [mbind option_bind].
  apply update_pcb_some in Hup2 as (_ & y & Hy & ->).
  cbn [set_pcbs pcbs] in Hy.
  rewrite list_lookup_insert_eq in Hy by (by apply lookup_lt_Some in Hx).
  injection Hy as <-. cbn [set_pcbs pcbs]. rewrite list_insert_insert_eq.
  apply (leave_cpu_step k k' idx x (fun x => with_state TERMINATED (with_pc c x)));
    [done | done | congruence | done | done].
Qed.

Lemma reap_step (p : Z) (k k' : Kernel) :
  reap p k = Some k' ->
  pcbs_rel pcb_step k k' /\ (running_valid k -> running_valid k').
Proof.
  unfold reap. set (idx := pid_to_index k p).
  destruct (0 <=? idx);
    [|intros [= <-]; split; [by apply pcbs_rel_refl; [apply _|] | done]].
  destruct (pcb_state k idx) as [st|] eqn:Hst; [|done]. cbn [mbind option_bind].
  destruct (decide (st = TERMINATED)) as [|Hne];
    [intros [= <-]; split; [by apply pcbs_rel_refl; [apply _|] | done]|].
  destruct (update_pcb idx _ k) as [k1|] eqn:Hup; [|done].
  cbn [mbind option_bind].
  apply update_pcb_some in Hup as (Hge & x & Hx & ->).
  apply pcb_state_lookup in Hst as (_ & x0 & Hx0 & Hst0).
  rewrite Hx in Hx0. injection Hx0 as <-.
  apply (leave_cpu_step k k' idx x (with_state TERMINATED));
    [done | done | congruence | done | done].
Qed.

Lemma app_syscall_step (p : Z) (m : SfpMessage) (k k' : Kernel) :
  app_syscall p m k = Some k' ->
  pcbs_rel pcb_step k k' /\ (running_valid k -> running_valid k').
Proof.
  unfold app_syscall. set (idx := pid_to_index k p).
  destruct (negb _);
    [|intros [= <-]; split; [by apply pcbs_rel_refl; [apply _|] | done]].
  destruct (0 <=? idx);
    [|intros [= <-]; split; [by apply pcbs_rel_refl; [apply _|] | done]].
  destruct (pcb_state k idx) as [st|] eqn:Hst; [|done]. cbn [mbind option_bind].
  destruct (decide (st = TERMINATED)) as [|Hne];
    [intros [= <-]; split; [by apply pcbs_rel_refl; [apply _|] | done]|].
  destruct (update_pcb idx (with_state BLOCKED) k) as [k1|] eqn:Hup; [|done].
  cbn [mbind option_bind].
  apply update_pcb_some in Hup as (Hge & x & Hx & ->).
  apply pcb_state_lookup in Hst as (_ & x0 & Hx0 & Hst0).
  rewrite Hx in Hx0. injection Hx0 as <-.
  destruct (update_pcb idx (with_pending m) _) as [k2|] eqn:Hup2; [|done].
  cbn [mbind option_bind].
  apply update_pcb_some in Hup2 as (_ & y & Hy & ->).
  cbn [set_pcbs pcbs] in Hy.
  rewrite list_lookup_insert_eq in Hy by (by apply lookup_lt_Some in Hx).
  injection Hy as <-. cbn [set_pcbs pcbs]. rewrite list_insert_insert_eq.
  set (f := fun x => with_pending m (with_state BLOCKED x)).
  change (with_pending m (with_state BLOCKED x)) with (f x).
  change (set_pcbs (<[Z.to_nat idx := f x]> (pcbs k)) (set_pcbs _ k))
    with (set_pcbs (<[Z.to_nat idx := f x]> (pcbs k)) k).
  set (k2 := set_pcbs _ k).
  destruct (Z.eqb_spec idx (running_idx k2)) as [Heq|Hneq].
  - intros H.
    apply (leave_cpu_step k k' idx x f); [done | done | congruence | done | done |].
    cbn zeta. fold k2. by rewrite <- Heq, Z.eqb_refl.
  - destruct (Z.eqb_spec (running_idx k2) (-1)) as [Hidle|Hbusy].
    + intros H. apply schedule_next_step in H as (Hrel' & Hv' & _).
      split; [|done]. apply (pcbs_rel_trans _ _ k2); [|done].
      apply pcbs_rel_update; [apply _ | done | repeat split; simpl; congruence].
    + intros H.
      apply (leave_cpu_step k k' idx x f); [done | done | congruence | done | done |].
      cbn zeta. fold k2. destruct (Z.eqb_spec idx (running_idx k2)); [done|]. exact H.
Qed.

Lemma step_some (e : event) (k k' : Kernel) :
  step e k = Some k' ->
  pcbs_rel pcb_step k k' /\ (running_valid k -> running_valid k').
Proof.
  destruct e; cbn [step].
  - apply drain_inter_line_step.
  - apply app_tick_step.
  - apply app_done_step.
  - apply app_syscall_step.
  - intros H. apply handle_sfs_reply_step in H as (Hp & Hr & _).
    split; [by apply pcbs_rel_refl; [apply _|] | by apply running_valid_same].
  - apply reap_step.
Qed.

Lemma run_some (es : list event) :
  forall k k', run es k = Some k' ->
    pcbs_rel pcb_step k k' /\ (running_valid k -> running_valid k').
Proof.
  induction es as [|e es IH]; intros k k'; cbn [run].
  { intros [= <-]. split; [by apply pcbs_rel_refl; [apply _|] | done]. }
  destruct (step e k) as [k1|] eqn:Hstep; [|done]. cbn [mbind option_bind].
  intros Hrun. apply step_some in Hstep as [Hrel1 Hv1].
  apply IH in Hrun as [Hrel2 Hv2].
  split; [by apply (pcbs_rel_trans _ _ k1) | auto].
Qed.

End EventFrames.

Section PcbIdentity.

Lemma boot_pushes_some (idxs : list nat) :
  forall k k',
    foldl (fun ok i => k ← ok; rq_push_tail (Z.of_nat i) k) (Some k) idxs = Some k' ->
    pcbs k' = pcbs k /\ running_idx k' = running_idx k /\ shm k' = shm k.
Proof.
  induction idxs as [|i idxs IH]; intros k k'; cbn [foldl].
  { by intros [= <-]. }
  cbn [mbind option_bind].
  destruct (rq_push_tail (Z.of_nat i) k) as [k1|] eqn:Hpush.
  - apply rq_push_tail_some in Hpush as [q ->]. intros H. by apply IH in H.
  - assert (Hnone : forall l, foldl (fun ok i => k ← ok; rq_push_tail (Z.of_nat i) k)
                                    None l = None).
    { induction l as [|? ? IHl]; [done | exact IHl]. }
    by rewrite Hnone.
Qed.

Lemma boot_some (fork_pid : nat -> Z) (k : Kernel) :
  boot fork_pid = Some k ->
  running_valid k /\
  forall i, (i < N_APPS)%nat ->
    exists p, pcbs k !! i = Some p /\ pid p = fork_pid i /\ id p = Z.of_nat i + 1.
Proof.
  unfold boot. set (k0 := mkKernel _ _ _ _ _ _).
  destruct (foldl _ (Some k0) _) as [k1|] eqn:Hpush; [|done]. cbn [mbind option_bind].
  apply boot_pushes_some in Hpush as (Hp1 & _ & _).
  intros H. apply schedule_next_some in H as ([_ Hrel] & _ & _ & _ & Hv).
  split; [done|]. intros i Hi.
  destruct (Hrel i (mkPCB (fork_pid i) (Z.of_nat i + 1) READY 0 zero_msg))
    as (p' & Hp' & Hpid & Hid & _).
  { cbn [set_running_idx pcbs]. rewrite Hp1. cbn [k0 pcbs].
    rewrite list_lookup_fmap, lookup_seq_lt by done. done. }
  by exists p'.
Qed.

(** X12 -- [running_idx] never dangles: in every reachable state it is -1
    or the index of a PCB whose state is RUNNING. *)
Theorem running_idx_is_running (fork_pid : nat -> Z) (k : Kernel) :
  reachable fork_pid k ->
  running_idx k = -1 \/
  (0 <= running_idx k < Z.of_nat N_APPS /\
   state_of k (Z.to_nat (running_idx k)) = Some RUNNING).
Proof.
  intros Hk.
  assert (Hv : running_valid k).
  { induction Hk as [k Hboot|k e k' _ IH Hstep].
    - by apply boot_some in Hboot as [? _].
    - apply step_some in Hstep as [_ Hv]. auto. }
  destruct Hv as [?|[Hge Hrun]]; [by left|]. right.
  apply reachable_Inv in Hk as (Hok & _).
  pose proof (ok_running k Hok). split; [lia|]. by rewrite <- pcb_state_nat.
Qed.

(** X13 -- Along every sequence of events each PCB keeps its pid and its
    logical id, and TERMINATED is final: a terminated PCB stays terminated
    and its program counter no longer changes. *)
Theorem terminated_is_final (es : list event) (k k' : Kernel) (i : nat) (p : PCB) :
  run es k = Some k' -> pcbs k !! i = Some p ->
  exists p', pcbs k' !! i = Some p' /\ pid p' = pid p /\ id p' = id p /\
             (state p = TERMINATED -> state p' = TERMINATED /\ pc p' = pc p).
Proof.
  intros Hrun Hp. apply run_some in Hrun as [[_ Hrel] _].
  destruct (Hrel i p Hp) as (p' & Hp' & H). by exists p'.
Qed.

(** X14 -- The scheduler only dispatches READY processes: a call of
    [schedule_next] that returns leaves BLOCKED and TERMINATED PCBs in their
    state, changes no pid, id, program counter or saved syscall, and
    a PCB that is RUNNING afterwards was READY or RUNNING before. *)
Theorem scheduler_moves_only_ready (k k' : Kernel) (i : nat) (p : PCB) :
  schedule_next k = Some k' -> pcbs k !! i = Some p ->
  exists p', pcbs k' !! i = Some p' /\
    pid p' = pid p /\ id p' = id p /\ pc p' = pc p /\
    pending_syscall p' = pending_syscall p /\
    (state p = BLOCKED -> state p' = BLOCKED) /\
    (state p = TERMINATED -> state p' = TERMINATED) /\
    (state p' = RUNNING -> state p = READY \/ state p = RUNNING).
Proof.
  intros H Hp. apply schedule_next_some in H as ([_ Hrel] & _).
  destruct (Hrel i p Hp) as (p' & Hp' & H1 & H2 & H3 & H4 & H5).
  exists p'. repeat split; try done.
  - intros Hb. destruct H5 as [->|[[?|?] _]]; congruence.
  - intros Hb. destruct H5 as [->|[[?|?] _]]; congruence.
  - intros Hr. destruct H5 as [E|[? _]]; [|done]. right. congruence.
Qed.

Lemma pid_to_index_from_spec (l : list PCB) (p : Z) :
  forall base,
    (pid_to_index_from l base p = -1 /\ 0 <= base -> forall x, x ∈ l -> pid x <> p) /\
    (forall j, 0 <= base -> pid_to_index_from l base p = base + Z.of_nat j ->
       exists x, l !! j = Some x /\ pid x = p /\
                 forall j' y, (j' < j)%nat -> l !! j' = Some y -> pid y <> p).
Proof.
  induction l as [|x l IH]; intros base; cbn [pid_to_index_from].
  { split; [intros _ y Hy; by apply elem_of_nil in Hy | intros j Hb E; lia]. }
  destruct (Z.eqb_spec (pid x) p) as [Heq|Hne].
  - split; [lia|]. intros j Hb E. assert (j = O) by lia. subst j.
    exists x. split; [done|]. split; [done|]. intros; lia.
  - destruct (IH (base + 1)) as [IH1 IH2]. split.
    + intros [E Hb] y Hy. apply elem_of_cons in Hy as [->|Hy]; [done|].
      apply IH1; [split; [done|lia] | done].
    + intros j Hb E.
      pose proof (pid_to_index_from_range l (base + 1) p) as [Hr|Hr]; [lia|].
      destruct j as [|j]; [lia|].
      destruct (IH2 j) as (y & Hy & Hpy & Hfirst); [lia|lia|].
      exists y. split; [done|]. split; [done|].
      intros [|j'] z Hj' Hz; simpl in Hz; [by injection Hz as <-|].
      apply (Hfirst j' z); [lia|done].
Qed.

(** X15 -- [pid_to_index] is a first-match lookup: it returns the least
    index among the five PCBs whose pid is the one given, and -1 exactly
    when none has it. *)
Theorem pid_to_index_first_match (k : Kernel) (p : Z) :
  (pid_to_index k p = -1 /\
   forall i x, (i < N_APPS)%nat -> pcbs k !! i = Some x -> pid x <> p) \/
  (exists i x, pid_to_index k p = Z.of_nat i /\ (i < N_APPS)%nat /\
               pcbs k !! i = Some x /\ pid x = p /\
               forall j y, (j < i)%nat -> pcbs k !! j = Some y -> pid y <> p).
Proof.
  unfold pid_to_index.
  destruct (pid_to_index_from_spec (take N_APPS (pcbs k)) p 0) as [H1 H2].
  destruct (pid_to_index_from_range (take N_APPS (pcbs k)) 0 p) as [E|Hr].
  - left. split; [done|]. intros i x Hi Hx. apply H1; [by split|].
    apply list_elem_of_lookup. exists i. by rewrite lookup_take_lt.
  - right. set (r := pid_to_index_from (take N_APPS (pcbs k)) 0 p) in *.
    destruct (H2 (Z.to_nat r)) as (x & Hx & Hpx & Hfirst); [done|lia|].
    pose proof (lookup_lt_Some _ _ _ Hx) as Hlt. rewrite length_take in Hlt.
    exists (Z.to_nat r), x. split; [lia|]. split; [lia|].
    rewrite lookup_take_lt in Hx by lia. split; [done|]. split; [done|].
    intros j y Hj Hy. apply (Hfirst j y Hj). rewrite lookup_take_lt by lia. done.
Qed.

End PcbIdentity.

Section ReadyQueue.

Lemma kernel_ok_set_rq (k : Kernel) (q : ring Z) :
  kernel_ok k -> ring_wf MAX_READY q ->
  Forall (fun x => 0 <= x < Z.of_nat N_APPS) (ring_contents q) ->
  kernel_ok (set_rq q k).
Proof. intros Hok Hwf Hr. destruct Hok. by constructor. Qed.

Lemma pop_n_all (n : nat) :
  forall k, kernel_ok k -> q_sz (rq k) = n ->
    exists q, pop_n n k = Some (rq_contents k, set_rq q k) /\
              ring_wf MAX_READY q /\ q_sz q = O.
Proof.
  induction n as [|n IH]; intros k Hok Hn; cbn [pop_n].
  - exists (rq k). split; [|split; [apply Hok | done]].
    assert (Hc : rq_contents k = []).
    { apply length_zero_iff_nil. unfold rq_contents.
      rewrite (ring_contents_length MAX_READY); [done | apply Hok]. }
    rewrite Hc. by destruct k.
  - destruct (rq_pop_head_spec k Hok) as [[Hpop Hc]|(v & q' & Hpop & Hwf & Hc)].
    { exfalso. pose proof (ring_contents_length MAX_READY (rq k) (ok_rq _ Hok)) as Hl.
      unfold rq_contents in Hc. rewrite Hc in Hl. simpl in Hl. lia. }
    rewrite Hpop. cbn [mbind option_bind].
    assert (Hok' : kernel_ok (set_rq q' k)).
    { apply kernel_ok_set_rq; [done|done|].
      pose proof (ok_range k Hok) as Hr. rewrite Hc in Hr.
      by apply Forall_cons in Hr as [_ ?]. }
    destruct (IH (set_rq q' k) Hok') as (q & Hq & Hwfq & Hz).
    { pose proof (ring_contents_length MAX_READY (rq k) (ok_rq _ Hok)) as Hl.
      pose proof (ring_contents_length MAX_READY q' Hwf) as Hl'.
      unfold rq_contents in Hc. rewrite Hc in Hl. simpl in Hl.
      cbn [set_rq rq]. lia. }
    rewrite Hq. cbn [mbind option_bind]. exists q.
    split; [|done]. rewrite Hc. done.
Qed.

(** X16 -- The ready queue is first-in first-out.  [rq_push_tail] appends
    the index at the tail, or does nothing when five entries are waiting or
    the PCB is TERMINATED; popping as many times as there are entries then
    returns them oldest first, after which [rq_pop_head] answers -1 and
    leaves the queue alone. *)
Theorem rq_fifo (k : Kernel) (idx : Z) :
  kernel_ok k -> 0 <= idx < Z.of_nat N_APPS ->
  exists k1 k2,
    rq_push_tail idx k = Some k1 /\
    rq_contents k1 =
      (if bool_decide ((MAX_READY <= length (rq_contents k))%nat \/
                       pcb_state k idx = Some TERMINATED)
       then rq_contents k else rq_contents k ++ [idx]) /\
    pop_n (q_sz (rq k1)) k1 = Some (rq_contents k1, k2) /\
    rq_pop_head k2 = Some (-1, k2).
Proof.
  intros Hok Hidx.
  destruct (rq_push_tail_spec k idx Hok Hidx) as (q' & Hpush & Hwf & Hc).
  assert (Hok1 : kernel_ok (set_rq q' k)).
  { apply kernel_ok_set_rq; [done|done|].
    destruct Hc as [[-> _]|[-> _]]; [apply Hok|].
    apply Forall_app. split; [apply Hok | by constructor]. }
  destruct (pop_n_all _ (set_rq q' k) Hok1 eq_refl) as (q & Hq & Hwfq & Hz).
  exists (set_rq q' k), (set_rq q (set_rq q' k)).
  split; [done|]. split; [|split; [done|]].
  - change (rq_contents (set_rq q' k)) with (ring_contents q').
    destruct Hc as [[-> Hwhy]|[Hc Hwhy]].
    + by rewrite bool_decide_eq_true_2.
    + rewrite bool_decide_eq_false_2; [done|]. intros [Hfull|Hterm]; [|done].
      pose proof (ring_contents_length MAX_READY q' Hwf) as Hl.
      destruct Hwf as (_ & _ & Hsz & _).
      rewrite Hc, length_app in Hl. simpl in Hl. lia.
  - unfold rq_pop_head. cbn [set_rq rq]. by rewrite Hz.
Qed.

End ReadyQueue.

Section RoundRobin.

Lemma reachable_running_valid (fork_pid : nat -> Z) (k : Kernel) :
  reachable fork_pid k -> running_valid k.
Proof.
  induction 1 as [k Hboot|k e k' _ IH Hstep].
  - by apply boot_some in Hboot as [? _].
  - apply step_some in Hstep as [_ Hv]. auto.
Qed.

Lemma stop_running_idle (k : Kernel) :
  kernel_ok k -> (forall i, state_of k i <> Some RUNNING) -> stop_running k = Some k.
Proof.
  intros Hok Hnone. unfold stop_running.
  destruct (Z.leb_spec 0 (running_idx k)) as [Hge|?]; [|done].
  pose proof (ok_running k Hok) as Hr.
  rewrite pcb_state_nat by done.
  destruct (state_of_is_Some k (Z.to_nat (running_idx k))) as [s Hs];
    [apply Hok | unfold N_APPS in *; lia |].
  rewrite Hs. cbn [mbind option_bind].
  destruct (decide (s = RUNNING)) as [->|_]; [|done]. by apply Hnone in Hs.
Qed.

(** With nobody RUNNING and a READY index at the head of the queue,
    [schedule_next] pops that index and runs it; nothing else changes. *)
Lemma schedule_next_runs_head (k : Kernel) (x : Z) (l : list Z) :
  kernel_ok k -> rq_contents k = x :: l ->
  state_of k (Z.to_nat x) = Some READY ->
  (forall i, state_of k i <> Some RUNNING) ->
  exists q p,
    schedule_next k =
      Some (set_running_idx x
              (set_pcbs (<[Z.to_nat x := with_state RUNNING p]> (pcbs k)) (set_rq q k))) /\
    pcbs k !! Z.to_nat x = Some p /\ ring_contents q = l /\ ring_wf MAX_READY q /\
    0 <= x < Z.of_nat N_APPS.
Proof.
  intros Hok Hc Hready Hnone.
  pose proof (ring_contents_length MAX_READY (rq k) (ok_rq _ Hok)) as Hl.
  fold (rq_contents k) in Hl. rewrite Hc in Hl. cbn [length] in Hl.
  unfold schedule_next. cbn [schedule_next_fuel]. rewrite <- Hl. cbn [schedule_scan].
  destruct (rq_pop_head_spec k Hok) as [[_ Hc']|(v & q & Hpop & Hwf & Hc')];
    [congruence|].
  rewrite Hc in Hc'. injection Hc' as <- Hq.
  rewrite Hpop. cbn [mbind option_bind].
  pose proof (ok_range k Hok) as Hr. rewrite Hc in Hr.
  apply Forall_cons in Hr as [Hx Hr].
  destruct (Z.ltb_spec x 0) as [?|_]; [lia|].
  rewrite pcb_state_nat by lia.
  change (state_of (set_rq q k) (Z.to_nat x)) with (state_of k (Z.to_nat x)).
  rewrite Hready. cbn [mbind option_bind].
  rewrite stop_running_idle; [|apply kernel_ok_set_rq; [done|done|by rewrite <- Hq]|done].
  cbn [mbind option_bind].
  destruct (update_pcb_spec (set_rq q k) x (with_state RUNNING)) as (p & Hp & Hup);
    [apply Hok | done |].
  rewrite Hup. cbn [mbind option_bind].
  exists q, p. split; [done|]. split; [exact Hp|]. split; [by symmetry|]. by split.
Qed.

(** X17 -- Round robin: when the quantum expires in a reachable state whose
    queue has room, the RUNNING process is marked READY and appended at the
    tail, and the READY process at the head of the queue gets the CPU; with
    an empty queue the RUNNING process keeps the CPU. *)
Theorem irq0_round_robin (fork_pid : nat -> Z) (k : Kernel) (r : nat) :
  reachable fork_pid k ->
  running_idx k = Z.of_nat r ->
  (length (rq_contents k) < MAX_READY)%nat ->
  exists k', step (InterLine "IRQ0") k = Some k' /\
    match rq_contents k with
    | [] =>
        running_idx k' = Z.of_nat r /\ rq_contents k' = [] /\
        forall i, state_of k' i = state_of k i
    | x :: l =>
        state_of k (Z.to_nat x) = Some READY ->
        running_idx k' = x /\ rq_contents k' = l ++ [Z.of_nat r] /\
        forall i, state_of k' i =
                  if decide (i = Z.to_nat x) then Some RUNNING
                  else if decide (i = r) then Some READY else state_of k i
    end.
Proof.
  intros Hk Hr Hroom.
  pose proof (reachable_running_valid _ _ Hk) as [Hidle|[_ Hrun]]; [lia|].
  pose proof (reachable_Inv _ _ Hk) as HI. pose proof HI as (Hok & Hun & _).
  rewrite pcb_state_nat, Hr, Nat2Z.id in Hrun by lia.
  cbn [step]. unfold drain_inter_line.
  change (strcmp_eq "IRQ0" "IRQ0") with true. cbn iota.
  destruct (Z.leb_spec 0 (running_idx k)) as [_|?]; [|lia].
  rewrite pcb_state_nat, Hr, Nat2Z.id, Hrun by lia. cbn [mbind option_bind].
  rewrite decide_True by done.
  destruct (update_inv false k (Z.of_nat r) (with_state READY) HI)
    as (p & k1 & Hp & Hup & HI1 & Hr1 & Hc1 & Hs1).
  { pose proof (ok_running k Hok). lia. }
  { done. }
  { done. }
  rewrite Hup. cbn [mbind option_bind]. rewrite Nat2Z.id in Hs1, Hp.
  destruct (push_inv false k1 (Z.of_nat r) HI1) as (k2 & Hpush & HI2 & Hpc & Hri & Hc2).
  { pose proof (ok_running k Hok). lia. }
  { done. }
  rewrite Hpush. cbn [mbind option_bind].
  assert (Hc2' : rq_contents k2 = rq_contents k ++ [Z.of_nat r]).
  { destruct Hc2 as [[_ [Hfull|Hterm]]|[-> _]]; [rewrite Hc1 in Hfull; lia| |by rewrite Hc1].
    rewrite pcb_state_nat, Nat2Z.id, Hs1, decide_True in Hterm by (done || lia). done. }
  assert (Hs2 : forall i, state_of k2 i =
             if decide (i = r) then Some READY else state_of k i).
  { intros i. unfold state_of. rewrite Hpc. apply Hs1. }
  assert (Hnone : forall i, state_of (set_running_idx (-1) k2) i <> Some RUNNING).
  { intros i. change (state_of (set_running_idx (-1) k2) i) with (state_of k2 i).
    rewrite Hs2. case_decide; [done|]. intros Hi. apply Hun in Hi. lia. }
  assert (Hok3 : kernel_ok (set_running_idx (-1) k2)).
  { apply Inv_no_running in HI2 as [? _]; [done|exact Hnone]. }
  destruct (rq_contents k) as [|x l] eqn:Hc.
  - destruct (schedule_next_runs_head (set_running_idx (-1) k2) (Z.of_nat r) [] Hok3)
      as (q & p' & Hsched & Hp' & Hq & Hwf & _).
    + exact Hc2'.
    + change (state_of (set_running_idx (-1) k2)) with (state_of k2).
      rewrite Nat2Z.id, Hs2. by case_decide.
    + exact Hnone.
    + rewrite Nat2Z.id in Hp'. cbn [set_running_idx pcbs] in Hp'.
      eexists. split; [exact Hsched|]. split; [done|]. split; [exact Hq|].
      intros i. unfold state_of. cbn [set_running_idx set_pcbs set_rq pcbs].
      rewrite Nat2Z.id.
      destruct (decide (i = r)) as [->|Hne].
      * rewrite list_lookup_insert_eq by (by apply lookup_lt_Some in Hp').
        simpl. by rewrite <- Hrun.
      * rewrite list_lookup_insert_ne by done. fold (state_of k2 i).
        rewrite Hs2. by case_decide.
  - destruct (decide (state_of k (Z.to_nat x) = Some READY)) as [Hx|Hx].
    + assert (Hxr : Z.to_nat x <> r) by (intros E; rewrite E in Hx; congruence).
      destruct (schedule_next_runs_head (set_running_idx (-1) k2) x (l ++ [Z.of_nat r]) Hok3)
        as (q & p' & Hsched & Hp' & Hq & Hwf & _).
      * exact Hc2'.
      * change (state_of (set_running_idx (-1) k2)) with (state_of k2).
        rewrite Hs2. by case_decide.
      * exact Hnone.
      * cbn [set_running_idx pcbs] in Hp'.
        eexists. split; [exact Hsched|]. intros _. split; [done|]. split; [exact Hq|].
        intros i. unfold state_of. cbn [set_running_idx set_pcbs set_rq pcbs].
        destruct (decide (i = Z.to_nat x)) as [->|Hne].
        -- rewrite list_lookup_insert_eq by (by apply lookup_lt_Some in Hp'). done.
        -- rewrite list_lookup_insert_ne by done. fold (state_of k2 i). apply Hs2.
    + destruct (schedule_next_inv false (set_running_idx (-1) k2)) as (k' & Hk' & _).
      { by apply Inv_no_running. }
      exists k'. split; [exact Hk' | done].
Qed.

End RoundRobin.

Section ReplyQueues.

(** X18 -- Replies wait in two first-in first-out queues.  A datagram from
    SFSS changes nothing but the queue of its kind: a RD_REP or WR_REP is
    appended to the file queue, a DC_REP, DR_REP or DL_REP to the directory
    queue, unless five replies are already waiting there, in which case it
    is dropped; a message of any other type is ignored. *)
Theorem reply_enqueued (fork_pid : nat -> Z) (k : Kernel) (m : SfpMessage) :
  reachable fork_pid k ->
  exists k', step (Datagram m) k = Some k' /\
    pcbs k' = pcbs k /\ running_idx k' = running_idx k /\ rq k' = rq k /\
    shm k' = shm k /\
    ring_contents (file_req_q k') =
      (if ((msg_type m =? SFP_MSG_RD_REP) || (msg_type m =? SFP_MSG_WR_REP))
          && Nat.ltb (length (ring_contents (file_req_q k))) MAX_BLOCKED
       then ring_contents (file_req_q k) ++ [m] else ring_contents (file_req_q k)) /\
    ring_contents (dir_req_q k') =
      (if ((msg_type m =? SFP_MSG_DC_REP) || (msg_type m =? SFP_MSG_DR_REP)
           || (msg_type m =? SFP_MSG_DL_REP))
          && Nat.ltb (length (ring_contents (dir_req_q k))) MAX_BLOCKED
       then ring_contents (dir_req_q k) ++ [m] else ring_contents (dir_req_q k)).
Proof.
  intros Hk. apply reachable_Inv in Hk as (Hok & _).
  rewrite (ring_contents_length MAX_BLOCKED (file_req_q k)) by apply Hok.
  rewrite (ring_contents_length MAX_BLOCKED (dir_req_q k)) by apply Hok.
  cbn [step]. unfold handle_sfs_reply.
  unfold SFP_MSG_RD_REP, SFP_MSG_WR_REP, SFP_MSG_DC_REP, SFP_MSG_DR_REP, SFP_MSG_DL_REP.
  assert (Hfile : Nat.ltb (q_sz (file_req_q k)) MAX_BLOCKED = true ->
            exists q', ring_put MAX_BLOCKED m (file_req_q k) = Some q' /\
                       ring_contents q' = ring_contents (file_req_q k) ++ [m]).
  { intros Hroom. apply Nat.ltb_lt in Hroom.
    destruct (ring_put_spec MAX_BLOCKED m (file_req_q k)) as (q' & Hp & _ & Hc);
      [apply Hok | done | by exists q']. }
  assert (Hdir : Nat.ltb (q_sz (dir_req_q k)) MAX_BLOCKED = true ->
            exists q', ring_put MAX_BLOCKED m (dir_req_q k) = Some q' /\
                       ring_contents q' = ring_contents (dir_req_q k) ++ [m]).
  { intros Hroom. apply Nat.ltb_lt in Hroom.
    destruct (ring_put_spec MAX_BLOCKED m (dir_req_q k)) as (q' & Hp & _ & Hc);
      [apply Hok | done | by exists q']. }
  destruct ((msg_type m =? 1) || (msg_type m =? 3)) eqn:Ef; cbn [andb].
  - assert (Ed : (msg_type m =? 5) || (msg_type m =? 7) || (msg_type m =? 9) = false).
    { apply orb_true_iff in Ef as [E|E]; apply Z.eqb_eq in E; by rewrite E. }
    rewrite Ed. cbn [andb].
    destruct (Nat.ltb (q_sz (file_req_q k)) MAX_BLOCKED).
    + destruct (Hfile eq_refl) as (q' & Hp & Hc). rewrite Hp. cbn [mbind option_bind].
      eexists. split; [reflexivity|]. by repeat split.
    + eexists. split; [reflexivity|]. by repeat split.
  - destruct ((msg_type m =? 5) || (msg_type m =? 7) || (msg_type m =? 9)); cbn [andb];
      [|eexists; split; [reflexivity|]; by repeat split].
    destruct (Nat.ltb (q_sz (dir_req_q k)) MAX_BLOCKED).
    + destruct (Hdir eq_refl) as (q' & Hp & Hc). rewrite Hp. cbn [mbind option_bind].
      eexists. split; [reflexivity|]. by repeat split.
    + eexists. split; [reflexivity|]. by repeat split.
Qed.

Lemma unblock_owner_delivers (m : SfpMessage) (k : Kernel) :
  Inv false k ->
  exists k', unblock_owner m k = Some k' /\
    file_req_q k' = file_req_q k /\ dir_req_q k' = dir_req_q k /\
    (forall i, owner m = Z.of_nat i + 1 -> state_of k i = Some BLOCKED ->
       shm k' !! i = Some m /\
       (state_of k' i = Some READY \/ state_of k' i = Some RUNNING)) /\
    ((forall i, owner m = Z.of_nat i + 1 -> state_of k i <> Some BLOCKED) -> k' = k).
Proof.
  intros HI. destruct (unblock_owner_inv false m k HI) as (k' & Hk' & _).
  exists k'. split; [done|]. pose proof HI as (Hok & _).
  unfold unblock_owner in Hk'. set (idx := owner m - 1) in *.
  destruct (Z.leb_spec 0 idx) as [Hge|Hneg]; cbn [andb] in Hk'.
  2: { injection Hk' as <-. split; [done|]. split; [done|]. split; [|done].
       intros i Hi. lia. }
  destruct (Z.ltb_spec idx (Z.of_nat N_APPS)) as [Hlt|Hbig]; cbn [andb] in Hk'.
  2: { injection Hk' as <-. split; [done|]. split; [done|]. split; [|done].
       intros i Hi Hs. apply state_of_lt in Hs; [lia | apply Hok]. }
  case_bool_decide as Hblk.
  2: { injection Hk' as <-. split; [done|]. split; [done|]. split; [|done].
       intros i Hi Hs. exfalso. apply Hblk. rewrite pcb_state_nat by done.
       replace (Z.to_nat idx) with i by lia. done. }
  rewrite pcb_state_nat in Hblk by done.
  unfold store_idx, at_idx in Hk'.
  destruct (Z.ltb_spec idx 0) as [?|_]; [lia|].
  destruct (lookup_lt_is_Some_2 (shm k) (Z.to_nat idx)) as [m0 Hm0];
    [rewrite (ok_shm k Hok); lia|].
  rewrite Hm0 in Hk'. cbn [mbind option_bind] in Hk'.
  destruct (update_pcb _ _ _) as [k1|] eqn:Hup; [|done]. cbn [mbind option_bind] in Hk'.
  apply update_pcb_some in Hup as (_ & p & Hp & ->).
  destruct (rq_push_tail _ _) as [k2|] eqn:Hpush; [|done]. cbn [mbind option_bind] in Hk'.
  apply rq_push_tail_some in Hpush as [q ->].
  set (k2 := set_rq q _) in *.
  assert (Hshm2 : shm k2 !! Z.to_nat idx = Some m).
  { cbn [k2 set_rq set_pcbs set_shm shm]. apply list_lookup_insert_eq.
    by apply lookup_lt_Some in Hm0. }
  assert (Hst2 : exists p2, pcbs k2 !! Z.to_nat idx = Some p2 /\ state p2 = READY).
  { exists (with_state READY p). split; [|done].
    cbn [k2 set_rq set_pcbs pcbs]. apply list_lookup_insert_eq.
    by apply lookup_lt_Some in Hp. }
  destruct Hst2 as (p2 & Hp2 & Hs2).
  assert (Hfinal : file_req_q k' = file_req_q k /\ dir_req_q k' = dir_req_q k /\
                   shm k' !! Z.to_nat idx = Some m /\
                   (state_of k' (Z.to_nat idx) = Some READY \/
                    state_of k' (Z.to_nat idx) = Some RUNNING)).
  { destruct (running_idx k2 =? -1).
    - apply schedule_next_some in Hk' as ([_ Hrel] & Hsh & Hf & Hd & _).
      split; [by rewrite Hf|]. split; [by rewrite Hd|]. split; [by rewrite Hsh|].
      destruct (Hrel _ _ Hp2) as (p' & Hp' & _ & _ & _ & _ & Hmove).
      unfold state_of. rewrite Hp'. simpl. rewrite Hs2 in Hmove.
      destruct Hmove as [->|[_ [->| ->]]]; auto.
    - injection Hk' as <-. split; [done|]. split; [done|]. split; [done|].
      left. unfold state_of. rewrite Hp2. simpl. by rewrite Hs2. }
  destruct Hfinal as (Hf & Hd & Hsh & Hst).
  split; [done|]. split; [done|]. split.
  - intros i Hi _. replace i with (Z.to_nat idx) by lia. done.
  - intros Hnot. exfalso. apply (Hnot (Z.to_nat idx)); [lia|done].
Qed.

(** X19 -- IRQ1 and IRQ2 deliver the oldest waiting reply.  The reply at
    the head of the file queue (IRQ1) or directory queue (IRQ2) is taken off
    the queue; when the PCB of its owner is BLOCKED the reply is copied into
    that application's shared-memory slot and the PCB becomes READY (or
    RUNNING, if the CPU was idle); when no PCB of that owner is BLOCKED the
    reply is discarded and nothing else changes. *)
Theorem irq_delivers_oldest_reply (fork_pid : nat -> Z) (k : Kernel)
    (line : string) (sel : Kernel -> ring SfpMessage) (m : SfpMessage)
    (rest : list SfpMessage) :
  reachable fork_pid k ->
  (line = "IRQ1"%string /\ sel = file_req_q) \/ (line = "IRQ2"%string /\ sel = dir_req_q) ->
  ring_contents (sel k) = m :: rest ->
  exists k', step (InterLine line) k = Some k' /\
    ring_contents (sel k') = rest /\
    (forall i, owner m = Z.of_nat i + 1 -> state_of k i = Some BLOCKED ->
       shm k' !! i = Some m /\
       (state_of k' i = Some READY \/ state_of k' i = Some RUNNING)) /\
    ((forall i, owner m = Z.of_nat i + 1 -> state_of k i <> Some BLOCKED) ->
     pcbs k' = pcbs k /\ shm k' = shm k /\ rq k' = rq k /\
     running_idx k' = running_idx k).
Proof.
  intros Hk Hline Hc. pose proof (reachable_Inv _ _ Hk) as HI.
  pose proof HI as (Hok & _).
  assert (Hwf : ring_wf MAX_BLOCKED (sel k))
    by (destruct Hline as [[_ ->]|[_ ->]]; apply Hok).
  assert (Hne : (0 < q_sz (sel k))%nat).
  { pose proof (ring_contents_length MAX_BLOCKED (sel k) Hwf) as Hl.
    rewrite Hc in Hl. simpl in Hl. lia. }
  destruct (ring_take_spec MAX_BLOCKED (sel k) Hwf Hne) as (x & q' & Ht & Hwf' & Hc').
  rewrite Hc in Hc'. injection Hc' as <- Hrest.
  cbn [step]. unfold drain_inter_line.
  destruct Hline as [[-> ->]|[-> ->]].
  - change (strcmp_eq "IRQ1" "IRQ0") with false.
    change (strcmp_eq "IRQ1" "IRQ1") with true. cbn iota.
    destruct (Nat.ltb_spec 0 (q_sz (file_req_q k))) as [_|?]; [|lia].
    rewrite Ht. cbn [mbind option_bind].
    destruct (unblock_owner_delivers m (set_file_req_q q' k))
      as (k' & Hk' & Hf & Hd & Hyes & Hno); [by apply Inv_set_file_req_q|].
    exists k'. split; [done|]. split; [by rewrite Hf|]. split; [exact Hyes|].
    intros Hnot. by rewrite (Hno Hnot).
  - change (strcmp_eq "IRQ2" "IRQ0") with false.
    change (strcmp_eq "IRQ2" "IRQ1") with false.
    change (strcmp_eq "IRQ2" "IRQ2") with true. cbn iota.
    destruct (Nat.ltb_spec 0 (q_sz (dir_req_q k))) as [_|?]; [|lia].
    rewrite Ht. cbn [mbind option_bind].
    destruct (unblock_owner_delivers m (set_dir_req_q q' k))
      as (k' & Hk' & Hf & Hd & Hyes & Hno); [by apply Inv_set_dir_req_q|].
    exists k'. split; [done|]. split; [by rewrite Hd|]. split; [exact Hyes|].
    intros Hnot. by rewrite (Hno Hnot).
Qed.

End ReplyQueues.

Section Boot.

(** X20 -- The state [run_kernel] starts its main loop in: application A1
    is RUNNING, A2..A5 are READY and wait in the queue in that order, and
    PCB [i] carries the pid returned by the [i]-th [fork] and the logical id
    [i + 1]. *)
Theorem boot_state (fork_pid : nat -> Z) :
  exists k, boot fork_pid = Some k /\
    running_idx k = 0 /\ rq_contents k = [1; 2; 3; 4] /\
    map state (pcbs k) = [RUNNING; READY; READY; READY; READY] /\
    map pid (pcbs k) = map fork_pid (seq 0 N_APPS) /\
    map id (pcbs k) = [1; 2; 3; 4; 5].
Proof.
  assert (H : (fun k => (running_idx k, rq_contents k, map state (pcbs k),
                         map pid (pcbs k), map id (pcbs k))) <$> boot fork_pid
              = Some (0, [1; 2; 3; 4], [RUNNING; READY; READY; READY; READY],
                      map fork_pid (seq 0 N_APPS), [1; 2; 3; 4; 5]))
    by (vm_compute; reflexivity).
  destruct (boot fork_pid) as [k|]; [|discriminate H].
  injection H as H1 H2 H3 H4 H5. by exists k.
Qed.

Lemma reachable_pcbs (fork_pid : nat -> Z) (k : Kernel) :
  reachable fork_pid k ->
  forall i, (i < N_APPS)%nat ->
    exists p, pcbs k !! i = Some p /\ pid p = fork_pid i /\ id p = Z.of_nat i + 1.
Proof.
  induction 1 as [k Hboot|k e k' _ IH Hstep]; intros i Hi.
  - apply boot_some in Hboot as [_ H]. by apply H.
  - destruct (IH i Hi) as (p & Hp & Hpid & Hid).
    apply step_some in Hstep as [[_ Hrel] _].
    destruct (Hrel i p Hp) as (p' & Hp' & Hpid' & Hid' & _).
    exists p'. split; [done|]. split; congruence.
Qed.

(** X21 -- Messages are attributed to the right PCB: in every reachable
    state PCB [i] still carries the pid of the [i]-th forked child and the
    id [i + 1], so that, the children's pids being distinct, [pid_to_index]
    maps the pid of application [i + 1] to index [i] and any other pid
    to -1. *)
Theorem apps_keep_their_pcb (fork_pid : nat -> Z) (k : Kernel) :
  reachable fork_pid k ->
  (forall a b, (a < N_APPS)%nat -> (b < N_APPS)%nat -> fork_pid a = fork_pid b -> a = b) ->
  (forall i, (i < N_APPS)%nat ->
     pid_to_index k (fork_pid i) = Z.of_nat i /\
     exists p, pcbs k !! i = Some p /\ pid p = fork_pid i /\ id p = Z.of_nat i + 1) /\
  (forall p, (forall i, (i < N_APPS)%nat -> fork_pid i <> p) -> pid_to_index k p = -1).
Proof.
  intros Hk Hinj. pose proof (reachable_pcbs _ _ Hk) as Hpcbs.
  assert (Hfound : forall p r, pid_to_index k p = Z.of_nat r ->
            (r < N_APPS)%nat /\ fork_pid r = p).
  { intros p r Hr. unfold pid_to_index in Hr.
    destruct (pid_to_index_from_spec (take N_APPS (pcbs k)) p 0) as [_ H2].
    destruct (H2 r) as (x & Hx & Hpx & _); [done|lia|].
    pose proof (lookup_lt_Some _ _ _ Hx) as Hlt. rewrite length_take in Hlt.
    split; [lia|]. rewrite lookup_take_lt in Hx by lia.
    destruct (Hpcbs r) as (y & Hy & Hpy & _); [lia|]. congruence. }
  assert (Hmiss : forall p i, pid_to_index k p = -1 -> (i < N_APPS)%nat -> fork_pid i <> p).
  { intros p i Hm Hi. unfold pid_to_index in Hm.
    destruct (pid_to_index_from_spec (take N_APPS (pcbs k)) p 0) as [H1 _].
    destruct (Hpcbs i Hi) as (y & Hy & Hpy & _). rewrite <- Hpy.
    apply H1; [by split|]. apply list_elem_of_lookup. exists i.
    by rewrite lookup_take_lt. }
  split.
  - intros i Hi. split; [|by apply Hpcbs].
    pose proof (pid_to_index_range k (fork_pid i)) as Hr.
    destruct (Z.eq_dec (pid_to_index k (fork_pid i)) (-1)) as [E|E].
    + by destruct (Hmiss _ i E Hi).
    + destruct (Hfound (fork_pid i) (Z.to_nat (pid_to_index k (fork_pid i)))) as [Hlt Heq];
        [lia|].
      apply Hinj in Heq; [lia|done|done].
  - intros p Hp. pose proof (pid_to_index_range k p) as Hr.
    destruct (Z.eq_dec (pid_to_index k p) (-1)) as [E|E]; [done|].
    destruct (Hfound p (Z.to_nat (pid_to_index k p))) as [Hlt Heq]; [lia|].
    by destruct (Hp _ Hlt).
Qed.

End Boot.

Section WorkConservation.

(** When no syscall arrived out of turn the queue holds READY and
    TERMINATED entries only, so a scan that dispatches nothing has dropped
    everything it popped. *)
Lemma schedule_scan_drains (tries : nat) :
  forall k k', Inv true k -> schedule_scan tries k = Some (false, k') ->
    rq_contents k' = drop tries (rq_contents k).
Proof.
  induction tries as [|tries IH]; intros k k' HI Hscan; cbn [schedule_scan] in Hscan.
  { by injection Hscan as <-. }
  pose proof HI as (Hok & Hun & Hst).
  destruct (rq_pop_head_spec k Hok) as [[Hpop Hc]|(v & q' & Hpop & Hwf & Hc)];
    rewrite Hpop in Hscan; cbn [mbind option_bind] in Hscan.
  { cbn in Hscan. injection Hscan as <-. by rewrite Hc. }
  destruct (Inv_popped true k v q' HI Hwf Hc) as (HI1 & Hv & Hfresh).
  destruct (Hfresh eq_refl) as (_ & Hnr & Hnb).
  destruct (Z.ltb_spec v 0) as [?|_]; [lia|].
  rewrite pcb_state_nat in Hscan by lia.
  change (state_of (set_rq q' k) (Z.to_nat v)) with (state_of k (Z.to_nat v)) in Hscan.
  destruct (state_of k (Z.to_nat v)) as [[| | |]|] eqn:Hs;
    cbn [mbind option_bind] in Hscan; try done.
  - destruct (stop_running (set_rq q' k)) as [k2|]; cbn [mbind option_bind] in Hscan;
      [|done].
    by destruct (update_pcb v (with_state RUNNING) k2).
  - rewrite Hc. cbn [drop]. by apply (IH (set_rq q' k)).
Qed.

(** The reconciliation loop reports every READY PCB it meets. *)
Lemma requeue_ready_found (idxs : list nat) :
  forall found k found' k',
    requeue_ready idxs found k = Some (found', k') ->
    (found = true -> found' = true) /\
    (found' = false -> forall i, i ∈ idxs -> state_of k i <> Some READY).
Proof.
  induction idxs as [|i idxs IH]; intros found k found' k' Hrun;
    cbn [requeue_ready] in Hrun.
  { injection Hrun as <- <-. split; [done|]. intros _ i Hi. by apply elem_of_nil in Hi. }
  rewrite pcb_state_nat, Nat2Z.id in Hrun by lia.
  destruct (state_of k i) as [s|] eqn:Hs; [|done]. cbn [mbind option_bind] in Hrun.
  destruct (decide (s = READY)) as [->|Hne].
  - destruct (rq_push_tail (Z.of_nat i) k) as [k1|] eqn:Hpush; [|done].
    cbn [mbind option_bind] in Hrun.
    apply IH in Hrun as [Ht _]. split; [by intros _; apply Ht|].
    intros Hf. by rewrite (Ht eq_refl) in Hf.
  - apply IH in Hrun as [Ht Hf]. split; [done|].
    intros Hff j Hj. apply elem_of_cons in Hj as [->|Hj]; [congruence | by apply Hf].
Qed.

(** Called with no process RUNNING, [schedule_next] leaves the CPU idle
    only when no PCB is READY. *)
Lemma schedule_next_idle (k k' : Kernel) :
  Inv true k -> (forall i, state_of k i <> Some RUNNING) ->
  schedule_next k = Some k' -> work_conserving k'.
Proof.
  intros HI Hnorun Hrun Hidle. unfold schedule_next in Hrun.
  cbn [schedule_next_fuel] in Hrun.
  destruct (schedule_scan_inv true (q_sz (rq k)) k HI) as (r & k1 & Hscan & HI1 & Hpost).
  rewrite Hscan in Hrun. cbn [mbind option_bind] in Hrun.
  destruct r.
  { injection Hrun as <-. apply schedule_scan_some in Hscan as (_ & _ & _ & _ & Hr & _). lia. }
  destruct (Hpost eq_refl) as (Hs1 & Hr1 & _).
  pose proof (schedule_scan_drains _ _ _ HI Hscan) as Hq1.
  pose proof HI as (Hok & _ & _).
  rewrite <- (ring_contents_length MAX_READY (rq k)) in Hq1 by apply Hok.
  fold (rq_contents k) in Hq1. rewrite drop_all in Hq1.
  destruct (stop_running_inv true k1 HI1) as (k2 & Hstop & HI2 & Hnone & Hr2 & Hsame & Hsub).
  rewrite Hstop in Hrun. cbn [mbind option_bind] in Hrun.
  assert (Hempty : rq_contents k2 = []).
  { destruct (rq_contents k2) as [|x l] eqn:Hc; [done|]. exfalso.
    destruct (Hsub x) as [Hin|[_ Hx]]; [by left | | ].
    - rewrite Hq1 in Hin. by apply elem_of_nil in Hin.
    - rewrite Hs1 in Hx. by apply Hnorun in Hx. }
  pose proof HI2 as (Hok2 & _ & _).
  assert (Hsz2 : q_sz (rq k2) = 0%nat).
  { rewrite <- (ring_contents_length MAX_READY (rq k2)) by apply Hok2.
    fold (rq_contents k2). by rewrite Hempty. }
  rewrite Hsz2 in Hrun. cbn [Nat.eqb] in Hrun.
  destruct (requeue_ready_inv true (seq 0 N_APPS) false k2 HI2)
    as (found & k3 & Hreq & HI3 & Hs3 & Hr3 & Hready & Hfound).
  { apply NoDup_seq. }
  { intros i Hi. apply elem_of_seq in Hi. rewrite Hempty.
    split; [lia | apply not_elem_of_nil]. }
  { intros x Hx. rewrite Hempty in Hx. by apply not_elem_of_nil in Hx. }
  { rewrite Hempty, length_seq. simpl. unfold MAX_READY. lia. }
  { by rewrite Hempty. }
  rewrite Hreq in Hrun. cbn [mbind option_bind] in Hrun.
  destruct found.
  - exfalso. cbn [schedule_next_fuel] in Hrun.
    destruct (schedule_scan_inv true (q_sz (rq k3)) k3 HI3)
      as (r & k4 & Hscan4 & HI4 & Hpost4).
    rewrite Hscan4 in Hrun. cbn [mbind option_bind] in Hrun.
    destruct r.
    + injection Hrun as <-.
      apply schedule_scan_some in Hscan4 as (_ & _ & _ & _ & Hr & _). lia.
    + destruct (Hpost4 eq_refl) as (_ & _ & Hhead).
      assert (Hne : rq_contents k3 <> []) by by apply Hfound.
      destruct (rq_contents k3) as [|x l] eqn:Hc; [done|].
      apply (Hhead) with (x := x) (l := l); [|done|].
      * pose proof HI3 as (Hok3 & _ & _).
        pose proof (ring_contents_length MAX_READY (rq k3) (ok_rq _ Hok3)) as Hl.
        unfold rq_contents in Hc. rewrite Hc in Hl. simpl in Hl. lia.
      * apply Hready. by left.
  - injection Hrun as <-. intros i Hi.
    change (state_of (set_running_idx (-1) k3) i) with (state_of k3 i) in Hi.
    apply requeue_ready_found in Hreq as [_ Hnone3].
    apply (Hnone3 eq_refl i).
    + apply elem_of_seq. rewrite Hs3 in Hi.
      apply state_of_lt in Hi; [lia | apply Hok2].
    + by rewrite <- Hs3.
Qed.

Lemma resched_conserves (k k' : Kernel) :
  Inv true k -> (forall i, state_of k i <> Some RUNNING) ->
  schedule_next (set_running_idx (-1) k) = Some k' -> work_conserving k'.
Proof.
  intros HI Hnone. apply schedule_next_idle; [by apply Inv_no_running | done].
Qed.

Lemma sched_conserves (k k' : Kernel) :
  Inv true k -> running_idx k = -1 ->
  schedule_next k = Some k' -> work_conserving k'.
Proof.
  intros HI Hidle. apply schedule_next_idle; [done|].
  intros i Hi. destruct HI as (_ & Hun & _). apply Hun in Hi. lia.
Qed.

Lemma irq0_conserves (k k' : Kernel) :
  Inv true k -> drain_inter_line "IRQ0" k = Some k' -> work_conserving k'.
Proof.
  intros HI. pose proof HI as (Hok & Hun & Hst).
  unfold drain_inter_line. change (strcmp_eq "IRQ0" "IRQ0") with true. cbn iota.
  destruct (Z.leb_spec 0 (running_idx k)) as [Hge|Hlt].
  2: { cbn [mbind option_bind]. apply schedule_next_idle; [done|].
       intros i Hi. apply Hun in Hi. lia. }
  pose proof (ok_running k Hok) as Hr.
  rewrite pcb_state_nat by done.
  destruct (state_of_is_Some k (Z.to_nat (running_idx k))) as [s Hs];
    [apply Hok | unfold N_APPS in *; lia |].
  rewrite Hs. cbn [mbind option_bind].
  destruct (decide (s = RUNNING)) as [->|Hne].
  2: { cbn [mbind option_bind]. apply schedule_next_idle; [done|].
       intros i Hi. pose proof (Hun i Hi) as Hri. rewrite Hri, Nat2Z.id in Hs. congruence. }
  destruct (update_inv true k (running_idx k) (with_state READY) HI)
    as (p & k1 & Hp & Hup & HI1 & Hr1 & Hc1 & Hs1); [lia|done|done|].
  rewrite Hup. cbn [mbind option_bind].
  destruct (push_inv true k1 (running_idx k) HI1) as (k2 & Hpush & HI2 & Hpc & Hri & _);
    [lia| |].
  { intros Hb. rewrite !Hs1, decide_True by done. rewrite Hc1.
    split; [|done]. destruct (Hst Hb) as [_ Hout].
    specialize (Hout (Z.to_nat (running_idx k)) (or_introl Hs)).
    by rewrite Z2Nat.id in Hout. }
  rewrite Hpush. cbn [mbind option_bind].
  apply resched_conserves; [done|].
  intros i. unfold state_of. rewrite Hpc. fold (state_of k1 i). rewrite Hs1.
  case_decide; [done|]. intros Hi. apply Hun in Hi. lia.
Qed.

Lemma unblock_owner_conserves (res_msg : SfpMessage) (k k' : Kernel) :
  Inv true k -> work_conserving k ->
  unblock_owner res_msg k = Some k' -> work_conserving k'.
Proof.
  intros HI Hwc. pose proof HI as (Hok & Hun & Hst). unfold unblock_owner.
  set (idx := owner res_msg - 1).
  destruct (Z.leb_spec 0 idx) as [Hge|?]; [|by intros [= <-]].
  destruct (Z.ltb_spec idx (Z.of_nat N_APPS)) as [Hlt|?]; [|by intros [= <-]].
  cbn [andb]. case_bool_decide as Hblk; [|by intros [= <-]].
  rewrite pcb_state_nat in Hblk by done.
  unfold store_idx, at_idx.
  destruct (Z.ltb_spec idx 0) as [?|_]; [lia|].
  destruct (lookup_lt_is_Some_2 (shm k) (Z.to_nat idx)) as [m Hm];
    [rewrite (ok_shm k Hok); lia|].
  rewrite Hm. cbn [mbind option_bind].
  set (k0 := set_shm _ k).
  assert (HI0 : Inv true k0).
  { apply Inv_set_shm; [done|]. rewrite length_insert. apply Hok. }
  destruct (update_inv true k0 idx (with_state READY) HI0)
    as (p & k1 & Hp & Hup & HI1 & Hr1 & Hc1 & Hs1); [lia|done|done|].
  rewrite Hup. cbn [mbind option_bind].
  destruct (push_inv true k1 idx HI1) as (k2 & Hpush & HI2 & _); [lia| |].
  { intros Hb. rewrite !Hs1, decide_True by done. rewrite Hc1.
    split; [|done]. destruct (Hst Hb) as [_ Hout].
    specialize (Hout (Z.to_nat idx) (or_intror Hblk)).
    by rewrite Z2Nat.id in Hout. }
  rewrite Hpush. cbn [mbind option_bind].
  destruct (Z.eqb_spec (running_idx k2) (-1)) as [Hidle|Hbusy].
  - by apply sched_conserves.
  - intros [= <-] Hi. done.
Qed.

Lemma drain_inter_line_conserves (line : string) (k k' : Kernel) :
  Inv true k -> work_conserving k ->
  drain_inter_line line k = Some k' -> work_conserving k'.
Proof.
  intros HI Hwc. pose proof HI as (Hok & _).
  destruct (strcmp_eq line "IRQ0") eqn:E0.
  { apply String.eqb_eq in E0. subst line. by apply irq0_conserves. }
  unfold drain_inter_line. rewrite E0.
  destruct (strcmp_eq line "IRQ1").
  { destruct (Nat.ltb_spec 0 (q_sz (file_req_q k))) as [Hne|?]; [|by intros [= <-]].
    destruct (ring_take_spec MAX_BLOCKED (file_req_q k)) as (x & q' & Ht & Hwf & _);
      [apply Hok | done |].
    rewrite Ht. cbn [mbind option_bind].
    apply unblock_owner_conserves; [by apply Inv_set_file_req_q | exact Hwc]. }
  destruct (strcmp_eq line "IRQ2"); [|by intros [= <-]].
  destruct (Nat.ltb_spec 0 (q_sz (dir_req_q k))) as [Hne|?]; [|by intros [= <-]].
  destruct (ring_take_spec MAX_BLOCKED (dir_req_q k)) as (x & q' & Ht & Hwf & _);
    [apply Hok | done |].
  rewrite Ht. cbn [mbind option_bind].
  apply unblock_owner_conserves; [by apply Inv_set_dir_req_q | exact Hwc].
Qed.

Lemma handle_sfs_reply_conserves (res_msg : SfpMessage) (k k' : Kernel) :
  work_conserving k -> handle_sfs_reply res_msg k = Some k' -> work_conserving k'.
Proof.
  intros Hwc. unfold handle_sfs_reply.
  destruct ((msg_type res_msg =? SFP_MSG_RD_REP) || (msg_type res_msg =? SFP_MSG_WR_REP)).
  { destruct (Nat.ltb (q_sz (file_req_q k)) MAX_BLOCKED); [|by intros [= <-]].
    destruct (ring_put MAX_BLOCKED res_msg (file_req_q k)); [|done].
    cbn [mbind option_bind]. by intros [= <-]. }
  destruct ((msg_type res_msg =? SFP_MSG_DC_REP) || (msg_type res_msg =? SFP_MSG_DR_REP)
            || (msg_type res_msg =? SFP_MSG_DL_REP)); [|by intros [= <-]].
  destruct (Nat.ltb (q_sz (dir_req_q k)) MAX_BLOCKED); [|by intros [= <-]].
  destruct (ring_put MAX_BLOCKED res_msg (dir_req_q k)); [|done].
  cbn [mbind option_bind]. by intros [= <-].
Qed.

Lemma app_tick_conserves (p c : Z) (k k' : Kernel) :
  Inv true k -> work_conserving k -> app_tick p c k = Some k' -> work_conserving k'.
Proof.
  intros HI Hwc. pose proof HI as (Hok & _). unfold app_tick.
  pose proof (pid_to_index_range k p) as Hidx. set (idx := pid_to_index k p) in *.
  destruct (Z.leb_spec 0 idx) as [Hge|?]; [|by intros [= <-]].
  rewrite pcb_state_nat by done.
  destruct (state_of_is_Some k (Z.to_nat idx)) as [s Hs];
    [apply Hok | unfold N_APPS in *; lia |].
  rewrite Hs. cbn [mbind option_bind].
  destruct (decide (s = TERMINATED)); [by intros [= <-]|].
  destruct (update_inv true k idx (with_pc c) HI)
    as (q & k1 & Hq & Hup & HI1 & Hr1 & _ & Hs1); [lia|done|by left|].
  rewrite Hup. intros [= <-] Hidle i. rewrite Hs1.
  rewrite Hr1 in Hidle. specialize (Hwc Hidle).
  case_decide as Hi; [|by apply Hwc]. subst i.
  cbn [with_pc state]. intros Hst. apply (Hwc (Z.to_nat idx)).
  unfold state_of. rewrite Hq. exact Hst.
Qed.

(** The PCB at [idx] leaves the CPU for BLOCKED or TERMINATED. *)
Lemma leave_cpu_conserves (k k1 k' : Kernel) (idx : Z) (s : ProcState) :
  Inv true k -> Inv true k1 -> work_conserving k -> 0 <= idx < Z.of_nat N_APPS ->
  s <> RUNNING -> s <> READY ->
  running_idx k1 = running_idx k ->
  (forall i, state_of k1 i = if decide (i = Z.to_nat idx) then Some s else state_of k i) ->
  (if idx =? running_idx k1 then schedule_next (set_running_idx (-1) k1)
   else if running_idx k1 =? -1 then schedule_next k1 else Some k1) = Some k' ->
  work_conserving k'.
Proof.
  intros HI HI1 Hwc Hidx Hs Hs' Hr Hst. destruct HI as (_ & Hun & _).
  destruct (Z.eqb_spec idx (running_idx k1)) as [Heq|Hne].
  - apply resched_conserves; [done|]. intros i. rewrite Hst.
    case_decide; [congruence|]. intros Hi. apply Hun in Hi. lia.
  - destruct (Z.eqb_spec (running_idx k1) (-1)) as [Hidle|Hbusy].
    + by apply sched_conserves.
    + intros [= <-] Hi. done.
Qed.

Lemma leave_cpu_quiet (k k1 k' : Kernel) (idx : Z) (s : ProcState) :
  Inv true k -> Inv true k1 -> work_conserving k -> 0 <= idx < Z.of_nat N_APPS ->
  s <> RUNNING -> s <> READY ->
  running_idx k1 = running_idx k ->
  (forall i, state_of k1 i = if decide (i = Z.to_nat idx) then Some s else state_of k i) ->
  (if idx =? running_idx k1 then schedule_next (set_running_idx (-1) k1)
   else Some k1) = Some k' ->
  work_conserving k'.
Proof.
  intros HI HI1 Hwc Hidx Hs Hs' Hr Hst. destruct HI as (_ & Hun & _).
  destruct (Z.eqb_spec idx (running_idx k1)) as [Heq|Hne].
  - apply resched_conserves; [done|]. intros i. rewrite Hst.
    case_decide; [congruence|]. intros Hi. apply Hun in Hi. lia.
  - intros [= <-] Hidle i. rewrite Hst. rewrite Hr in Hidle.
    case_decide; [congruence | by apply Hwc].
Qed.

Lemma app_done_conserves (p c : Z) (k k' : Kernel) :
  Inv true k -> work_conserving k -> app_done p c k = Some k' -> work_conserving k'.
Proof.
  intros HI Hwc. pose proof HI as (Hok & _). unfold app_done.
  pose proof (pid_to_index_range k p) as Hidx. set (idx := pid_to_index k p) in *.
  destruct (Z.leb_spec 0 idx) as [Hge|?]; [|by intros [= <-]].
  rewrite pcb_state_nat by done.
  destruct (state_of_is_Some k (Z.to_nat idx)) as [s Hs];
    [apply Hok | unfold N_APPS in *; lia |].
  rewrite Hs. cbn [mbind option_bind].
  destruct (decide (s = TERMINATED)); [by intros [= <-]|].
  destruct (update_inv true k idx (with_pc c) HI)
    as (q & k1 & Hq & Hup & HI1 & Hr1 & Hc1 & Hs1); [lia|done|by left|].
  rewrite Hup. cbn [mbind option_bind].
  destruct (update_inv true k1 idx (with_state TERMINATED) HI1)
    as (q2 & k2 & Hq2 & Hup2 & HI2 & Hr2 & Hc2 & Hs2); [lia|done|done|].
  rewrite Hup2. cbn [mbind option_bind].
  apply (leave_cpu_quiet k k2 k' idx TERMINATED); try done; [lia|congruence|].
  intros i. rewrite Hs2, Hs1. cbn [with_state with_pc state].
  by repeat case_decide.
Qed.

Lemma reap_conserves (p : Z) (k k' : Kernel) :
  Inv true k -> work_conserving k -> reap p k = Some k' -> work_conserving k'.
Proof.
  intros HI Hwc. pose proof HI as (Hok & _). unfold reap.
  pose proof (pid_to_index_range k p) as Hidx. set (idx := pid_to_index k p) in *.
  destruct (Z.leb_spec 0 idx) as [Hge|?]; [|by intros [= <-]].
  rewrite pcb_state_nat by done.
  destruct (state_of_is_Some k (Z.to_nat idx)) as [s Hs];
    [apply Hok | unfold N_APPS in *; lia |].
  rewrite Hs. cbn [mbind option_bind].
  destruct (decide (s = TERMINATED)); [by intros [= <-]|].
  destruct (update_inv true k idx (with_state TERMINATED) HI)
    as (q2 & k2 & Hq2 & Hup2 & HI2 & Hr2 & Hc2 & Hs2); [lia|done|done|].
  rewrite Hup2. cbn [mbind option_bind].
  apply (leave_cpu_quiet k k2 k' idx TERMINATED); try done. lia.
Qed.

Lemma app_syscall_conserves (p : Z) (req_msg : SfpMessage) (k k' : Kernel) :
  Inv true k -> pid_to_index k p ∉ rq_contents k -> work_conserving k ->
  app_syscall p req_msg k = Some k' -> work_conserving k'.
Proof.
  intros HI Hturn Hwc. pose proof HI as (Hok & _). unfold app_syscall.
  pose proof (pid_to_index_range k p) as Hidx. set (idx := pid_to_index k p) in *.
  destruct (Z.eqb_spec idx (-1)) as [?|Hne]; [by intros [= <-]|]. cbn [negb].
  destruct (Z.leb_spec 0 idx) as [Hge|?]; [|by intros [= <-]].
  rewrite pcb_state_nat by done.
  destruct (state_of_is_Some k (Z.to_nat idx)) as [s Hs];
    [apply Hok | unfold N_APPS in *; lia |].
  rewrite Hs. cbn [mbind option_bind].
  destruct (decide (s = TERMINATED)); [by intros [= <-]|].
  destruct (update_inv true k idx (with_state BLOCKED) HI)
    as (q & k1 & Hq & Hup & HI1 & Hr1 & Hc1 & Hs1); [lia|done| |].
  { intros Hb q _. by right. }
  rewrite Hup. cbn [mbind option_bind].
  destruct (update_inv true k1 idx (with_pending req_msg) HI1)
    as (q2 & k2 & Hq2 & Hup2 & HI2 & Hr2 & Hc2 & Hs2); [lia|done|by left|].
  rewrite Hup2. cbn [mbind option_bind].
  apply (leave_cpu_conserves k k2 k' idx BLOCKED); try done; [lia|congruence|].
  intros i. rewrite Hs2, Hs1. cbn [with_state with_pending state].
  assert (Hq2s : state q2 = BLOCKED).
  { pose proof (Hs1 (Z.to_nat idx)) as H. unfold state_of in H.
    rewrite Hq2, decide_True in H by done. by injection H. }
  rewrite Hq2s. by repeat case_decide.
Qed.

Lemma step_conserves (e : event) (k k' : Kernel) :
  Inv true k -> in_turn k e -> work_conserving k ->
  step e k = Some k' -> work_conserving k'.
Proof.
  intros HI Hturn Hwc. destruct e; cbn [step].
  - by apply drain_inter_line_conserves.
  - by apply app_tick_conserves.
  - by apply app_done_conserves.
  - by apply app_syscall_conserves.
  - by apply handle_sfs_reply_conserves.
  - by apply reap_conserves.
Qed.

(** X22 -- The scheduler is work conserving.  Along every run in which no
    syscall line is received from a PCB waiting in the ready queue, the CPU
    is idle ([running_idx] = -1) only when no PCB is READY. *)
Theorem cpu_idle_means_no_ready (fork_pid : nat -> Z) (k : Kernel) (i : nat) :
  reachable_in_turn fork_pid k -> running_idx k = -1 ->
  state_of k i <> Some READY.
Proof.
  intros Hk Hidle. revert i. revert Hidle. change (work_conserving k).
  induction Hk as [k Hboot|k e k' Hk IH Hturn Hstep].
  - assert (H : running_idx <$> boot fork_pid = Some 0) by (vm_compute; reflexivity).
    rewrite Hboot in H. injection H as H. intros Hidle. lia.
  - apply (step_conserves e k k'); try done. by eapply reachable_in_turn_Inv.
Qed.

(** X23 -- The kernel never indexes an array out of its bounds: from a
    reachable state every sequence of events (interrupt lines, application
    lines, datagrams and reaped children, in any order) is handled to its
    end, and the state reached is again reachable. *)
Theorem kernel_never_faults (fork_pid : nat -> Z) (es : list event) (k : Kernel) :
  reachable fork_pid k ->
  exists k', run es k = Some k' /\ reachable fork_pid k'.
Proof.
  revert k. induction es as [|e es IH]; intros k Hk; cbn [run].
  - by exists k.
  - destruct (reachable_step_total fork_pid k e Hk) as [k1 Hstep].
    rewrite Hstep. cbn [mbind option_bind]. apply IH. by eapply reach_step.
Qed.

(** X24 -- [schedule_next] returns, and calls itself at most once: in a
    well-formed kernel state two levels of recursion give its result, and
    any larger bound gives the same one. *)
Theorem schedule_next_returns (b : bool) (k : Kernel) (n : nat) :
  Inv b k ->
  exists k', schedule_next_fuel 2 k = Some k' /\
             schedule_next_fuel (S (S n)) k = Some k' /\ Inv b k'.
Proof.
  intros HI. destruct (schedule_next_inv b k HI) as (k' & Hk' & HI').
  exists k'. split; [exact Hk'|]. split; [|done].
  by rewrite (schedule_next_fuel_enough b k n HI).
Qed.

End WorkConservation.

Section Accumulator.

Lemma at_idx_nat {A} (l : list A) (i : nat) : at_idx l (Z.of_nat i) = l !! i.
Proof. unfold at_idx. destruct (Z.ltb_spec (Z.of_nat i) 0); [lia|]. by rewrite Nat2Z.id. Qed.

Lemma store_idx_nat {A} (l : list A) (i : nat) (x : A) :
  (i < length l)%nat -> store_idx l (Z.of_nat i) x = Some (<[i := x]> l).
Proof.
  intros Hi. unfold store_idx. rewrite at_idx_nat.
  destruct (lookup_lt_is_Some_2 l i Hi) as [y ->]. by rewrite Nat2Z.id.
Qed.

Lemma take_S_insert {A} (l : list A) (i : nat) (x : A) :
  (i < length l)%nat -> take (S i) (<[i := x]> l) = take i l ++ [x].
Proof.
  intros Hi. rewrite (take_S_r _ _ x) by (by apply list_lookup_insert_eq).
  by rewrite take_insert_ge.
Qed.

Lemma acc_append_loop_spec (cap : nat) (src : list ascii) (n : nat) (fuel : nat) :
  forall (acc : list ascii) (len copied : nat),
    length acc = cap -> (len <= cap)%nat -> (copied <= n)%nat -> (n <= length src)%nat ->
    (n - copied <= fuel)%nat ->
    let c := Nat.min (n - copied) (cap - len) in
    exists acc',
      acc_append_loop fuel acc (Z.of_nat cap) (Z.of_nat len) src (Z.of_nat n) (Z.of_nat copied)
      = Some (acc', Z.of_nat (len + c), Z.of_nat (copied + c)) /\
      length acc' = cap /\
      take (len + c) acc' = take len acc ++ take c (drop copied src) /\
      drop (len + c) acc' = drop (len + c) acc.
Proof.
  induction fuel as [|fuel IH]; intros acc len copied Hacc Hlen Hcop Hn Hfuel c;
    cbn [acc_append_loop].
  - assert (copied = n) by lia. subst copied.
    destruct (Z.ltb_spec (Z.of_nat n) (Z.of_nat n)); [lia|]. cbn [andb].
    exists acc. subst c. rewrite Nat.sub_diag. cbn [Nat.min]. rewrite !Nat.add_0_r.
    cbn [take]. by rewrite app_nil_r.
  - destruct (Z.ltb_spec (Z.of_nat copied) (Z.of_nat n)) as [Hc|Hc]; cbn [andb].
    2: { exists acc. assert (c = O) by lia. replace c with O. rewrite !Nat.add_0_r.
         cbn [take]. by rewrite app_nil_r. }
    destruct (Z.ltb_spec (Z.of_nat len) (Z.of_nat cap)) as [Hl|Hl].
    2: { exists acc. assert (c = O) by lia. replace c with O. rewrite !Nat.add_0_r.
         cbn [take]. by rewrite app_nil_r. }
    rewrite at_idx_nat.
    destruct (lookup_lt_is_Some_2 src copied) as [x Hx]; [lia|].
    rewrite Hx. cbn [mbind option_bind].
    rewrite store_idx_nat by lia. cbn [mbind option_bind].
    replace (Z.of_nat len + 1) with (Z.of_nat (S len)) by lia.
    replace (Z.of_nat copied + 1) with (Z.of_nat (S copied)) by lia.
    destruct (IH (<[len := x]> acc) (S len) (S copied)) as (acc' & Hrun & Hlen' & Htake & Hdrop);
      [by rewrite length_insert | lia | lia | lia | lia |].
    exists acc'.
    assert (Hc' : c = S (Nat.min (n - S copied) (cap - S len))) by lia.
    rewrite Hrun, Hc'. split; [do 3 f_equal; lia|]. split; [done|].
    split.
    + replace (len + S (Nat.min (n - S copied) (cap - S len)))%nat
        with (S len + Nat.min (n - S copied) (cap - S len))%nat by lia.
      rewrite Htake, take_S_insert by lia.
      rewrite <- app_assoc. f_equal.
      rewrite (drop_S _ _ _ Hx). done.
    + replace (len + S (Nat.min (n - S copied) (cap - S len)))%nat
        with (S len + Nat.min (n - S copied) (cap - S len))%nat by lia.
      rewrite Hdrop. rewrite drop_insert_lt by lia. done.
Qed.

(** X25 -- [acc_append] never writes past the capacity of the accumulator:
    it copies as many of the [n] bytes as still fit, adds that number to the
    length and returns it, keeps what the accumulator held and leaves the
    rest of the array alone; input that does not fit is dropped. *)
Theorem acc_append_bounded (acc src : list ascii) (len n : nat) :
  (len <= length acc)%nat -> (n <= length src)%nat ->
  let c := Nat.min n (length acc - len) in
  exists acc',
    acc_append acc (Z.of_nat (length acc)) (Z.of_nat len) src (Z.of_nat n)
    = Some (acc', Z.of_nat (len + c), Z.of_nat c) /\
    length acc' = length acc /\
    take (len + c) acc' = take len acc ++ take c src /\
    drop (len + c) acc' = drop (len + c) acc.
Proof.
  intros Hlen Hn c. unfold acc_append. rewrite Nat2Z.id.
  destruct (acc_append_loop_spec (length acc) src n n acc len 0)
    as (acc' & Hrun & Hl & Ht & Hd); try done; try lia.
  rewrite Nat.sub_0_r, drop_0 in *. change (Z.of_nat 0) with 0 in Hrun.
  exists acc'. by rewrite Hrun.
Qed.

Lemma acc_find_nl_loop_spec (acc : list ascii) (len : nat) (fuel : nat) :
  forall i : nat,
    (len <= length acc)%nat -> (i <= len)%nat -> (len - i <= fuel)%nat ->
    NL ∉ take i acc ->
    exists pos,
      acc_find_nl_loop fuel acc (Z.of_nat len) (Z.of_nat i) = Some pos /\
      ((pos = -1 /\ NL ∉ take len acc) \/
       (exists j : nat, pos = Z.of_nat j /\ (j < len)%nat /\ acc !! j = Some NL /\
                        NL ∉ take j acc)).
Proof.
  induction fuel as [|fuel IH]; intros i Hlen Hi Hfuel Hnot; cbn [acc_find_nl_loop].
  - assert (i = len) by lia. subst i.
    destruct (Z.ltb_spec (Z.of_nat len) (Z.of_nat len)); [lia|].
    exists (-1). split; [done|]. by left.
  - destruct (Z.ltb_spec (Z.of_nat i) (Z.of_nat len)) as [Hlt|Hge].
    2: { exists (-1). split; [done|]. left. split; [done|].
         by replace len with i by lia. }
    rewrite at_idx_nat.
    destruct (lookup_lt_is_Some_2 acc i) as [c Hc]; [lia|].
    rewrite Hc. cbn [mbind option_bind].
    destruct (Ascii.eqb_spec c NL) as [->|Hne].
    + exists (Z.of_nat i). split; [done|]. right. exists i. repeat split; [lia|done|done].
    + replace (Z.of_nat i + 1) with (Z.of_nat (S i)) by lia.
      apply IH; [done|lia|lia|].
      rewrite (take_S_r _ _ c Hc), elem_of_app, list_elem_of_singleton.
      intros [?|?]; [done|congruence].
Qed.

Lemma copy_line_loop_spec (acc : list ascii) (k : nat) (fuel : nat) :
  forall (dest : list ascii) (i : nat),
    (k <= length acc)%nat -> (k <= length dest)%nat -> (i <= k)%nat ->
    (k - i <= fuel)%nat ->
    exists dest',
      copy_line_loop fuel acc dest (Z.of_nat k) (Z.of_nat i) = Some dest' /\
      length dest' = length dest /\
      take k dest' = take i dest ++ drop i (take k acc).
Proof.
  induction fuel as [|fuel IH]; intros dest i Hacc Hdest Hi Hfuel; cbn [copy_line_loop].
  - assert (i = k) by lia. subst i.
    destruct (Z.ltb_spec (Z.of_nat k) (Z.of_nat k)); [lia|].
    exists dest. split; [done|]. split; [done|].
    rewrite drop_ge by (rewrite length_take; lia). by rewrite app_nil_r.
  - destruct (Z.ltb_spec (Z.of_nat i) (Z.of_nat k)) as [Hlt|Hge].
    2: { assert (i = k) by lia. subst i. exists dest. split; [done|]. split; [done|].
         rewrite drop_ge by (rewrite length_take; lia). by rewrite app_nil_r. }
    rewrite at_idx_nat.
    destruct (lookup_lt_is_Some_2 acc i) as [c Hc]; [lia|].
    rewrite Hc. cbn [mbind option_bind].
    rewrite store_idx_nat by lia. cbn [mbind option_bind].
    replace (Z.of_nat i + 1) with (Z.of_nat (S i)) by lia.
    destruct (IH (<[i := c]> dest) (S i)) as (dest' & Hrun & Hl & Ht);
      [done | by rewrite length_insert | lia | lia |].
    exists dest'. split; [done|]. split; [by rewrite Hl, length_insert|].
    rewrite Ht, take_S_insert by lia. rewrite <- app_assoc. f_equal.
    assert (Hc' : take k acc !! i = Some c) by (rewrite lookup_take_lt by lia; done).
    by rewrite (drop_S _ _ _ Hc').
Qed.

Lemma cstr_app (s : string) (rest : list ascii) :
  Ascii.zero ∉ String.list_ascii_of_string s ->
  cstr (String.list_ascii_of_string s ++ Ascii.zero :: rest) = s.
Proof.
  induction s as [|c s IH]; intros Hz; [done|].
  cbn [String.list_ascii_of_string app cstr].
  destruct (Ascii.eqb_spec c Ascii.zero) as [->|_].
  - exfalso. apply Hz. by left.
  - f_equal. apply IH. intros H. apply Hz. by right.
Qed.

Lemma consume_loop_spec (acc0 : list ascii) (L m : nat) (fuel : nat) :
  forall (acc : list ascii) (i : nat),
    (L + 1 + m <= length acc0)%nat -> (i <= m)%nat -> (m - i <= fuel)%nat ->
    acc = take i (drop (L + 1) acc0) ++ drop i acc0 ->
    exists acc',
      consume_loop fuel acc (Z.of_nat L) (Z.of_nat m) (Z.of_nat i) = Some acc' /\
      acc' = take m (drop (L + 1) acc0) ++ drop m acc0.
Proof.
  induction fuel as [|fuel IH]; intros acc i Hlen Hi Hfuel Hacc; cbn [consume_loop].
  - assert (i = m) by lia. subst i.
    destruct (Z.ltb_spec (Z.of_nat m) (Z.of_nat m)); [lia|]. by exists acc.
  - destruct (Z.ltb_spec (Z.of_nat i) (Z.of_nat m)) as [Hlt|Hge].
    2: { assert (i = m) by lia. subst i. by exists acc. }
    replace (Z.of_nat L + 1 + Z.of_nat i) with (Z.of_nat (L + 1 + i)) by lia.
    rewrite at_idx_nat.
    assert (Hti : length (take i (drop (L + 1) acc0)) = i)
      by (rewrite length_take, length_drop; lia).
    destruct (lookup_lt_is_Some_2 acc0 (L + 1 + i)) as [c Hc]; [lia|].
    assert (Hread : acc !! (L + 1 + i)%nat = Some c).
    { rewrite Hacc, lookup_app_r by lia. rewrite Hti, lookup_drop.
      rewrite <- Hc. f_equal. lia. }
    rewrite Hread. cbn [mbind option_bind].
    assert (Hal : length acc = length acc0).
    { rewrite Hacc, length_app, Hti, length_drop. lia. }
    rewrite store_idx_nat by lia. cbn [mbind option_bind].
    replace (Z.of_nat i + 1) with (Z.of_nat (S i)) by lia.
    apply IH; [done|lia|lia|].
    rewrite Hacc.
    replace i with (length (take i (drop (L + 1) acc0)) + 0)%nat at 1 by lia.
    rewrite insert_app_r.
    assert (Hd : exists y, acc0 !! i = Some y) by (apply lookup_lt_is_Some_2; lia).
    destruct Hd as [y Hy]. rewrite (drop_S _ _ _ Hy). cbn [insert list_insert].
    assert (Hc2 : drop (L + 1) acc0 !! i = Some c) by (rewrite lookup_drop; done).
    rewrite (take_S_r _ _ _ Hc2). by rewrite <- app_assoc.
Qed.

Lemma line_chars_substring (n : nat) (s : string) :
  line_chars (String.substring 0 n s) = take n (line_chars s).
Proof.
  revert n. induction s as [|c s IH]; intros [|n]; try done.
  cbn [String.substring line_chars String.list_ascii_of_string take].
  f_equal. apply IH.
Qed.

Lemma length_line_chars (s : string) : length (line_chars s) = String.length s.
Proof. induction s as [|c s IH]; [done|]. simpl. by rewrite <- IH. Qed.

Lemma acc_copy_line_spec (acc dest : list ascii) (line : string) (tail : list ascii) :
  acc = line_chars line ++ tail ->
  (0 < length dest)%nat ->
  Ascii.zero ∉ line_chars line ->
  exists dest',
    acc_copy_line acc (Z.of_nat (String.length line)) dest (Z.of_nat (length dest))
    = Some dest' /\
    length dest' = length dest /\
    cstr dest' = String.substring 0 (length dest - 1) line.
Proof.
  intros Hacc Hdest Hz. unfold acc_copy_line.
  set (k := Nat.min (String.length line) (length dest - 1)).
  assert (Hk : (if Z.of_nat (length dest) <=? Z.of_nat (String.length line)
                then Z.of_nat (length dest) - 1 else Z.of_nat (String.length line))
               = Z.of_nat k).
  { destruct (Z.leb_spec (Z.of_nat (length dest)) (Z.of_nat (String.length line))); lia. }
  cbn zeta. rewrite Hk, Nat2Z.id.
  destruct (copy_line_loop_spec acc k k dest 0) as (dest1 & Hrun & Hl & Ht).
  { rewrite Hacc, length_app, length_line_chars. lia. }
  { lia. }
  { lia. }
  { lia. }
  change (Z.of_nat 0) with 0 in Hrun. rewrite Hrun. cbn [mbind option_bind].
  rewrite store_idx_nat by lia.
  eexists. split; [reflexivity|]. split; [by rewrite length_insert|].
  cbn [take app] in Ht. rewrite drop_0 in Ht.
  assert (Htk : take k acc = line_chars (String.substring 0 (length dest - 1) line)).
  { rewrite line_chars_substring, Hacc.
    rewrite take_app_le by (rewrite length_line_chars; lia).
    unfold k. destruct (Nat.min_spec (String.length line) (length dest - 1)) as [[? ->]|[? ->]];
      [|done].
    rewrite !take_ge; [done | | ]; rewrite length_line_chars; lia. }
  rewrite <- (take_drop k (<[k := Ascii.zero]> dest1)).
  rewrite take_insert_ge by lia. rewrite Ht, Htk.
  rewrite drop_insert_ge by lia. rewrite Nat.sub_diag.
  destruct (drop k dest1) as [|y rest] eqn:Hd.
  { apply (f_equal length) in Hd. rewrite length_drop in Hd. simpl in Hd. lia. }
  cbn [insert list_insert]. apply cstr_app.
  rewrite line_chars_substring. intros Hin. apply Hz.
  by apply (subseteq_take (length dest - 1)).
Qed.

Lemma acc_consume_line_spec (acc : list ascii) (len : nat) (line rest : list ascii) :
  (len <= length acc)%nat ->
  take len acc = line ++ NL :: rest ->
  exists acc',
    acc_consume_line acc (Z.of_nat len) (Z.of_nat (length line))
    = Some (acc', Z.of_nat (length rest)) /\
    length acc' = length acc /\ take (length rest) acc' = rest.
Proof.
  intros Hlen Htext. unfold acc_consume_line.
  assert (Hl : len = (length line + 1 + length rest)%nat).
  { apply (f_equal length) in Htext. rewrite length_take, length_app in Htext.
    simpl in Htext. lia. }
  assert (Hnew : (if Z.of_nat len - (Z.of_nat (length line) + 1) <? 0 then 0
                  else Z.of_nat len - (Z.of_nat (length line) + 1))
                 = Z.of_nat (length rest)).
  { destruct (Z.ltb_spec (Z.of_nat len - (Z.of_nat (length line) + 1)) 0); lia. }
  cbn zeta. rewrite Hnew, Nat2Z.id.
  destruct (consume_loop_spec acc (length line) (length rest) (length rest) acc 0)
    as (acc' & Hrun & Hacc'); [lia|lia|lia|by rewrite take_0, drop_0|].
  change (Z.of_nat 0) with 0 in Hrun. rewrite Hrun. cbn [mbind option_bind].
  exists acc'. split; [done|].
  assert (Hshift : take (length rest) (drop (length line + 1) acc) = rest).
  { rewrite take_drop_commute. rewrite <- Hl, Htext.
    rewrite (cons_middle NL line rest), app_assoc.
    apply drop_app_length'. rewrite length_app. simpl. lia. }
  split.
  - rewrite Hacc', length_app, length_take, length_drop, length_drop. lia.
  - rewrite Hacc', take_app_le by (rewrite length_take, length_drop; lia).
    rewrite take_take. replace (length rest `min` length rest)%nat with (length rest) by lia.
    done.
Qed.

Lemma find_nl_of_line (acc : list ascii) (len : nat) (l : string) (rest : list ascii) :
  (len <= length acc)%nat ->
  take len acc = line_chars l ++ NL :: rest ->
  NL ∉ line_chars l ->
  acc_find_nl acc (Z.of_nat len) = Some (Z.of_nat (String.length l)).
Proof.
  intros Hlen Htext Hplain. unfold acc_find_nl. rewrite Nat2Z.id.
  destruct (acc_find_nl_loop_spec acc len len 0) as (pos & Hrun & Hpos);
    [done | lia | lia | cbn [take]; apply not_elem_of_nil |].
  change (Z.of_nat 0) with 0 in Hrun. rewrite Hrun. f_equal.
  assert (Hat : forall j, (j < len)%nat -> acc !! j = (line_chars l ++ NL :: rest) !! j).
  { intros j Hj. rewrite <- Htext. by rewrite lookup_take_lt. }
  assert (HL : (String.length l < len)%nat).
  { apply (f_equal length) in Htext. rewrite length_take, length_app, length_line_chars in Htext.
    simpl in Htext. lia. }
  destruct Hpos as [[_ Hnone]|(j & -> & Hj & Hnl & Hfirst)].
  - exfalso. apply Hnone. rewrite Htext. apply elem_of_app. right. by left.
  - f_equal. destruct (Nat.lt_trichotomy j (String.length l)) as [Hlt|[->|Hgt]]; [|done|].
    + exfalso. apply Hplain. rewrite Hat, lookup_app_l in Hnl
        by (rewrite ?length_line_chars; lia).
      by apply list_elem_of_lookup_2 in Hnl.
    + exfalso. apply Hfirst. apply elem_of_take. exists (String.length l).
      split; [|done]. rewrite Hat by lia.
      rewrite lookup_app_r by (rewrite length_line_chars; lia).
      by rewrite length_line_chars, Nat.sub_diag.
Qed.

Lemma find_nl_none (acc : list ascii) (len : nat) :
  (len <= length acc)%nat -> NL ∉ take len acc ->
  acc_find_nl acc (Z.of_nat len) = Some (-1).
Proof.
  intros Hlen Hnone. unfold acc_find_nl. rewrite Nat2Z.id.
  destruct (acc_find_nl_loop_spec acc len len 0) as (pos & Hrun & Hpos);
    [done | lia | lia | cbn [take]; apply not_elem_of_nil |].
  change (Z.of_nat 0) with 0 in Hrun. rewrite Hrun. f_equal.
  destruct Hpos as [[-> _]|(j & -> & Hj & Hnl & _)]; [done|].
  exfalso. apply Hnone. apply elem_of_take. by exists j.
Qed.

Lemma wire_cons (l : string) (ls : list string) :
  wire (l :: ls) = line_chars l ++ NL :: wire ls.
Proof. unfold wire. cbn [map concat]. by rewrite <- app_assoc. Qed.

Lemma drain_inter_lines_spec (ls : list string) (tl : list ascii) :
  forall (fuel : nat) (acc : list ascii) (len : nat) (k : Kernel),
    (len <= length acc)%nat ->
    take len acc = wire ls ++ tl ->
    Forall (fun l => plain l /\ (String.length l < Z.to_nat INTER_LINE_CAP)%nat) ls ->
    NL ∉ tl ->
    (length ls <= fuel)%nat ->
    match run (map InterLine ls) k with
    | Some k' =>
        exists acc',
          drain_inter_lines fuel acc (Z.of_nat len) k
          = Some (acc', Z.of_nat (length tl), k') /\
          length acc' = length acc /\ take (length tl) acc' = tl
    | None => drain_inter_lines fuel acc (Z.of_nat len) k = None
    end.
Proof.
  induction ls as [|l ls IH]; intros fuel acc len k Hlen Htext Hls Htl Hfuel.
  - cbn [wire map concat app] in Htext. cbn [map run]. exists acc.
    assert (Hl : length tl = len).
    { apply (f_equal length) in Htext. rewrite length_take in Htext. lia. }
    split; [|split; [done | by rewrite Hl]]. rewrite Hl.
    destruct fuel; cbn [drain_inter_lines];
      rewrite find_nl_none by (rewrite ?Htext; done); done.
  - apply Forall_cons in Hls as [[[Hnl Hz] Hshort] Hls].
    rewrite wire_cons, <- app_assoc in Htext. cbn [app] in Htext.
    destruct fuel as [|fuel]; [simpl in Hfuel; lia|].
    cbn [drain_inter_lines].
    rewrite (find_nl_of_line acc len l (wire ls ++ tl)) by done.
    cbn [mbind option_bind].
    destruct (Z.ltb_spec (Z.of_nat (String.length l)) 0) as [?|_]; [lia|].
    assert (HL : (String.length l <= len)%nat).
    { apply (f_equal length) in Htext.
      rewrite length_take, length_app, length_line_chars in Htext. lia. }
    destruct (acc_copy_line_spec acc (replicate (Z.to_nat INTER_LINE_CAP) Ascii.zero) l
                (drop (String.length l) acc)) as (dest' & Hcopy & _ & Hstr); [| |done|].
    { rewrite <- (take_drop (String.length l) acc) at 1. f_equal.
      replace (String.length l) with (Nat.min (String.length l) len) by lia.
      rewrite <- take_take, Htext.
      rewrite take_app_le by (rewrite length_line_chars; lia).
      apply take_ge. rewrite length_line_chars. lia. }
    { rewrite length_replicate. unfold INTER_LINE_CAP. lia. }
    rewrite length_replicate in Hcopy, Hstr.
    change (Z.of_nat (Z.to_nat INTER_LINE_CAP)) with INTER_LINE_CAP in Hcopy.
    rewrite Hcopy. cbn [mbind option_bind].
    rewrite substring_all in Hstr by lia.
    destruct (acc_consume_line_spec acc len (line_chars l) (wire ls ++ tl) Hlen Htext)
      as (acc1 & Hcons & Hlen1 & Htake1).
    rewrite length_line_chars in Hcons. rewrite Hcons. cbn [mbind option_bind].
    rewrite Hstr. cbn [map run]. change (step (InterLine l) k) with (drain_inter_line l k).
    destruct (drain_inter_line l k) as [k1|]; cbn [mbind option_bind]; [|done].
    assert (Hl1 : (length (wire ls ++ tl) <= length acc1)%nat).
    { rewrite Hlen1. apply (f_equal length) in Htext.
      rewrite length_take, length_app in Htext. simpl in Htext. lia. }
    pose proof (IH fuel acc1 (length (wire ls ++ tl)) k1 Hl1 Htake1 Hls Htl
                  ltac:(simpl in Hfuel; lia)) as H.
    destruct (run (map InterLine ls) k1) as [k'|]; [|done].
    destruct H as (acc' & Hrun' & Hl' & Ht').
    exists acc'. split; [done|]. split; [congruence|done].
Qed.

(** X26 -- Lines come out of the pipe as they went in.  When the bytes
    waiting in the accumulator followed by the bytes just read are the lines
    [ls], each ended by a newline, followed by an unfinished part, and all of
    it fits in the accumulator, [drain_inter] dispatches exactly the lines
    [ls], in order, and keeps the unfinished part for the next call. *)
Theorem drain_inter_dispatches_lines (acc buf : list ascii) (len : nat)
    (ls : list string) (tl : list ascii) (k : Kernel) :
  length acc = Z.to_nat INTER_ACC_CAP ->
  buf <> [] ->
  (len + length buf < Z.to_nat INTER_ACC_CAP)%nat ->
  take len acc ++ buf = wire ls ++ tl ->
  Forall (fun l => plain l /\ (String.length l < Z.to_nat INTER_LINE_CAP)%nat) ls ->
  NL ∉ tl ->
  match run (map InterLine ls) k with
  | Some k' =>
      exists acc',
        drain_inter buf (Z.of_nat (length buf)) acc (Z.of_nat len) k
        = Some (acc', Z.of_nat (length tl), k') /\
        length acc' = length acc /\ take (length tl) acc' = tl
  | None => drain_inter buf (Z.of_nat (length buf)) acc (Z.of_nat len) k = None
  end.
Proof.
  intros Hacc Hbuf Hfit Htext Hls Htl. unfold drain_inter.
  destruct (Z.leb_spec (Z.of_nat (length buf)) 0) as [Hz|_].
  { destruct buf; [done | simpl in Hz; lia]. }
  destruct (acc_append_loop_spec (length acc) buf (length buf) (length buf) acc len 0)
    as (acc1 & Happ & Hl1 & Ht1 & _); [done | lia | lia | done | lia |].
  rewrite Nat.sub_0_r, drop_0 in *.
  replace (Nat.min (length buf) (length acc - len)) with (length buf) in * by lia.
  rewrite firstn_all in Ht1.
  unfold acc_append. rewrite Nat2Z.id.
  assert (Hcap : Z.of_nat (length acc) = INTER_ACC_CAP) by (by rewrite Hacc).
  rewrite Hcap in Happ. change (Z.of_nat 0) with 0 in Happ. rewrite Happ.
  cbn [mbind option_bind].
  destruct (Z.leb_spec INTER_ACC_CAP (Z.of_nat (len + length buf))) as [?|_]; [lia|].
  rewrite Nat2Z.id.
  pose proof (drain_inter_lines_spec ls tl (len + length buf) acc1 (len + length buf) k) as H.
  rewrite Hl1 in H.
  assert (Hcount : (length ls <= len + length buf)%nat).
  { apply (f_equal length) in Htext. rewrite !length_app, length_take in Htext.
    assert (length ls <= length (wire ls))%nat; [|lia].
    clear. induction ls as [|l ls IH]; [done|].
    rewrite wire_cons, length_app. simpl. lia. }
  specialize (H ltac:(lia) ltac:(by rewrite Ht1) Hls Htl Hcount).
  destruct (run (map InterLine ls) k) as [k'|]; [|done].
  destruct H as (acc' & Hrun & Hl' & Ht'). exists acc'. by rewrite Hl'.
Qed.

(** X27 -- A full accumulator is thrown away: when the bytes read bring
    the accumulator to its capacity of 1024, [drain_inter] resets its length
    to zero and dispatches nothing, complete lines included. *)
Theorem drain_inter_overflow (acc buf : list ascii) (len n : nat) (k : Kernel) :
  length acc = Z.to_nat INTER_ACC_CAP ->
  (len <= length acc)%nat -> (0 < n <= length buf)%nat ->
  (Z.to_nat INTER_ACC_CAP <= len + n)%nat ->
  exists acc',
    drain_inter buf (Z.of_nat n) acc (Z.of_nat len) k = Some (acc', 0, k).
Proof.
  intros Hacc Hlen Hn Hfull. unfold drain_inter.
  destruct (Z.leb_spec (Z.of_nat n) 0) as [?|_]; [lia|].
  destruct (acc_append_loop_spec (length acc) buf n n acc len 0)
    as (acc1 & Happ & Hl1 & _); [done | lia | lia | lia | lia |].
  rewrite Nat.sub_0_r in *.
  unfold acc_append. rewrite Nat2Z.id.
  assert (Hcap : Z.of_nat (length acc) = INTER_ACC_CAP) by (by rewrite Hacc).
  rewrite Hcap in Happ. change (Z.of_nat 0) with 0 in Happ. rewrite Happ.
  cbn [mbind option_bind].
  destruct (Z.leb_spec INTER_ACC_CAP (Z.of_nat (len + Nat.min n (length acc - len))))
    as [_|Hlt].
  - exists acc1. reflexivity.
  - exfalso. rewrite Hacc in Hlt. lia.
Qed.

(** X28 -- Taking a line off the accumulator.  When the [len] bytes held
    are a line without newline or NUL, a newline and the bytes [rest],
    [acc_find_nl] returns the length of the line, [acc_copy_line] stores the
    line in [dest] as a C string, cut to the capacity of [dest] less one when
    it is longer, and [acc_consume_line] leaves exactly [rest] in the
    accumulator. *)
Theorem acc_take_line (acc dest : list ascii) (len : nat) (line : string)
    (rest : list ascii) :
  (len <= length acc)%nat ->
  take len acc = line_chars line ++ NL :: rest ->
  plain line -> (0 < length dest)%nat ->
  let pos := Z.of_nat (String.length line) in
  exists dest' acc',
    acc_find_nl acc (Z.of_nat len) = Some pos /\
    acc_copy_line acc pos dest (Z.of_nat (length dest)) = Some dest' /\
    length dest' = length dest /\
    cstr dest' = String.substring 0 (length dest - 1) line /\
    acc_consume_line acc (Z.of_nat len) pos = Some (acc', Z.of_nat (length rest)) /\
    length acc' = length acc /\ take (length rest) acc' = rest.
Proof.
  intros Hlen Htext [Hnl Hz] Hdest pos. subst pos.
  assert (HL : (String.length line <= len)%nat).
  { apply (f_equal length) in Htext.
    rewrite length_take, length_app, length_line_chars in Htext. lia. }
  destruct (acc_copy_line_spec acc dest line (drop (String.length line) acc))
    as (dest' & Hcopy & Hld & Hstr); [|done|done|].
  { rewrite <- (take_drop (String.length line) acc) at 1. f_equal.
    replace (String.length line) with (Nat.min (String.length line) len) by lia.
    rewrite <- take_take, Htext.
    rewrite take_app_le by (rewrite length_line_chars; lia).
    apply take_ge. rewrite length_line_chars. lia. }
  destruct (acc_consume_line_spec acc len (line_chars line) rest Hlen Htext)
    as (acc' & Hcons & Hla & Hta).
  rewrite length_line_chars in Hcons.
  exists dest', acc'. split; [by apply (find_nl_of_line acc len line rest)|].
  by repeat split.
Qed.

End Accumulator.

Section ExecRoundTrip.

Lemma fork_apps_execs (e : Env) (idxs : list nat) (argv : list string) :
  fork_apps e idxs = Execs argv ->
  exists i, i ∈ idxs /\
    argv = ["KernelSim_T2"; "app"; fmt_d (Z.of_nat i + 1)]%string /\
    k_fork (app_env e (Z.of_nat i + 1)) = InChild.
Proof.
  induction idxs as [|i idxs IH]; cbn [fork_apps]; [done|].
  destruct (k_shmget_ok _); cbn [negb]; [|done].
  destruct (k_shmat_ok _); cbn [negb]; [|done].
  destruct (k_fork _) eqn:Hfork; [done| |].
  - destruct (k_exec_ok _); [|done]. intros [= <-]. exists i.
    split; [by left|]. by split.
  - intros H. destruct (IH H) as (j & Hj & Hargv & Hf).
    exists j. split; [by right|]. by split.
Qed.

(** X29 -- Every image the kernel starts runs as what it was forked for:
    the argument vector passed to [execlp] for the interrupt controller makes
    [main] run the controller, and the one passed for the [i]-th application
    carries the id [i + 1] in decimal, which [main] reads back with [atoi],
    inside 1..5, so that the child runs application [i + 1]. *)
Theorem forked_image_runs_its_role (e : Env) (argv : list string) :
  run_kernel e = Execs argv ->
  (argv = ["KernelSim_T2"; "inter"]%string /\ main e argv = Forever) \/
  (exists i, (i < N_APPS)%nat /\
     argv = ["KernelSim_T2"; "app"; fmt_d (Z.of_nat i + 1)]%string /\
     k_fork (app_env e (Z.of_nat i + 1)) = InChild /\
     atoi (fmt_d (Z.of_nat i + 1)) = Z.of_nat i + 1 /\
     main e argv = run_app e (Z.of_nat i + 1)).
Proof.
  unfold run_kernel.
  destruct (socket_ok e); cbn [negb]; [|done].
  destruct (inet_pton_ok e); cbn [negb]; [|done].
  destruct (negb (pipe_inter_ok e) || negb (pipe_app_ok e)); [done|].
  destruct (fork_inter e); [done| |].
  - destruct (exec_inter_ok e); [|done]. intros [= <-]. by left.
  - destruct (fork_apps e (seq 0 N_APPS)) as [|c|argv'|] eqn:Hfork; try done.
    { by destruct (all_apps_terminate e). }
    intros [= <-]. right.
    destruct (fork_apps_execs _ _ _ Hfork) as (i & Hi & -> & Hchild).
    apply elem_of_seq in Hi. exists i. split; [lia|]. split; [done|]. split; [done|].
    assert (Hid : atoi (fmt_d (Z.of_nat i + 1)) = Z.of_nat i + 1).
    { unfold N_APPS in Hi.
      destruct i as [|[|[|[|[|i]]]]]; [vm_compute; reflexivity ..| lia]. }
    split; [done|]. rewrite main_app, Hid. f_equal. unfold clamp_id, N_APPS.
    destruct (Z.ltb_spec (Z.of_nat i + 1) 1); [lia|].
    destruct (Z.ltb_spec (Z.of_nat 5) (Z.of_nat i + 1)); [|done].
    unfold N_APPS in Hi. lia.
Qed.

End ExecRoundTrip.

(** ** Worked instances of the further properties *)

Example boot_running_queue :
  (fun k => (running_idx k, rq_contents k)) <$> boot pids0 = Some (0, [1; 2; 3; 4]).
Proof. vm_compute. reflexivity. Qed.

Example reply_waiting :
  (fun k => ring_contents (file_req_q k)) <$> (boot pids0 ≫= step (Datagram rd_rep0))
  = Some [rd_rep0].
Proof. vm_compute. reflexivity. Qed.

Example all_reaped_idle :
  running_idx <$> (boot pids0 ≫= run all_reaped) = Some (-1).
Proof. vm_compute. reflexivity. Qed.

Lemma run_reaped_in_turn (fork_pid : nat -> Z) (ps : list Z) :
  forall k k', reachable_in_turn fork_pid k -> run (map Reaped ps) k = Some k' ->
               reachable_in_turn fork_pid k'.
Proof.
  induction ps as [|p ps IH]; intros k k' Hk; cbn [map run].
  - by intros [= <-].
  - destruct (step (Reaped p) k) as [k1|] eqn:Hstep; [|done]. cbn [mbind option_bind].
    apply IH. by apply (reach_it_step fork_pid k (Reaped p) k1).
Qed.

Lemma reply_header_witness :
  msg_type (serve root0 (rd_req 1 "/A1/file.txt" 0) w0).1 = SFP_MSG_RD_REQ + 1 /\
  owner (serve root0 (rd_req 1 "/A1/file.txt" 0) w0).1 = 1.
Proof.
  apply (reply_header root0 (rd_req 1 "/A1/file.txt" 0) w0).
  change (0 <= 0 < 2147483647). lia.
Defined.

Lemma read_only_requests_witness :
  fs (serve root0 (dl_req 1 "/A1") w0).2 = fs w0.
Proof.
  apply (read_only_requests root0 (dl_req 1 "/A1") w0); simpl; discriminate.
Defined.

Lemma serve_frame_witness :
  fs (serve root0 (wr_req 1 "/A1/file.txt" 0 hello) w0).2 !! "sfss_root/A2"%string
  = fs w0 !! "sfss_root/A2"%string.
Proof.
  apply (serve_frame root0 (wr_req 1 "/A1/file.txt" 0 hello) w0);
    [intros _; reflexivity | intros [H|H]; discriminate H
    | vm_compute; discriminate | vm_compute; discriminate].
Defined.

Lemma dir_create_outcomes_witness :
  fs (serve root0 (dir_req SFP_MSG_DC_REQ 1 "/A1" "docs") w0).2
  = <[entry_path root0 "/A1" "docs" := NDir]> (fs w0) /\
  path (serve root0 (dir_req SFP_MSG_DC_REQ 1 "/A1" "docs") w0).1 = "/A1/docs"%string.
Proof.
  pose proof (dir_create_outcomes root0 (dir_req SFP_MSG_DC_REQ 1 "/A1" "docs") w0
                eq_refl eq_refl eq_refl) as [Hok _].
  destruct Hok as (Hfs & Hpath & _);
    [reflexivity | vm_compute; reflexivity | vm_compute; reflexivity |].
  split; [exact Hfs | exact Hpath].
Defined.

Lemma dir_remove_outcomes_witness :
  fs (serve root0 (dir_req SFP_MSG_DR_REQ 1 "/A1" "docs") w0).2 = fs w0 /\
  path_len (serve root0 (dir_req SFP_MSG_DR_REQ 1 "/A1" "docs") w0).1 = SFP_ERR_IO.
Proof.
  pose proof (dir_remove_outcomes root0 (dir_req SFP_MSG_DR_REQ 1 "/A1" "docs") w0
                eq_refl eq_refl eq_refl) as (_ & _ & _ & Hmissing).
  apply Hmissing. left. vm_compute. reflexivity.
Defined.

Lemma create_then_remove_witness :
  let dc := set_msg_type SFP_MSG_DC_REQ (dir_req SFP_MSG_DC_REQ 1 "/A1" "docs") in
  let dr := set_msg_type SFP_MSG_DR_REQ (dir_req SFP_MSG_DC_REQ 1 "/A1" "docs") in
  fs (serve root0 dr (serve root0 dc w0).2).2 = fs w0.
Proof.
  apply (create_then_remove root0 (dir_req SFP_MSG_DC_REQ 1 "/A1" "docs") w0);
    vm_compute; reflexivity.
Defined.

Lemma overwrite_in_place_witness :
  fs (serve root0 (wr_req 1 "/A1/file.txt" 16 hello) w_file).2
     !! full_path_of root0 "/A1/file.txt"
  = Some (NFile (take (Z.to_nat 16) hello ++ hello ++ drop (Z.to_nat 16 + 16) hello)).
Proof.
  apply (overwrite_in_place root0 1 "/A1/file.txt" 16 hello hello w_file);
    [reflexivity | reflexivity | right; discriminate | vm_compute; reflexivity
    | reflexivity | vm_compute; split; discriminate | vm_compute; discriminate].
Defined.

Lemma negative_offset_read_witness :
  offset (serve root0 (rd_req 1 "/A1/file.txt" (-5)) w_file).1 = -5 /\
  payload (serve root0 (rd_req 1 "/A1/file.txt" (-5)) w_file).1
  = replicate SFP_PAYLOAD_SIZE "000"%byte.
Proof.
  apply (negative_offset_read root0 1 "/A1/file.txt" (-5) hello w_file);
    [reflexivity | vm_compute; reflexivity | reflexivity | lia].
Defined.

Lemma remove_needs_a_file_witness :
  offset (serve root0 (wr_req 1 "/A1" 0 (replicate 16 "000"%byte)) w0).1 = SFP_ERR_IO /\
  fs (serve root0 (wr_req 1 "/A1" 0 (replicate 16 "000"%byte)) w0).2 = fs w0.
Proof.
  apply (remove_needs_a_file root0 1 "/A1" (replicate 16 "000"%byte) w0);
    [reflexivity | reflexivity | reflexivity | intros d; vm_compute; discriminate].
Defined.

Lemma negative_offset_write_witness :
  offset (serve root0 (wr_req 1 "/A1/file.txt" (-16) hello) w_file).1 = SFP_ERR_IO /\
  fs (serve root0 (wr_req 1 "/A1/file.txt" (-16) hello) w_file).2 = fs w_file.
Proof.
  pose proof (negative_offset_write root0 1 "/A1/file.txt" (-16) hello w_file
                eq_refl eq_refl) as (_ & Hkeeps & _).
  apply (Hkeeps hello); [vm_compute; reflexivity | reflexivity].
Defined.

Lemma running_idx_is_running_witness :
  exists k, boot pids0 ≫= run late_syscall_trace = Some k /\
    (running_idx k = -1 \/
     (0 <= running_idx k < Z.of_nat N_APPS /\
      state_of k (Z.to_nat (running_idx k)) = Some RUNNING)).
Proof.
  pose proof late_syscall_queue as Hq.
  destruct (boot pids0 ≫= run late_syscall_trace) as [k|] eqn:Hrun; [|discriminate Hq].
  exists k. split; [reflexivity|].
  apply (running_idx_is_running pids0 k). by apply boot_run_reachable in Hrun.
Defined.

Lemma terminated_is_final_witness :
  exists k k' p, boot pids0 = Some k /\ run all_reaped k = Some k' /\
    pcbs k !! 0%nat = Some p /\
    exists p', pcbs k' !! 0%nat = Some p' /\ pid p' = pid p /\ id p' = id p /\
               (state p = TERMINATED -> state p' = TERMINATED /\ pc p' = pc p).
Proof.
  pose proof all_reaped_idle as Hq.
  destruct (boot pids0) as [k|] eqn:Hboot; [|discriminate Hq].
  cbn [mbind option_bind] in Hq.
  destruct (run all_reaped k) as [k'|] eqn:Hrun; [|discriminate Hq].
  destruct (boot_some pids0 k Hboot) as [_ Hpcbs].
  destruct (Hpcbs 0%nat) as (p & Hp & _); [unfold N_APPS; lia|].
  exists k, k', p. split; [reflexivity|]. split; [exact Hrun|]. split; [exact Hp|].
  apply (terminated_is_final all_reaped k k' 0 p Hrun Hp).
Defined.

Lemma scheduler_moves_only_ready_witness :
  exists k k' p, boot pids0 = Some k /\ schedule_next k = Some k' /\
    pcbs k !! 1%nat = Some p /\
    exists p', pcbs k' !! 1%nat = Some p' /\
      pid p' = pid p /\ id p' = id p /\ pc p' = pc p /\
      pending_syscall p' = pending_syscall p /\
      (state p = BLOCKED -> state p' = BLOCKED) /\
      (state p = TERMINATED -> state p' = TERMINATED) /\
      (state p' = RUNNING -> state p = READY \/ state p = RUNNING).
Proof.
  destruct (boot_inv pids0) as (k & Hboot & HI).
  destruct (schedule_next_inv true k HI) as (k' & Hnext & _).
  destruct (boot_some pids0 k Hboot) as [_ Hpcbs].
  destruct (Hpcbs 1%nat) as (p & Hp & _); [unfold N_APPS; lia|].
  exists k, k', p. split; [exact Hboot|]. split; [exact Hnext|]. split; [exact Hp|].
  apply (scheduler_moves_only_ready k k' 1 p Hnext Hp).
Defined.

Lemma rq_fifo_witness :
  exists k k1 k2, boot pids0 = Some k /\
    rq_push_tail 0 k = Some k1 /\
    rq_contents k1 =
      (if bool_decide ((MAX_READY <= length (rq_contents k))%nat \/
                       pcb_state k 0 = Some TERMINATED)
       then rq_contents k else rq_contents k ++ [0]) /\
    pop_n (q_sz (rq k1)) k1 = Some (rq_contents k1, k2) /\
    rq_pop_head k2 = Some (-1, k2).
Proof.
  destruct (boot_inv pids0) as (k & Hboot & HI & _).
  destruct (rq_fifo k 0 HI) as (k1 & k2 & H); [unfold N_APPS; lia|].
  by exists k, k1, k2.
Defined.

Lemma irq0_round_robin_witness :
  exists k k', boot pids0 = Some k /\ step (InterLine "IRQ0") k = Some k' /\
    (state_of k (Z.to_nat 1) = Some READY ->
     running_idx k' = 1 /\ rq_contents k' = [2; 3; 4] ++ [Z.of_nat 0]).
Proof.
  pose proof boot_running_queue as Hq.
  destruct (boot pids0) as [k|] eqn:Hboot; [|discriminate Hq].
  injection Hq as Hr Hc.
  destruct (irq0_round_robin pids0 k 0) as (k' & Hstep & Hpost);
    [by apply reach_boot | exact Hr | rewrite Hc; unfold MAX_READY, N_APPS; simpl; lia |].
  exists k, k'. split; [reflexivity|]. split; [exact Hstep|].
  rewrite Hc in Hpost. intros Hready. destruct (Hpost Hready) as (H1 & H2 & _).
  by split.
Defined.

Lemma reply_enqueued_witness :
  exists k k', boot pids0 = Some k /\ step (Datagram rd_rep0) k = Some k' /\
    pcbs k' = pcbs k /\ running_idx k' = running_idx k /\ rq k' = rq k.
Proof.
  destruct (boot_inv pids0) as (k & Hboot & _).
  destruct (reply_enqueued pids0 k rd_rep0) as (k' & Hstep & H1 & H2 & H3 & _);
    [by apply reach_boot|].
  by exists k, k'.
Defined.

Lemma irq_delivers_oldest_reply_witness :
  exists k k', boot pids0 ≫= step (Datagram rd_rep0) = Some k /\
    step (InterLine "IRQ1") k = Some k' /\
    ring_contents (file_req_q k') = [].
Proof.
  pose proof reply_waiting as Hq.
  destruct (boot pids0 ≫= step (Datagram rd_rep0)) as [k|] eqn:Hrun; [|discriminate Hq].
  injection Hq as Hq.
  destruct (irq_delivers_oldest_reply pids0 k "IRQ1" file_req_q rd_rep0 [])
    as (k' & Hstep & Hrest & _); [|by left|exact Hq|].
  - apply (boot_run_reachable pids0 [Datagram rd_rep0]). cbn [run].
    destruct (boot pids0) as [k0|]; [|discriminate Hrun].
    cbn [mbind option_bind] in *. by rewrite Hrun.
  - by exists k, k'.
Defined.

Lemma apps_keep_their_pcb_witness :
  exists k, boot pids0 ≫= run late_syscall_trace = Some k /\
    pid_to_index k (pids0 2) = 2 /\ pid_to_index k 7 = -1.
Proof.
  pose proof late_syscall_queue as Hq.
  destruct (boot pids0 ≫= run late_syscall_trace) as [k|] eqn:Hrun; [|discriminate Hq].
  exists k. split; [reflexivity|].
  destruct (apps_keep_their_pcb pids0 k) as [Hin Hout].
  - by apply boot_run_reachable in Hrun.
  - intros a b _ _. unfold pids0. lia.
  - split.
    + destruct (Hin 2%nat) as [H _]; [unfold N_APPS; lia | exact H].
    + apply Hout. intros i _. unfold pids0. lia.
Defined.

Lemma cpu_idle_means_no_ready_witness :
  exists k, boot pids0 ≫= run all_reaped = Some k /\ running_idx k = -1 /\
            state_of k 0 <> Some READY.
Proof.
  pose proof all_reaped_idle as Hq.
  destruct (boot pids0 ≫= run all_reaped) as [k|] eqn:Hrun; [|discriminate Hq].
  injection Hq as Hq. exists k. split; [reflexivity|]. split; [exact Hq|].
  apply (cpu_idle_means_no_ready pids0 k 0); [|exact Hq].
  destruct (boot pids0) as [k0|] eqn:Hboot; [|discriminate Hrun].
  cbn [mbind option_bind] in Hrun.
  apply (run_reaped_in_turn pids0 [100; 101; 102; 103; 104] k0 k);
    [by apply reach_it_boot | exact Hrun].
Defined.

Lemma kernel_never_faults_witness :
  exists k k', boot pids0 = Some k /\ run late_syscall_trace k = Some k' /\
               reachable pids0 k'.
Proof.
  destruct (boot_inv pids0) as (k & Hboot & _).
  destruct (kernel_never_faults pids0 late_syscall_trace k) as (k' & Hrun & Hk');
    [by apply reach_boot|].
  by exists k, k'.
Defined.

Lemma schedule_next_returns_witness :
  exists k k', boot pids0 = Some k /\ schedule_next_fuel 2 k = Some k' /\
               schedule_next_fuel 7 k = Some k'.
Proof.
  destruct (boot_inv pids0) as (k & Hboot & HI).
  destruct (schedule_next_returns true k 5 HI) as (k' & H2 & H7 & _).
  by exists k, k'.
Defined.

Lemma acc_append_bounded_witness :
  exists acc',
    acc_append (replicate 4 Ascii.zero) 4 0 irq_bytes 7
    = Some (acc', 4, 4) /\
    acc' = take 4 irq_bytes.
Proof.
  destruct (acc_append_bounded (replicate 4 Ascii.zero) irq_bytes 0 7)
    as (acc' & Hrun & Hlen & Htake & _); [simpl; lia | simpl; lia |].
  exists acc'. split; [exact Hrun|].
  rewrite <- (take_ge acc' 4) by (rewrite Hlen; simpl; lia). exact Htake.
Defined.

Lemma acc_take_line_witness :
  exists dest' acc',
    acc_find_nl irq_bytes 7 = Some 4 /\
    acc_copy_line irq_bytes 4 (replicate 3 Ascii.zero) 3 = Some dest' /\
    cstr dest' = "IR"%string /\
    acc_consume_line irq_bytes 7 4 = Some (acc', 2) /\
    take 2 acc' = line_chars "IR".
Proof.
  destruct (acc_take_line irq_bytes (replicate 3 Ascii.zero) 7 "IRQ0" (line_chars "IR"))
    as (dest' & acc' & Hfind & Hcopy & _ & Hstr & Hcons & _ & Htake).
  - simpl. lia.
  - reflexivity.
  - split; vm_compute; intros H; repeat (apply elem_of_cons in H as [H|H]; [discriminate H|]);
      by apply elem_of_nil in H.
  - simpl. lia.
  - by exists dest', acc'.
Defined.

Lemma drain_inter_dispatches_lines_witness :
  exists k k' acc', boot pids0 = Some k /\ step (InterLine "IRQ0") k = Some k' /\
    drain_inter irq_bytes 7 (replicate 1024 Ascii.zero) 0 k = Some (acc', 2, k') /\
    take 2 acc' = line_chars "IR".
Proof.
  destruct (boot_inv pids0) as (k & Hboot & _).
  destruct (reachable_step_total pids0 k (InterLine "IRQ0")) as [k' Hstep];
    [by apply reach_boot|].
  pose proof (drain_inter_dispatches_lines (replicate 1024 Ascii.zero) irq_bytes 0
                ["IRQ0"%string] (line_chars "IR") k) as H.
  cbn [map run] in H. rewrite Hstep in H. cbn [mbind option_bind] in H.
  destruct H as (acc' & Hrun & _ & Htake).
  - reflexivity.
  - discriminate.
  - vm_compute. lia.
  - reflexivity.
  - apply Forall_cons. split; [|by apply Forall_nil].
    split; [|vm_compute; lia].
    split; vm_compute; intros H; repeat (apply elem_of_cons in H as [H|H]; [discriminate H|]);
      by apply elem_of_nil in H.
  - vm_compute; intros H; repeat (apply elem_of_cons in H as [H|H]; [discriminate H|]);
      by apply elem_of_nil in H.
  - by exists k, k', acc'.
Defined.

Lemma drain_inter_overflow_witness :
  exists k acc', boot pids0 = Some k /\
    drain_inter irq_bytes 7 (replicate 1024 Ascii.zero) 1020 k = Some (acc', 0, k).
Proof.
  destruct (boot_inv pids0) as (k & Hboot & _).
  destruct (drain_inter_overflow (replicate 1024 Ascii.zero) irq_bytes 1020 7 k)
    as (acc' & Hrun); [reflexivity | | | |].
  - rewrite length_replicate. lia.
  - simpl. lia.
  - vm_compute. lia.
  - by exists k, acc'.
Defined.

Lemma forked_image_runs_its_role_witness :
  main env_inter_child ["KernelSim_T2"; "inter"] = Forever.
Proof.
  destruct (forked_image_runs_its_role env_inter_child ["KernelSim_T2"; "inter"]%string
              eq_refl) as [[_ H]|(i & _ & Hargv & _)]; [exact H | discriminate Hargv].
Defined.


